(** * n8n OpenInference tracing: span-kind mapper and execution span manager

    A shallow embedding of [tracing/openinference-mapper.js] and of the
    helpers, wrappers and initialization guard of [tracing/tracing.js],
    followed by the properties proved about them.

    Conventions of the embedding.
    - A JavaScript string is a Rocq [string]; every character stands for the
      UTF-16 code unit with the same number (0..255, the Latin-1 range).
    - JavaScript values are the plain data of [JS.value]: own data
      properties only, objects as association lists in insertion order.
      Where a property is about what a getter throws, the accessor
      properties of the objects are given beside the values, as
      [JS.accessors].
    - [undefined] as a function result is [None] of an [option], or
      [JS.VUndefined] where the result is again a JavaScript value.
    - A computation that may throw returns a [JS.completion]; what it
      throws is an [Error], with its name and its message, or a plain
      value.
    - The span of the tracing SDK, the metadata of the gRPC library and
      the packages [flat] and n8n-core are outside the two files: the span
      and the metadata are modelled as far as the code calls them,
      [flatten] and [JSON.stringify] are parameters. *)

From Stdlib Require Import ZArith List String Ascii Bool Arith Lia.
From Stdlib Require Import DecimalString.
Import ListNotations.

Local Open Scope list_scope.
Local Open Scope string_scope.

(* ================================================================== *)
(** ** JavaScript values and the built-ins the source relies on *)
(* ================================================================== *)

Module JS.

(** Numbers that occur in the modelled code: integers (lengths, parsed
    configuration) and [NaN] (what [parseInt] gives on a malformed value). *)
Inductive number : Type :=
| NaN
| Int (z : Z).

#[warnings="-register-all"]
Inductive value : Type :=
| VUndefined
| VNull
| VBool (b : bool)
| VNum (n : number)
| VStr (s : string)
| VArr (items : list value)
| VObj (props : list (string * value)).

(** ToBoolean. *)
Definition truthy (v : value) : bool :=
  match v with
  | VUndefined | VNull => false
  | VBool b => b
  | VNum NaN => false
  | VNum (Int z) => negb (z =? 0)%Z
  | VStr s => negb (s =? "")
  | VArr _ | VObj _ => true
  end.

(** The [typeof] operator. *)
Definition typeof (v : value) : string :=
  match v with
  | VUndefined => "undefined"
  | VNull => "object"
  | VBool _ => "boolean"
  | VNum _ => "number"
  | VStr _ => "string"
  | VArr _ | VObj _ => "object"
  end.

Definition isArray (v : value) : bool :=
  match v with VArr _ => true | _ => false end.

(** [a || b]. *)
Definition or_else (a b : value) : value := if truthy a then a else b.

(** First binding of a key in an object's property list. *)
Fixpoint lookup (k : string) (props : list (string * value)) : value :=
  match props with
  | [] => VUndefined
  | (k', v) :: rest => if k' =? k then v else lookup k rest
  end.

(** [v[k]] for a non-nullish [v] and a key [k] that is not an array
    index: own data properties, and [length] of arrays and strings. *)
Definition get (v : value) (k : string) : value :=
  match v with
  | VObj props => lookup k props
  | VArr items => if k =? "length" then VNum (Int (Z.of_nat (List.length items))) else VUndefined
  | VStr s => if k =? "length" then VNum (Int (Z.of_nat (String.length s))) else VUndefined
  | _ => VUndefined
  end.

(** [v == null] *)
Definition nullish (v : value) : bool :=
  match v with
  | VUndefined | VNull => true
  | _ => false
  end.

(** Optional chaining [v?.[k]]. *)
Definition get_opt (v : value) (k : string) : value :=
  match v with
  | VUndefined | VNull => VUndefined
  | _ => get v k
  end.

(** Number::toString for the numbers of the model. *)
Definition number_to_string (n : number) : string :=
  match n with
  | NaN => "NaN"
  | Int z => NilZero.string_of_int (Z.to_int z)
  end.

Definition join_with (sep : string) (parts : list string) : string :=
  match parts with
  | [] => ""
  | p :: rest => fold_left (fun acc q => acc ++ sep ++ q) rest p
  end.

(** [String(v)]: arrays join their elements with a comma, a nullish element
    giving the empty string; a plain object prints as [[object Object]]. *)
Fixpoint to_string (v : value) : string :=
  match v with
  | VUndefined => "undefined"
  | VNull => "null"
  | VBool true => "true"
  | VBool false => "false"
  | VNum n => number_to_string n
  | VStr s => s
  | VArr items =>
      join_with ","
        (map (fun x => match x with
                       | VUndefined | VNull => ""
                       | _ => to_string x
                       end) items)
  | VObj _ => "[object Object]"
  end.

(** *** Characters *)

Definition code (c : ascii) : nat := nat_of_ascii c.

Definition in_range (lo hi : nat) (c : ascii) : bool :=
  ((lo <=? code c) && (code c <=? hi))%nat.

(** Code units whose lower-case form is 32 above: A-Z, and the Latin-1
    capitals U+00C0..U+00DE without the multiplication sign U+00D7. *)
Definition is_upper (c : ascii) : bool :=
  in_range 65 90 c || (in_range 192 222 c && negb (code c =? 215)%nat).

(** Code units whose upper-case form is 32 below: a-z, and the Latin-1
    small letters U+00E0..U+00FE without the division sign U+00F7. *)
Definition is_lower (c : ascii) : bool :=
  in_range 97 122 c || (in_range 224 254 c && negb (code c =? 247)%nat).

Definition lower_char (c : ascii) : ascii :=
  if is_upper c then ascii_of_nat (code c + 32) else c.

(** [String.prototype.toLowerCase]. *)
Fixpoint toLowerCase (s : string) : string :=
  match s with
  | EmptyString => EmptyString
  | String c rest => String (lower_char c) (toLowerCase rest)
  end.

(** Canonicalize of a case-insensitive, non-unicode regular expression:
    the upper-case form when that is one code unit (and not an ASCII one
    for a non-ASCII character).  U+00B5, U+00DF and U+00FF have no such
    form inside the range and stay themselves. *)
Definition canonicalize (c : ascii) : ascii :=
  if is_lower c then ascii_of_nat (code c - 32) else c.

(** White space and line terminators of [trim] and of the class [\s]. *)
Definition is_space (c : ascii) : bool :=
  in_range 9 13 c || (code c =? 32)%nat || (code c =? 160)%nat.

(** *** Regular expressions, as far as the source uses them *)

Inductive atom : Type :=
| Lit (c : ascii)
| Range (lo hi : ascii).

(** One alternative of a pattern: a sequence of atoms, anchored at the
    start of the input ([^]) or free to match anywhere. *)
Record alternative : Type := mkAlt { anchored : bool; atoms : list atom }.

Record regex : Type := mkRegex { alts : list alternative; ignoreCase : bool }.

Definition chars_between (lo hi : ascii) : list ascii :=
  map ascii_of_nat (seq (code lo) (S (code hi) - code lo)).

Definition atom_match (ic : bool) (a : atom) (c : ascii) : bool :=
  match a with
  | Lit p =>
      if ic then Ascii.eqb (canonicalize p) (canonicalize c) else Ascii.eqb p c
  | Range lo hi =>
      if ic
      then existsb (fun m => Ascii.eqb (canonicalize m) (canonicalize c))
                   (chars_between lo hi)
      else in_range (code lo) (code hi) c
  end.

Fixpoint match_here (ic : bool) (p : list atom) (s : string) : bool :=
  match p, s with
  | [], _ => true
  | _ :: _, EmptyString => false
  | a :: p', String c s' => atom_match ic a c && match_here ic p' s'
  end.

Fixpoint search (ic : bool) (p : list atom) (s : string) : bool :=
  match_here ic p s ||
  match s with
  | EmptyString => false
  | String _ s' => search ic p s'
  end.

Definition alt_test (ic : bool) (a : alternative) (s : string) : bool :=
  if anchored a then match_here ic (atoms a) s else search ic (atoms a) s.

(** [RegExp.prototype.test] of a pattern without the [g] and [y] flags:
    some alternative matches at some position. *)
Definition test (r : regex) (s : string) : bool :=
  existsb (fun a => alt_test (ignoreCase r) a s) (alts r).

Definition lits (s : string) : list atom := map Lit (list_ascii_of_string s).

(** An unanchored literal alternative. *)
Definition word (s : string) : alternative := mkAlt false (lits s).

(** *** Completions *)

(** A thrown [Error] object. *)
Record error : Type := mkError { err_name : string; err_message : string }.

(** [String(e)], that is [Error.prototype.toString]: the name, a colon and
    the message, or the one of them that is not empty. *)
Definition error_to_string (e : error) : string :=
  if err_name e =? "" then err_message e
  else if err_message e =? "" then err_name e
  else err_name e ++ ": " ++ err_message e.

(** What a [throw] raises, a [catch] receives and a promise rejects with:
    an [Error] object, or any other value. *)
Inductive thrown : Type :=
| ThrownError (e : error)
| ThrownValue (v : value).

Coercion ThrownError : error >-> thrown.

(** [String(e)] of a caught value. *)
Definition thrown_to_string (e : thrown) : string :=
  match e with
  | ThrownError err => error_to_string err
  | ThrownValue v => to_string v
  end.

Inductive completion (A : Type) : Type :=
| Normal (a : A)
| Throw (e : thrown).
Arguments Normal {A} a.
Arguments Throw {A} e.

Definition bind {A B : Type} (m : completion A) (k : A -> completion B) : completion B :=
  match m with
  | Normal a => k a
  | Throw e => Throw e
  end.

(** [try { body } catch (e) { handler(e) }]. *)
Definition try_catch {A : Type} (body : completion A) (handler : thrown -> completion A)
  : completion A :=
  match body with
  | Normal a => Normal a
  | Throw e => handler e
  end.

(** The values a [for ... of] loop visits: the elements of an array, the
    characters of a string; anything else is not iterable. *)
Definition iterate (what : string) (v : value) : completion (list value) :=
  match v with
  | VArr items => Normal items
  | VStr s => Normal (map (fun c => VStr (String c EmptyString)) (list_ascii_of_string s))
  | _ => Throw (mkError "TypeError" (what ++ " is not iterable"))
  end.

(** *** Accessor properties *)

(** Plain data has data properties only.  An object handed to the code
    may also define a property by an accessor, and reading the property
    then runs the getter, which may throw.  [acc o k] is what the getter of
    the property [k] of [o] does, when [o] defines [k] by an accessor. *)
Definition accessors : Type := value -> string -> option (completion value).

(** Plain data: no property is an accessor. *)
Definition plain_data : accessors := fun _ _ => None.

(** [o[k]] for a non-nullish [o]. *)
Definition read (acc : accessors) (o : value) (k : string) : completion value :=
  match acc o k with
  | Some getter => getter
  | None => Normal (get o k)
  end.

(** [o?.[k]] *)
Definition read_opt (acc : accessors) (o : value) (k : string) : completion value :=
  match o with
  | VUndefined | VNull => Normal VUndefined
  | _ => read acc o k
  end.

End JS.

Declare Scope js_scope.
Delimit Scope js_scope with js.
Notation "x <- m ;; k" := (JS.bind m (fun x => k))
  (at level 61, m at next level, right associativity) : js_scope.

(* ================================================================== *)
(** ** tracing/openinference-mapper.js *)
(* ================================================================== *)

Module Mapper.
Import JS.

Definition SPAN_KINDS : list string :=
  [ "LLM"; "EMBEDDING"; "CHAIN"; "RETRIEVER"; "RERANKER";
    "TOOL"; "AGENT"; "GUARDRAIL"; "EVALUATOR"; "PROMPT" ].

(** The exact-match sets, in the order [Object.entries] lists them. *)
Definition EXACT_SETS : list (string * list string) :=
  [ ("AGENT", ["Agent"; "AgentTool"]);
    ("LLM", ["LmChatOpenAi"; "LmOpenAi"; "OpenAi"; "Anthropic"; "GoogleGemini";
             "Groq"; "Perplexity"; "LmChatAnthropic"; "LmChatGoogleGemini";
             "LmChatMistralCloud"; "LmChatOpenRouter"; "LmChatXAiGrok";
             "OpenAiAssistant"]);
    ("EMBEDDING", ["EmbeddingsAwsBedrock"; "EmbeddingsAzureOpenAi"; "EmbeddingsCohere";
                   "EmbeddingsGoogleGemini"; "EmbeddingsGoogleVertex";
                   "EmbeddingsHuggingFaceInference"; "EmbeddingsMistralCloud";
                   "EmbeddingsOllama"; "EmbeddingsOpenAi"]);
    ("RETRIEVER", ["RetrieverContextualCompression"; "RetrieverMultiQuery";
                   "RetrieverVectorStore"; "RetrieverWorkflow"; "MemoryChatRetriever";
                   "VectorStoreInMemory"; "VectorStoreInMemoryInsert";
                   "VectorStoreInMemoryLoad"; "VectorStoreMilvus";
                   "VectorStoreMongoDBAtlas"; "VectorStorePGVector";
                   "VectorStorePinecone"; "VectorStorePineconeInsert";
                   "VectorStorePineconeLoad"; "VectorStoreQdrant"; "VectorStoreSupabase";
                   "VectorStoreSupabaseInsert"; "VectorStoreSupabaseLoad";
                   "VectorStoreWeaviate"; "VectorStoreZep"; "VectorStoreZepInsert";
                   "VectorStoreZepLoad"]);
    ("RERANKER", ["RerankerCohere"]);
    ("EVALUATOR", ["SentimentAnalysis"; "TextClassifier"; "InformationExtractor";
                   "OutputParserAutofixing"]);
    ("GUARDRAIL", ["GooglePerspective"; "AwsRekognition"]);
    ("CHAIN", ["ChainLlm"; "ChainRetrievalQa"; "ChainSummarization"; "ToolWorkflow";
               "ToolExecutor"; "ModelSelector"; "OutputParserStructured";
               "OutputParserItemList"; "TextSplitterCharacterTextSplitter";
               "TextSplitterRecursiveCharacterTextSplitter";
               "TextSplitterTokenSplitter"; "ToolThink"]) ].

Record rule : Type := mkRule { kind : string; pattern : regex }.

(** [/trigger/i] *)
Definition TRIGGER_PATTERN : regex := mkRegex [word "trigger"] true.

(** [/(lmchat|^lm[a-z]|chat|openai|anthropic|gemini|mistral|groq|cohere)/i] *)
Definition LLM_PATTERN : regex :=
  mkRegex [ word "lmchat";
            mkAlt true (lits "lm" ++ [Range "a"%char "z"%char])%list;
            word "chat"; word "openai"; word "anthropic"; word "gemini";
            word "mistral"; word "groq"; word "cohere" ] true.

(** The heuristics, in source order.  The rule for TOOL alone carries no
    [i] flag. *)
Definition REGEX_RULES : list rule :=
  [ mkRule "CHAIN" TRIGGER_PATTERN;
    mkRule "AGENT" (mkRegex [word "agent"] true);
    mkRule "EMBEDDING" (mkRegex [word "embedding"] true);
    mkRule "RETRIEVER" (mkRegex [word "retriev"; word "vectorstore"] true);
    mkRule "RERANKER" (mkRegex [word "rerank"] true);
    mkRule "LLM" LLM_PATTERN;
    mkRule "TOOL" (mkRegex [word "tool"] false);
    mkRule "CHAIN" (mkRegex [word "chain"; word "textsplitter"; word "parser";
                             word "memory"; word "workflow"] true);
    mkRule "EVALUATOR" (mkRegex [word "classif"; word "sentiment"; word "extract"] true);
    mkRule "GUARDRAIL" (mkRegex [word "perspective"; word "rekognition";
                                 word "moderation"; word "guardrail"] true) ].

Definition INTERNAL_LOGIC : list string :=
  [ "If"; "Switch"; "Set"; "Move"; "Rename"; "Wait"; "WaitUntil"; "Function";
    "FunctionItem"; "Code"; "NoOp"; "ExecuteWorkflow"; "SubworkflowTo" ].

(** [Set.prototype.has] on a set of strings. *)
Definition has (set : list string) (s : string) : bool :=
  existsb (String.eqb s) set.

(** The [switch] compares with strict equality: only a string equal to a
    case label selects it. *)
Definition categoryFallback (type : string) (category : value) : option string :=
  match category with
  | VStr c =>
      if c =? "Trigger Nodes" then Some "CHAIN"
      else if c =? "Transform Nodes" then Some "CHAIN"
      else if c =? "AI/LangChain Nodes" then Some "CHAIN"
      else if c =? "Core Nodes" then
        if has INTERNAL_LOGIC type then Some "CHAIN"
        else if (type =? "Schedule") || (type =? "Cron") then Some "CHAIN"
        else Some "TOOL"
      else None
  | _ => None
  end.

(** Tier 1: the first set, in entry order, that has the identifier. *)
Fixpoint exact_lookup (sets : list (string * list string)) (original : string)
  : option string :=
  match sets with
  | [] => None
  | (spanKind, set) :: rest =>
      if has set original then Some spanKind else exact_lookup rest original
  end.

(** Tier 2: the first rule whose pattern matches. *)
Fixpoint first_rule (rules : list rule) (lower : string) : option string :=
  match rules with
  | [] => None
  | r :: rest => if test (pattern r) lower then Some (kind r) else first_rule rest lower
  end.

Section Tiers.

(** The three tables the function consults; [mapNodeToSpanKind] below
    closes over the module's constants. *)
Variable exact_sets : list (string * list string).
Variable regex_rules : list rule.
Variable fallback : string -> value -> option string.

Definition mapNodeToSpanKindWith (nodeType nodeAttributes : value) : option string :=
  if negb (truthy nodeType) || negb (typeof nodeType =? "string") then None
  else
    match nodeType with
    | VStr original =>
        match exact_lookup exact_sets original with
        | Some spanKind => Some spanKind
        | None =>
            let lower := toLowerCase original in
            match first_rule regex_rules lower with
            | Some k => Some k
            | None =>
                let category :=
                  or_else (get_opt nodeAttributes "n8n.node.category")
                          (get_opt nodeAttributes "n8n.node.category_raw") in
                match fallback original category with
                | Some fromCategory =>
                    if truthy (VStr fromCategory) then Some fromCategory else None
                | None => None
                end
            end
        end
    | _ => None
    end.

End Tiers.

Definition mapNodeToSpanKind : value -> value -> option string :=
  mapNodeToSpanKindWith EXACT_SETS REGEX_RULES categoryFallback.

(** The caller's use in [runNode]: the mapping can be switched off, and a
    missing kind defaults to CHAIN. *)
Definition nodeSpanKind (MAP_OPENINFERENCE_SPAN_KINDS : bool)
           (nodeType n8nNodeAttrs : value) : string :=
  let spanKind :=
    if MAP_OPENINFERENCE_SPAN_KINDS then mapNodeToSpanKind nodeType n8nNodeAttrs
    else None in
  match spanKind with
  | Some k => if truthy (VStr k) then k else "CHAIN"
  | None => "CHAIN"
  end.

End Mapper.

(* ================================================================== *)
(** ** tracing/tracing.js: naming and payload helpers *)
(* ================================================================== *)

Module Tracing.
Import JS.

(** *** String built-ins *)

(** [trimStart]. *)
Fixpoint trimStart (s : string) : string :=
  match s with
  | EmptyString => EmptyString
  | String c rest => if is_space c then trimStart rest else s
  end.

(** [trimEnd]. *)
Fixpoint trimEnd (s : string) : string :=
  match s with
  | EmptyString => EmptyString
  | String c rest =>
      let rest' := trimEnd rest in
      if is_space c && (rest' =? "") then EmptyString else String c rest'
  end.

Definition trim (s : string) : string := trimEnd (trimStart s).

(** [.replace(/\s+/g, '-')]: every maximal run of white space becomes one
    hyphen.  [in_run] tells that the previous character was white space. *)
Fixpoint replace_space_runs (in_run : bool) (s : string) : string :=
  match s with
  | EmptyString => EmptyString
  | String c rest =>
      if is_space c
      then if in_run then replace_space_runs true rest
           else String "-" (replace_space_runs true rest)
      else String c (replace_space_runs false rest)
  end.

(** The class [[a-zA-Z0-9._-]]. *)
Definition segment_char (c : ascii) : bool :=
  in_range 97 122 c || in_range 65 90 c || in_range 48 57 c
  || Ascii.eqb c "." || Ascii.eqb c "_" || Ascii.eqb c "-".

(** [.replace(/[^a-zA-Z0-9._-]/g, '-')]. *)
Fixpoint replace_other_chars (s : string) : string :=
  match s with
  | EmptyString => EmptyString
  | String c rest =>
      String (if segment_char c then c else "-"%char) (replace_other_chars rest)
  end.

Fixpoint take (n : nat) (s : string) : string :=
  match n, s with
  | O, _ => EmptyString
  | S _, EmptyString => EmptyString
  | S n', String c rest => String c (take n' rest)
  end.

(** [s.slice(0, end)]: [NaN] counts as 0, a negative end counts from the
    end of the string. *)
Definition slice0 (s : string) (end_ : number) : string :=
  let len := Z.of_nat (String.length s) in
  let relativeEnd := match end_ with NaN => 0%Z | Int z => z end in
  let final := if (relativeEnd <? 0)%Z then Z.max (len + relativeEnd) 0
               else Z.min relativeEnd len in
  take (Z.to_nat final) s.

(** [function sanitizeSegment(value, def = 'unknown')] *)
Definition sanitizeSegment (value_ : value) (def : string) : string :=
  if negb (truthy value_) then def
  else
    let r := slice0 (replace_other_chars
                       (replace_space_runs false (trim (to_string value_))))
                    (Int 80) in
    if truthy (VStr r) then r else def.

(** The default of the second parameter. *)
Definition sanitizeSegment1 (value_ : value) : string :=
  sanitizeSegment value_ "unknown".

(** [a <= b] and [a - b] on numbers. *)
Definition num_le (a b : number) : bool :=
  match a, b with
  | Int x, Int y => (x <=? y)%Z
  | _, _ => false
  end.

Definition num_sub (a b : number) : number :=
  match a, b with
  | Int x, Int y => Int (x - y)
  | _, _ => NaN
  end.

Section IO.

(** [MAX_IO_CHARS = parseInt(process.env.TRACING_MAX_IO_CHARS || '12000', 10)]:
    an integer, or [NaN] when the variable does not start with digits. *)
Variable MAX_IO_CHARS : number.

(** [function truncateIO(str)] *)
Definition truncateIO (str : value) : string :=
  match str with
  | VUndefined | VNull => ""
  | _ =>
      let str := if typeof str =? "string" then
                   match str with VStr s => s | _ => "" end
                 else to_string str in
      let length := Int (Z.of_nat (String.length str)) in
      if num_le length MAX_IO_CHARS then str
      else slice0 str MAX_IO_CHARS
           ++ "...[truncated " ++ number_to_string (num_sub length MAX_IO_CHARS)
           ++ " chars]"
  end.

End IO.

(** The configured default. *)
Definition DEFAULT_MAX_IO_CHARS : number := Int 12000.

(** *** Payload extractors *)

(** [for (const item of items) if (item?.json) allItems.push(item.json)] *)
Definition push_json (allItems items : list value) : list value :=
  fold_left (fun acc item =>
               if truthy (get_opt item "json") then acc ++ [get_opt item "json"]
               else acc)%list
            items allItems.

(** The loop over the main inputs: a falsy connection is skipped, any
    other one is iterated. *)
Fixpoint collect_truthy (conns allItems : list value) : completion (list value) :=
  match conns with
  | [] => Normal allItems
  | connection :: rest =>
      if negb (truthy connection) then collect_truthy rest allItems
      else (items <- iterate "connection" connection ;;
            collect_truthy rest (push_json allItems items))%js
  end.

(** The loop over output connections: only arrays are iterated. *)
Fixpoint collect_arrays (conns allItems : list value) : completion (list value) :=
  match conns with
  | [] => Normal allItems
  | connection :: rest =>
      if negb (isArray connection) then collect_arrays rest allItems
      else (items <- iterate "connection" connection ;;
            collect_arrays rest (push_json allItems items))%js
  end.

(** [{ _error: String(e) }] *)
Definition error_record (e : thrown) : value :=
  VObj [("_error", VStr (thrown_to_string e))].

(** The [try] block of [extractNodeInputFromExecutionData]. *)
Definition extractNodeInput_try (executionData : value) : completion value :=
  let mainInputs := get_opt (get_opt executionData "data") "main" in
  if negb (truthy mainInputs) || negb (truthy (get mainInputs "length"))
  then Normal VUndefined
  else
    (conns <- iterate "mainInputs" mainInputs ;;
     allItems <- collect_truthy conns [] ;;
     match allItems with
     | [] => Normal VUndefined
     | [single] => Normal single
     | _ => Normal (VArr allItems)
     end)%js.

(** [function extractNodeInputFromExecutionData(executionData)] *)
Definition extractNodeInputFromExecutionData (executionData : value)
  : completion value :=
  try_catch (extractNodeInput_try executionData)
            (fun e => Normal (error_record e)).

(** The two shapes of [result.data] the output extractor reads into
    [allItems]: an array of connections, or an object that holds one under
    [main]. *)
Definition collectOutputItems (data : value) : completion (list value) :=
  (if truthy data && isArray data then
     conns <- iterate "data" data ;; collect_arrays conns []
   else if truthy data && (typeof data =? "object") && negb (isArray data) then
     let main := get data "main" in
     if isArray main then
       conns <- iterate "main" main ;; collect_arrays conns []
     else Normal []
   else Normal [])%js.

(** The primary output text probed on the first item. *)
Definition primaryOutput (first : value) : value :=
  if truthy first && (typeof first =? "object") then
    or_else (or_else (or_else (or_else (or_else
      (get first "output") (get first "completion"))
      (get first "text")) (get first "result"))
      (get first "response")) VUndefined
  else VUndefined.

(** The [try] block of [extractNodeOutput]. *)
Definition extractNodeOutput_try (result : value) : completion value :=
  if negb (truthy result) then Normal VUndefined
  else
    let data := get result "data" in
    (allItems <- collectOutputItems data ;;
     match allItems with
     | [] => Normal VUndefined
     | first :: _ =>
         Normal (VObj [("primary", primaryOutput first);
                       ("items", VArr (firstn 10 allItems))])
     end)%js.

(** [function extractNodeOutput(result)] *)
Definition extractNodeOutput (result : value) : completion value :=
  try_catch (extractNodeOutput_try result)
            (fun e => Normal (error_record e)).

(** *** The payload extractors on objects with accessor properties *)

Section Accessors.

(** The accessor properties of the objects the extractors are given.  On
    plain data, [plain_data], every read below is the lookup of the
    definitions above. *)
Variable acc : accessors.

(** [for (const item of items) if (item?.json) allItems.push(item.json)]:
    the property is read once for the test and once more for the push. *)
Fixpoint push_json_reading (allItems items : list value) : completion (list value) :=
  match items with
  | [] => Normal allItems
  | item :: rest =>
      (json <- read_opt acc item "json" ;;
       if truthy json
       then (pushed <- read acc item "json" ;;
             push_json_reading (allItems ++ [pushed])%list rest)
       else push_json_reading allItems rest)%js
  end.

Fixpoint collect_truthy_reading (conns allItems : list value)
  : completion (list value) :=
  match conns with
  | [] => Normal allItems
  | connection :: rest =>
      if negb (truthy connection) then collect_truthy_reading rest allItems
      else (items <- iterate "connection" connection ;;
            pushed <- push_json_reading allItems items ;;
            collect_truthy_reading rest pushed)%js
  end.

Fixpoint collect_arrays_reading (conns allItems : list value)
  : completion (list value) :=
  match conns with
  | [] => Normal allItems
  | connection :: rest =>
      if negb (isArray connection) then collect_arrays_reading rest allItems
      else (items <- iterate "connection" connection ;;
            pushed <- push_json_reading allItems items ;;
            collect_arrays_reading rest pushed)%js
  end.

(** The [try] block of [extractNodeInputFromExecutionData]. *)
Definition extractNodeInput_try_reading (executionData : value) : completion value :=
  (data <- read_opt acc executionData "data" ;;
   mainInputs <- read_opt acc data "main" ;;
   if negb (truthy mainInputs) then Normal VUndefined
   else
     (length <- read acc mainInputs "length" ;;
      if negb (truthy length) then Normal VUndefined
      else
        (conns <- iterate "mainInputs" mainInputs ;;
         allItems <- collect_truthy_reading conns [] ;;
         match allItems with
         | [] => Normal VUndefined
         | [single] => Normal single
         | _ => Normal (VArr allItems)
         end)))%js.

(** [function extractNodeInputFromExecutionData(executionData)] *)
Definition extractNodeInput_reading (executionData : value) : completion value :=
  try_catch (extractNodeInput_try_reading executionData)
            (fun e => Normal (error_record e)).

Definition collectOutputItems_reading (data : value) : completion (list value) :=
  (if truthy data && isArray data then
     conns <- iterate "data" data ;; collect_arrays_reading conns []
   else if truthy data && (typeof data =? "object") && negb (isArray data) then
     (main <- read acc data "main" ;;
      if isArray main then
        conns <- iterate "main" main ;; collect_arrays_reading conns []
      else Normal [])
   else Normal [])%js.

(** [first[k1] || first[k2] || ... || undefined]: a key is read only when
    the keys before it gave falsy values. *)
Fixpoint first_truthy_reading (first : value) (keys : list string)
  : completion value :=
  match keys with
  | [] => Normal VUndefined
  | k :: rest =>
      (v <- read acc first k ;;
       if truthy v then Normal v else first_truthy_reading first rest)%js
  end.

Definition primaryOutput_reading (first : value) : completion value :=
  if truthy first && (typeof first =? "object") then
    first_truthy_reading first ["output"; "completion"; "text"; "result"; "response"]
  else Normal VUndefined.

(** The [try] block of [extractNodeOutput]. *)
Definition extractNodeOutput_try_reading (result : value) : completion value :=
  if negb (truthy result) then Normal VUndefined
  else
    (data <- read acc result "data" ;;
     allItems <- collectOutputItems_reading data ;;
     match allItems with
     | [] => Normal VUndefined
     | first :: _ =>
         primary <- primaryOutput_reading first ;;
         Normal (VObj [("primary", primary);
                       ("items", VArr (firstn 10 allItems))])
     end)%js.

(** [function extractNodeOutput(result)] *)
Definition extractNodeOutput_reading (result : value) : completion value :=
  try_catch (extractNodeOutput_try_reading result)
            (fun e => Normal (error_record e)).

End Accessors.

(** *** Spans *)

Inductive status_code : Type := UNSET | OK | ERROR.

(** The span of the tracing SDK, as far as the wrappers use it: its name,
    its attributes in insertion order, its status, the exceptions it
    recorded as events, and the calls of [end()].  The span is a recording
    one, and it has the limits the SDK gives a span when, as here, none is
    configured. *)
Record span : Type := mkSpan {
  span_name : value;
  span_attributes : list (string * value);
  span_status : status_code * option string;
  span_exceptions : list thrown;
  span_end_calls : nat  (* how many times [end()] was called *)
}.

Definition attributeCountLimit : nat := 128.

Definition eventCountLimit : nat := 128.

Definition ended (s : span) : bool := negb (span_end_calls s =? 0)%nat.

(** [object[k] = v] on the properties of an object. *)
Fixpoint set_prop (k : string) (v : value) (props : list (string * value))
  : list (string * value) :=
  match props with
  | [] => [(k, v)]
  | (k', v') :: rest =>
      if k' =? k then (k, v) :: rest else (k', v') :: set_prop k v rest
  end.

(** [Object.prototype.hasOwnProperty.call(object, k)] *)
Definition has_key (k : string) (props : list (string * value)) : bool :=
  existsb (fun kv => fst kv =? k) props.

Definition isValidPrimitiveAttributeValueType (valType : string) : bool :=
  (valType =? "number") || (valType =? "boolean") || (valType =? "string").

(** An array is an attribute value when its elements, nullish ones apart,
    are primitives of one type; [type] is the type met so far. *)
Fixpoint isHomogeneousAttributeValueArray (type : option string) (arr : list value)
  : bool :=
  match arr with
  | [] => true
  | element :: rest =>
      if nullish element then isHomogeneousAttributeValueArray type rest
      else
        match type with
        | Some t =>
            if typeof element =? t
            then isHomogeneousAttributeValueArray type rest
            else false
        | None =>
            if isValidPrimitiveAttributeValueType (typeof element)
            then isHomogeneousAttributeValueArray (Some (typeof element)) rest
            else false
        end
  end.

(** The SDK's [isAttributeValue]. *)
Definition isAttributeValue (val : value) : bool :=
  if nullish val then true
  else
    match val with
    | VArr arr => isHomogeneousAttributeValueArray None arr
    | _ => isValidPrimitiveAttributeValueType (typeof val)
    end.

(** [span.setAttribute(k, v)].  The span ignores a nullish value, every
    mutation after [end()], an empty key and a value that is no attribute
    value; and once it holds [attributeCountLimit] attributes it drops
    every key it does not hold yet. *)
Definition span_setAttribute (k : string) (v : value) (s : span) : span :=
  if nullish v || ended s then s
  else if k =? "" then s
  else if negb (isAttributeValue v) then s
  else if (attributeCountLimit <=? List.length (span_attributes s))%nat
          && negb (has_key k (span_attributes s)) then s
  else mkSpan (span_name s) (set_prop k v (span_attributes s)) (span_status s)
              (span_exceptions s) (span_end_calls s).

(** [tracer.startSpan(name, { attributes })]: the attributes are set one
    by one, in the order of the object's keys. *)
Definition startSpan (name : value) (attributes : list (string * value)) : span :=
  fold_left (fun s kv => span_setAttribute (fst kv) (snd kv) s) attributes
            (mkSpan name [] (UNSET, None) [] 0).

Definition span_setStatus (c : status_code) (msg : option string) (s : span) : span :=
  if ended s then s
  else mkSpan (span_name s) (span_attributes s) (c, msg)
              (span_exceptions s) (span_end_calls s).

(** The attribute [exception.type] of the event [recordException] builds:
    the [code] of the exception, else its [name].  An [Error] of the model
    has a name and a message and no code. *)
Definition exception_type (exception : thrown) : value :=
  match exception with
  | ThrownError e => if truthy (VStr (err_name e)) then VStr (err_name e) else VUndefined
  | ThrownValue v =>
      if typeof v =? "string" then VUndefined
      else if truthy v then
        if truthy (get v "code") then VStr (to_string (get v "code"))
        else if truthy (get v "name") then get v "name"
        else VUndefined
      else VUndefined
  end.

(** The attribute [exception.message] of that event: a string that is
    thrown is its own message. *)
Definition exception_message (exception : thrown) : value :=
  match exception with
  | ThrownError e =>
      if truthy (VStr (err_message e)) then VStr (err_message e) else VUndefined
  | ThrownValue v =>
      if typeof v =? "string" then v
      else if truthy v then
        if truthy (get v "message") then get v "message" else VUndefined
      else VUndefined
  end.

(** The event is added only when one of the two attributes is truthy. *)
Definition exception_recorded (exception : thrown) : bool :=
  truthy (exception_type exception) || truthy (exception_message exception).

(** [span.addEvent]: a span that holds [eventCountLimit] events drops the
    oldest one. *)
Definition add_event (x : thrown) (events : list thrown) : list thrown :=
  if (eventCountLimit <=? List.length events)%nat
  then (tl events ++ [x])%list
  else (events ++ [x])%list.

(** [span.recordException(exception)] *)
Definition span_recordException (x : thrown) (s : span) : span :=
  if exception_recorded x then
    if ended s then s
    else mkSpan (span_name s) (span_attributes s) (span_status s)
                (add_event x (span_exceptions s)) (span_end_calls s)
  else s.

Definition span_end (s : span) : span :=
  mkSpan (span_name s) (span_attributes s) (span_status s)
         (span_exceptions s) (S (span_end_calls s)).

(** Code that works on one span and may throw. *)
Definition spanM (A : Type) : Type := span -> completion A * span.

Definition ret {A : Type} (a : A) : spanM A := fun s => (Normal a, s).

Definition throw {A : Type} (e : thrown) : spanM A := fun s => (Throw e, s).

Definition lift {A : Type} (c : completion A) : spanM A := fun s => (c, s).

Definition bindM {A B : Type} (m : spanM A) (k : A -> spanM B) : spanM B :=
  fun s => match m s with
           | (Normal a, s') => k a s'
           | (Throw e, s') => (Throw e, s')
           end.

Definition update (f : span -> span) : spanM unit := fun s => (Normal tt, f s).

Definition attributes : spanM (list (string * value)) :=
  fun s => (Normal (span_attributes s), s).

(** [try { body } catch (e) { handler(e) }] *)
Definition tryM {A : Type} (body : spanM A) (handler : thrown -> spanM A) : spanM A :=
  fun s => match body s with
           | (Normal a, s') => (Normal a, s')
           | (Throw e, s') => handler e s'
           end.

(** [try { body } finally { cleanup }], and [promise.finally(cleanup)]: the
    cleanup runs on both exits and keeps the body's completion unless it
    throws itself. *)
Definition finallyM {A : Type} (body : spanM A) (cleanup : spanM unit) : spanM A :=
  fun s => match body s with
           | (r, s') =>
               match cleanup s' with
               | (Normal _, s'') => (r, s'')
               | (Throw e, s'') => (Throw e, s'')
               end
           end.

End Tracing.

Declare Scope span_scope.
Delimit Scope span_scope with span.
Notation "x <- m ;; k" := (Tracing.bindM m (fun x => k))
  (at level 61, m at next level, right associativity) : span_scope.
Notation "m ;; k" := (Tracing.bindM m (fun _ => k))
  (at level 61, right associativity) : span_scope.


(* ================================================================== *)
(** ** tracing/tracing.js: configuration, naming and the exporter *)
(* ================================================================== *)

Module Config.
Import JS Tracing.

(** [process.env]: variable names and their string values, looked up and
    assigned by name. *)
Definition env : Type := list (string * string).

(** [process.env[key]]; [None] is [undefined]. *)
Fixpoint env_get (key : string) (e : env) : option string :=
  match e with
  | [] => None
  | (k, v) :: rest => if k =? key then Some v else env_get key rest
  end.

(** [process.env[key] = v] *)
Fixpoint env_set (key v : string) (e : env) : env :=
  match e with
  | [] => [(key, v)]
  | (k, v') :: rest =>
      if k =? key then (k, v) :: rest else (k, v') :: env_set key v rest
  end.

(** The two characters of the quote class of [getEnv]: the apostrophe
    (39) and the double quote (34). *)
Definition is_quote (c : ascii) : bool :=
  (code c =? 39)%nat || (code c =? 34)%nat.

Fixpoint drop_last_quote (s : string) : string :=
  match s with
  | EmptyString => EmptyString
  | String c EmptyString => if is_quote c then EmptyString else s
  | String c rest => String c (drop_last_quote rest)
  end.

(** The [replace] of [getEnv]: its pattern, with the [g] flag, is a quote
    at the start or a quote at the end, so a quote at the start is
    dropped, then a quote at the end of what is left. *)
Definition strip_quotes (s : string) : string :=
  drop_last_quote
    (match s with
     | String c rest => if is_quote c then rest else s
     | EmptyString => EmptyString
     end).

(** [function getEnv(key, defaultValue = '', required = true)] *)
Definition getEnv (e : env) (key defaultValue : string) (required : bool)
  : completion string :=
  let value := match env_get key e with Some v => v | None => defaultValue end in
  if negb (truthy (VStr value)) && required
  then Throw (mkError "Error"
                ("Required environment variable " ++ key ++ " is not set"))
  else Normal (if truthy (VStr value) then strip_quotes value else defaultValue).

(** [function envBool(name, def = false)] *)
Definition envBool (e : env) (name : string) (def : bool) : bool :=
  let v := toLowerCase
             (trim (match env_get name e with Some s => s | None => "" end)) in
  if Mapper.has ["true"; "1"; "yes"; "on"] v then true
  else if Mapper.has ["false"; "0"; "no"; "off"] v then false
  else def.

(** One turn of the loop of [processOtelEnvironmentVariables]: a variable
    whose name starts with OTEL_ is read through [getEnv(key, undefined,
    false)] and written back; a throw is logged. *)
Definition clean_otel_variable (e : env) (key : string) : env :=
  if String.prefix "OTEL_" key then
    match getEnv e key "" false with
    | Normal cleanValue => env_set key cleanValue e
    | Throw _ => e
    end
  else e.

Definition env_falsy (x : option string) : bool :=
  match x with
  | Some s => negb (truthy (VStr s))
  | None => true
  end.

(** [function processOtelEnvironmentVariables()] *)
Definition processOtelEnvironmentVariables (e : env) : env :=
  let e1 := fold_left clean_otel_variable (map fst e) e in
  let e2 :=
    if env_falsy (env_get "OTEL_EXPORTER_OTLP_TIMEOUT" e1)
       && env_falsy (env_get "OTEL_EXPORTER_OTLP_TRACES_TIMEOUT" e1)
    then env_set "OTEL_EXPORTER_OTLP_TIMEOUT" "30000" e1
    else e1 in
  if env_falsy (env_get "OTEL_BSP_EXPORT_TIMEOUT" e2)
  then env_set "OTEL_BSP_EXPORT_TIMEOUT" "30000" e2
  else e2.

(** [str.replace(/needle/g, repl)] for a literal, non-empty needle and a
    replacement without [$]: the occurrences are replaced from left to
    right; [skip] counts the characters of a match still to pass. *)
Fixpoint replace_all_from (needle repl : string) (skip : nat) (s : string) : string :=
  match s with
  | EmptyString => EmptyString
  | String c rest =>
      match skip with
      | S k => replace_all_from needle repl k rest
      | O =>
          if String.prefix needle s
          then repl ++ replace_all_from needle repl (String.length needle - 1) rest
          else String c (replace_all_from needle repl 0 rest)
      end
  end.

Definition replace_all (needle repl s : string) : string :=
  replace_all_from needle repl 0 s.

Record naming : Type := mkNaming {
  WORKFLOW_SPAN_NAME_PATTERN : option string;  (* process.env.TRACING_WORKFLOW_SPAN_NAME_PATTERN *)
  DYNAMIC_WORKFLOW_TRACE_NAME : bool
}.

(** [function buildWorkflowSpanName({ workflowId, workflowName, executionId,
    sessionId })] *)
Definition buildWorkflowSpanName (cfg : naming)
           (workflowId workflowName executionId sessionId : value) : string :=
  let pattern := match WORKFLOW_SPAN_NAME_PATTERN cfg with
                 | Some p => p
                 | None => ""
                 end in
  if truthy (VStr pattern) && truthy (VStr (trim pattern)) then
    let name :=
      slice0
        (replace_all "{sessionId}" (sanitizeSegment sessionId "sess")
           (replace_all "{executionId}" (sanitizeSegment executionId "exec")
              (replace_all "{workflowName}" (sanitizeSegment workflowName "workflow")
                 (replace_all "{workflowId}" (sanitizeSegment workflowId "wf")
                    pattern))))
        (Int 180) in
    if truthy (VStr name) then name else "n8n.workflow.execute"
  else if DYNAMIC_WORKFLOW_TRACE_NAME cfg then
    sanitizeSegment workflowId "wf" ++ "-"
    ++ sanitizeSegment workflowName "workflow" ++ "-"
    ++ sanitizeSegment executionId "exec"
  else "n8n.workflow.execute".

(** [function deriveSessionId(executionId)] *)
Definition deriveSessionId (executionId : value) : value :=
  or_else executionId (VStr "unknown").

(** The execution id the workflow wrapper reads from [this]. *)
Definition workflowExecutionId (this : value) : value :=
  or_else (or_else (or_else (get_opt this "executionId")
                            (get_opt (get_opt this "workflowExecuteAdditionalData")
                                     "executionId"))
                   (get_opt (get_opt this "additionalData") "executionId"))
          (VStr "unknown").

(** [a ?? b] *)
Definition nullish_or (a b : value) : value :=
  match a with
  | VUndefined | VNull => b
  | _ => a
  end.

(** The execution id the step wrapper reads from [additionalData]. *)
Definition nodeExecutionId (additionalData : value) : value :=
  nullish_or (get_opt additionalData "executionId") (VStr "unknown").

(** What [buildTraceExporter] constructs: the kind of exporter and the
    options it is given ([None]: an option left to the exporter). *)
Inductive exporter : Type :=
| OTLPTraceExporterHTTP (url : option string) (headers : list (string * string))
| OTLPTraceExporterGRPC (url : string) (metadata : list (string * string)).

(** [.replace(/\/$/, '')] *)
Fixpoint drop_last_slash (s : string) : string :=
  match s with
  | EmptyString => EmptyString
  | String c EmptyString => if Ascii.eqb c "/" then EmptyString else s
  | String c rest => String c (drop_last_slash rest)
  end.

(** The values the metadata of the gRPC library takes under a key that
    does not end in -bin: strings of printable ASCII characters, space to
    tilde. *)
Definition legal_metadata_value (value : string) : bool :=
  forallb (in_range 32 126) (list_ascii_of_string value).

(** The double quote. *)
Definition dquote : string := String (ascii_of_nat 34) EmptyString.

(** [metadata.add(key, value)] for a key the library accepts, as
    [space_id] and [api_key] are: the value is validated, then appended. *)
Definition Metadata_add (key value : string) (metadata : list (string * string))
  : completion (list (string * string)) :=
  if legal_metadata_value value then Normal (metadata ++ [(key, value)])%list
  else Throw (mkError "Error"
                ("Metadata string value " ++ dquote ++ value ++ dquote
                 ++ " contains illegal characters")).

(** [function buildGrpcMetadata(headers)] *)
Definition buildGrpcMetadata (headers : list (string * string))
  : completion (list (string * string)) :=
  fold_left (fun metadata kv =>
               (m <- metadata ;; Metadata_add (fst kv) (snd kv) m)%js)
            headers (Normal []).

(** [function buildTraceExporter()] *)
Definition buildTraceExporter
           (ARIZE_SPACE_ID ARIZE_API_KEY ARIZE_PROTOCOL ARIZE_ENDPOINT : string)
  : completion exporter :=
  if truthy (VStr ARIZE_SPACE_ID) && truthy (VStr ARIZE_API_KEY) then
    let headers := [("space_id", ARIZE_SPACE_ID); ("api_key", ARIZE_API_KEY)] in
    if ARIZE_PROTOCOL =? "http"
    then Normal (OTLPTraceExporterHTTP
                   (Some (drop_last_slash ARIZE_ENDPOINT ++ "/v1/traces")) headers)
    else (metadata <- buildGrpcMetadata headers ;;
          Normal (OTLPTraceExporterGRPC ARIZE_ENDPOINT metadata))%js
  else Normal (OTLPTraceExporterHTTP None []).

End Config.

(* ================================================================== *)
(** ** tracing/tracing.js: the two wrappers of [setupN8nOpenTelemetry] *)
(* ================================================================== *)

Module SpanManager.
Import JS Tracing Config.

(** A promise, once settled. *)
Inductive promise : Type :=
| Fulfilled (v : value)
| Rejected (e : thrown).

(** What calling a wrapped engine method does: it throws, or it returns a
    promise. *)
Definition call_outcome : Type := completion promise.

(** [await call]: a throw of the call itself and a rejection of the promise
    it returned both raise at the [await]. *)
Definition await (call : call_outcome) : completion value :=
  match call with
  | Throw e => Throw e
  | Normal (Fulfilled v) => Normal v
  | Normal (Rejected e) => Throw e
  end.

(** [String(error.message || error)] for a thrown [Error]. *)
Definition error_status_message (e : error) : string :=
  if err_message e =? "" then error_to_string e else err_message e.

(** [String(error.message || error)] for whatever was caught: reading
    [message] of [null] or of [undefined] throws a [TypeError]. *)
Definition status_message (error : thrown) : completion string :=
  match error with
  | ThrownError e => Normal (error_status_message e)
  | ThrownValue VUndefined =>
      Throw (mkError "TypeError"
               "Cannot read properties of undefined (reading 'message')")
  | ThrownValue VNull =>
      Throw (mkError "TypeError"
               "Cannot read properties of null (reading 'message')")
  | ThrownValue v => Normal (to_string (or_else (get v "message") v))
  end.

Record config : Type := mkConfig {
  MAP_OPENINFERENCE_SPAN_KINDS : bool;
  SPAN_KIND_IN_NODE_SPAN_NAME : bool;
  USE_NODE_NAME_SPAN : bool;
  CAPTURE_IO : bool;
  MAX_IO_CHARS : number
}.

Section Wrappers.

Variable cfg : config.

(** The platform's [JSON.stringify]: a string, [undefined] for a value
    that has no JSON text, or a throw. *)
Variable JSON_stringify : value -> completion value.

(** [flatten(node, { delimiter: '.' })] of the package [flat]: the
    entries of the one-level object it returns, or a throw. *)
Variable flatten : value -> completion (list (string * value)).

(** [function safeJSONStringify(obj)] *)
Definition safeJSONStringify (obj : value) : completion value :=
  try_catch (JSON_stringify obj)
            (fun e => JSON_stringify
                        (VObj [("_serializationError", VStr (thrown_to_string e))])).

Definition io_string (obj : value) : spanM value :=
  (j <- lift (safeJSONStringify obj) ;;
   ret (VStr (truncateIO (MAX_IO_CHARS cfg) j)))%span.

Definition setAttribute (k : string) (v : value) : spanM unit :=
  update (span_setAttribute k v).

Definition setStatus (c : status_code) (msg : option string) : spanM unit :=
  update (span_setStatus c msg).

Definition recordException (x : thrown) : spanM unit :=
  update (span_recordException x).

Definition end_ : spanM unit := update span_end.

(** **** processRunExecutionData *)

(** The last element of the runs of a node ([ITaskData[]] in the engine's
    types); the model reads no run from a value that is not an array. *)
Definition last_run (lastNodeRuns : value) : value :=
  match lastNodeRuns with
  | VArr runs => last runs VUndefined
  | _ => VUndefined
  end.

(** The [try] block that captures the workflow output. *)
Definition captureWorkflowOutput (result : value) : spanM unit :=
  let resultData := get_opt (get_opt result "data") "resultData" in
  let runData := get_opt resultData "runData" in
  let lastNode := get_opt resultData "lastNodeExecuted" in
  if truthy runData && truthy lastNode && truthy (get runData (to_string lastNode))
  then
    let lastNodeRuns := get runData (to_string lastNode) in
    let lastRun := last_run lastNodeRuns in
    let mainOutputs := get_opt (get_opt lastRun "data") "main" in
    (outputItems <-
       lift (if truthy mainOutputs
             then (conns <- iterate "mainOutputs" mainOutputs ;;
                   collect_truthy conns [])%js
             else Normal []) ;;
     match outputItems with
     | [] => ret tt
     | _ =>
         let finalOutput :=
           match outputItems with [single] => single | _ => VArr outputItems end in
         outputStr <- io_string finalOutput ;;
         setAttribute "output.value" outputStr ;;
         setAttribute "output.mime_type" (VStr "application/json")
     end)%span
  else ret tt.

(** The fulfilment handler given to [cancelable.then]. *)
Definition onFulfilled (workflowId workflowName : value) (result : value) : spanM unit :=
  let err := get_opt (get_opt (get_opt result "data") "resultData") "error" in
  ((if truthy err then
      recordException (ThrownValue err) ;;
      setStatus ERROR (Some (to_string (or_else (get err "message") err)))
    else setStatus OK None) ;;
   if CAPTURE_IO cfg then
     tryM (captureWorkflowOutput result) (fun _ => ret tt) ;;
     attrs <- attributes ;;
     if negb (truthy (lookup "input.value" attrs)) then
       j <- lift (safeJSONStringify
                    (VObj [("workflowId", workflowId); ("workflowName", workflowName)])) ;;
       setAttribute "input.value" j ;;
       setAttribute "input.mime_type" (VStr "application/json")
     else ret tt
   else ret tt)%span.

(** The rejection handler given to [cancelable.then]. *)
Definition onRejected (error : thrown) : spanM unit :=
  (recordException error ;;
   message <- lift (status_message error) ;;
   setStatus ERROR (Some message))%span.

(** [promise.then(onFulfilled, onRejected)] on a settled promise. *)
Definition then_ (p : promise) (onF : value -> spanM unit) (onR : thrown -> spanM unit)
  : spanM unit :=
  match p with
  | Fulfilled v => onF v
  | Rejected e => onR e
  end.

(** The wrapper from [tracer.startSpan] on.  [originalProcessRun] is what
    the call of the wrapped method does.  The result is what the wrapper
    itself does (it returns the engine's promise untouched, or the engine's
    throw leaves it), with the span as it stands when the promise chain has
    run. *)
Definition processRunExecutionData
           (workflowSpanName : value) (workflowAttributes : list (string * value))
           (workflowId workflowName : value)
           (originalProcessRun : call_outcome)
  : completion promise * span :=
  let span := startSpan workflowSpanName workflowAttributes in
  match originalProcessRun with
  | Throw e => (Throw e, span)
  | Normal cancelable =>
      let chain :=
        finallyM (then_ cancelable (onFulfilled workflowId workflowName) onRejected)
                 end_ in
      (Normal cancelable, snd (chain span))
  end.

(** **** runNode *)

(** The capture of the node input before the wrapped call. *)
Definition captureNodeInput (spanKind : string) (executionData : value) : spanM unit :=
  (inputObj <- lift (extractNodeInputFromExecutionData executionData) ;;
   if truthy inputObj then
     inputStr <- io_string inputObj ;;
     setAttribute "input.value" inputStr ;;
     setAttribute "input.mime_type" (VStr "application/json") ;;
     if spanKind =? "LLM" then
       let inputData :=
         match inputObj with VArr items => nth 0 items VUndefined | _ => inputObj end in
       let userContent :=
         or_else (or_else (or_else (get_opt inputData "chatInput")
                                   (get_opt inputData "text"))
                          (get_opt inputData "prompt"))
                 (get_opt inputData "query") in
       if truthy userContent then
         setAttribute "llm.input_messages.0.message.role" (VStr "user") ;;
         content <- (if typeof userContent =? "string" then ret userContent
                     else lift (safeJSONStringify userContent)) ;;
         setAttribute "llm.input_messages.0.message.content" content
       else ret tt
     else ret tt
   else ret tt)%span.

(** The capture of the node output after a successful call. *)
Definition captureNodeOutput (spanKind : string) (result : value) : spanM unit :=
  if CAPTURE_IO cfg then
    (extracted <- lift (extractNodeOutput result) ;;
     if truthy extracted then
       outputStr <- io_string extracted ;;
       setAttribute "output.value" outputStr ;;
       setAttribute "output.mime_type" (VStr "application/json") ;;
       if (spanKind =? "LLM") && truthy (get extracted "primary") then
         setAttribute "llm.output_messages.0.message.role" (VStr "assistant") ;;
         content <- (if typeof (get extracted "primary") =? "string"
                     then ret (get extracted "primary")
                     else lift (safeJSONStringify (get extracted "primary"))) ;;
         setAttribute "llm.output_messages.0.message.content" content
       else ret tt
     else ret tt)%span
  else ret tt.

(** The callback given to [tracer.startActiveSpan]. *)
Definition runNodeInSpan (spanKind : string) (executionData : value)
           (originalRunNode : call_outcome) : spanM value :=
  ((if CAPTURE_IO cfg
    then tryM (captureNodeInput spanKind executionData) (fun _ => ret tt)
    else ret tt) ;;
   finallyM
     (tryM
        (result <- lift (await originalRunNode) ;;
         tryM (captureNodeOutput spanKind result) (fun _ => ret tt) ;;
         setStatus OK None ;;
         ret result)
        (fun error =>
           recordException error ;;
           message <- lift (status_message error) ;;
           setStatus ERROR (Some message) ;;
           setAttribute "n8n.node.status" (VStr "error") ;;
           throw error))
     end_)%span.

(** The loop that copies the flattened node into [n8nNodeAttrs]: a
    string or a number as it is, any other value through a bare
    [JSON.stringify]. *)
Fixpoint addFlattenedNode (flattenedNode n8nNodeAttrs : list (string * value))
  : completion (list (string * value)) :=
  match flattenedNode with
  | [] => Normal n8nNodeAttrs
  | (key, value_) :: rest =>
      if (typeof value_ =? "string") || (typeof value_ =? "number")
      then addFlattenedNode rest (set_prop ("n8n.node." ++ key) value_ n8nNodeAttrs)
      else (json <- JSON_stringify value_ ;;
            addFlattenedNode rest (set_prop ("n8n.node." ++ key) json n8nNodeAttrs))%js
  end.

(** [{ ...n8nNodeAttrs }] spread into an object literal. *)
Definition spread (source target : list (string * value)) : list (string * value) :=
  fold_left (fun object kv => set_prop (fst kv) (snd kv) object) source target.

(** What the wrapper computes before it starts the span: the span kind,
    the name of the span and its attributes.  Nothing here is inside a
    [try]. *)
Definition nodeSpanStart (workflow executionData additionalData : value)
  : completion (string * value * list (string * value)) :=
  let node := nullish_or (get_opt executionData "node") (VStr "unknown") in
  let executionId := nodeExecutionId additionalData in
  let sessionId := deriveSessionId executionId in
  let userId := nullish_or (get_opt additionalData "userId") (VStr "unknown") in
  let workflowId := nullish_or (get_opt workflow "id") (VStr "unknown") in
  let nodeName := or_else (get_opt node "name") (VStr "unknown") in
  (flattenedNode <- flatten (nullish_or node (VObj [])) ;;
   n8nNodeAttrs <- addFlattenedNode flattenedNode
                     [ ("n8n.workflow.id", workflowId);
                       ("n8n.execution.id", executionId);
                       ("n8n.node.name", nodeName) ] ;;
   let spanKind :=
     Mapper.nodeSpanKind (MAP_OPENINFERENCE_SPAN_KINDS cfg)
                         (get_opt node "type") (VObj n8nNodeAttrs) in
   metadata <- safeJSONStringify
                 (VObj [ ("n8n.workflow.id", workflowId);
                         ("n8n.execution.id", executionId);
                         ("n8n.node.name", nodeName);
                         ("n8n.node.type",
                          or_else (get_opt node "type") (VStr "unknown")) ]) ;;
   let nodeAttributes :=
     set_prop "metadata" metadata
       (spread n8nNodeAttrs
          [ ("openinference.span.kind", VStr spanKind);
            ("session.id", sessionId);
            ("user.id", userId) ]) in
   let nodeSpanName :=
     if USE_NODE_NAME_SPAN cfg
     then or_else (get_opt node "name") (VStr "unknown-node")
     else if SPAN_KIND_IN_NODE_SPAN_NAME cfg && truthy (VStr spanKind)
          then VStr ("n8n.node." ++ spanKind ++ ".execute")
          else VStr "n8n.node.execute" in
   Normal (spanKind, nodeSpanName, nodeAttributes))%js.

(** The wrapper, an [async] function.  [this_defined] is the test
    [if (!this)].  The result is the settlement of the promise the wrapper
    returns and the span it started, if it started one: a throw before the
    span is started rejects the promise, and the wrapped method is not
    called. *)
Definition runNode (this_defined : bool) (workflow executionData additionalData : value)
           (originalRunNode : call_outcome)
  : completion value * option span :=
  if negb this_defined then (await originalRunNode, None)
  else
    match nodeSpanStart workflow executionData additionalData with
    | Throw e => (Throw e, None)
    | Normal (spanKind, nodeSpanName, nodeAttributes) =>
        let nodeSpan := startSpan nodeSpanName nodeAttributes in
        let (r, s) := runNodeInSpan spanKind executionData originalRunNode nodeSpan in
        (r, Some s)
    end.

End Wrappers.

(** Code that leaves the life cycle of the span alone: it neither ends it
    nor touches its status. *)
Definition keeps_lifecycle {A : Type} (m : spanM A) : Prop :=
  forall s, span_end_calls (snd (m s)) = span_end_calls s
            /\ span_status (snd (m s)) = span_status s.

End SpanManager.

(* ================================================================== *)
(** ** tracing/tracing.js: the initialization guard *)
(* ================================================================== *)

Module InitGuard.
Import JS Config.

(** The state of the process the module is loaded into, as far as the
    guard and the installation touch it. *)
Record process : Type := mkProcess {
  global_n8nTracingInitialized : value;   (* global.__n8nTracingInitialized *)
  process_env : env;                      (* process.env *)
  process_n8nOtelSDKStarted : value;      (* process.__n8nOtelSDKStarted *)
  n8n_core_loadable : bool;               (* require('n8n-core') succeeds *)
  processRun_wrappers : nat;  (* wrappers around WorkflowExecute.prototype.processRunExecutionData *)
  runNode_wrappers : nat;     (* wrappers around WorkflowExecute.prototype.runNode *)
  sdk_starts : nat            (* calls of sdk.start() *)
}.

(** [process.env.X === 'true'] *)
Definition env_is_true (x : option string) : bool :=
  match x with
  | Some s => s =? "true"
  | None => false
  end.

Definition ALREADY_INITIALIZED (p : process) : value :=
  or_else (or_else (global_n8nTracingInitialized p)
                   (VBool (env_is_true
                             (env_get "__N8N_TRACING_INITIALIZED" (process_env p)))))
          (process_n8nOtelSDKStarted p).

(** The three marks the first load leaves. *)
Definition mark_initialized (p : process) : process :=
  mkProcess (VBool true)
            (env_set "__N8N_TRACING_INITIALIZED" "true" (process_env p))
            (VBool true)
            (n8n_core_loadable p)
            (processRun_wrappers p) (runNode_wrappers p) (sdk_starts p).

(** [getEnv(key, defaultValue, required = true)] before the quotes are
    stripped: the value, or a throw when it is empty and required. *)
Definition getEnv_required (key : string) (x : option string) (defaultValue : string)
  : completion string :=
  let v := match x with Some s => s | None => defaultValue end in
  if negb (truthy (VStr v))
  then Throw (mkError "Error"
                ("Required environment variable " ++ key ++ " is not set"))
  else Normal v.

(** The Arize settings, read without being required. *)
Definition optional (e : env) (key defaultValue : string) : string :=
  match getEnv e key defaultValue false with
  | Normal v => v
  | Throw _ => defaultValue
  end.

(** The exporter [setupOpenTelemetryNodeSDK] asks [buildTraceExporter] for,
    from the environment the module is loaded in. *)
Definition traceExporter (e : env) : completion exporter :=
  buildTraceExporter (optional e "ARIZE_SPACE_ID" "")
                     (optional e "ARIZE_API_KEY" "")
                     (optional e "ARIZE_PROTOCOL" "grpc")
                     (optional e "ARIZE_ENDPOINT" "https://otlp.arize.com").

Definition with_env (e : env) (p : process) : process :=
  mkProcess (global_n8nTracingInitialized p) e (process_n8nOtelSDKStarted p)
            (n8n_core_loadable p)
            (processRun_wrappers p) (runNode_wrappers p) (sdk_starts p).

(** [setupN8nOpenTelemetry]: both methods are replaced inside one [try]
    whose first statement loads n8n-core; a failure is logged. *)
Definition setupN8nOpenTelemetry (p : process) : process :=
  if n8n_core_loadable p
  then mkProcess (global_n8nTracingInitialized p) (process_env p)
                 (process_n8nOtelSDKStarted p)
                 (n8n_core_loadable p)
                 (S (processRun_wrappers p)) (S (runNode_wrappers p)) (sdk_starts p)
  else p.

Definition sdk_start (p : process) : process :=
  mkProcess (global_n8nTracingInitialized p) (process_env p)
            (process_n8nOtelSDKStarted p)
            (n8n_core_loadable p)
            (processRun_wrappers p) (runNode_wrappers p) (S (sdk_starts p)).

(** [initializeTracing], with the tracing packages installed.  The log
    level is read first and is required; the Arize settings are read, from
    the environment as the module finds it; the OTEL variables are
    cleaned; the wrappers are installed; the exporter is built for the SDK,
    which the metadata of the gRPC library can refuse; and then the SDK is
    started. *)
Definition initializeTracing (p : process) : completion unit * process :=
  let e := process_env p in
  match getEnv_required "TRACING_LOG_LEVEL" (env_get "TRACING_LOG_LEVEL" e) "info" with
  | Throw err => (Throw err, p)
  | Normal _ =>
      let installed :=
        setupN8nOpenTelemetry (with_env (processOtelEnvironmentVariables e) p) in
      match traceExporter e with
      | Throw err => (Throw err, installed)
      | Normal _ => (Normal tt, sdk_start installed)
      end
  end.

(** One evaluation of the module's top level. *)
Definition load_module (p : process) : completion unit * process :=
  if truthy (ALREADY_INITIALIZED p) then (Normal tt, p)
  else initializeTracing (mark_initialized p).

(** [n] loads, one after the other; a load that throws does not stop the
    host from loading the module again. *)
Fixpoint load_times (n : nat) (p : process) : process :=
  match n with
  | O => p
  | S n' => load_times n' (snd (load_module p))
  end.

(** A process in which nothing has marked the initialization yet. *)
Definition fresh (p : process) : Prop :=
  truthy (ALREADY_INITIALIZED p) = false.

End InitGuard.

(* ================================================================== *)
(** ** The statements the helpers are compared with *)
(* ================================================================== *)

Module Stated.
Import JS Tracing InitGuard.

(** *** Segment sanitization *)

Definition all_space (s : string) : Prop :=
  forall c, In c (list_ascii_of_string s) -> is_space c = true.

Definition starts_clean (s : string) : Prop :=
  match s with
  | EmptyString => True
  | String c _ => is_space c = false
  end.

Fixpoint ends_clean (s : string) : Prop :=
  match s with
  | EmptyString => True
  | String c EmptyString => is_space c = false
  | String _ rest => ends_clean rest
  end.

(** [t] is [s] without its leading and trailing white space. *)
Definition Trimmed (s t : string) : Prop :=
  exists l r, s = l ++ t ++ r /\ all_space l /\ all_space r
              /\ starts_clean t /\ ends_clean t.

(** [t] is [s] with every maximal run of white space turned into one hyphen. *)
Inductive Collapsed : string -> string -> Prop :=
| Collapsed_empty : Collapsed "" ""
| Collapsed_char (c : ascii) (s t : string) :
    is_space c = false -> Collapsed s t -> Collapsed (String c s) (String c t)
| Collapsed_run (ws s t : string) :
    ws <> "" -> all_space ws -> starts_clean s -> Collapsed s t ->
    Collapsed (ws ++ s) (String "-" t).

(** [t] is [s] with every character outside [[A-Za-z0-9._-]] turned into a
    hyphen, the others kept in place. *)
Inductive Replaced : string -> string -> Prop :=
| Replaced_empty : Replaced "" ""
| Replaced_keep (c : ascii) (s t : string) :
    segment_char c = true -> Replaced s t -> Replaced (String c s) (String c t)
| Replaced_hyphen (c : ascii) (s t : string) :
    segment_char c = false -> Replaced s t -> Replaced (String c s) (String "-" t).

(** [t] is the first [n] characters of [s], or all of [s] when it is shorter. *)
Definition Capped (n : nat) (s t : string) : Prop :=
  exists rest, s = t ++ rest /\ String.length t = Nat.min n (String.length s).

(** The sanitization as the specification words it: characters outside the
    class are stripped, that is, removed. *)
Fixpoint strip_other_chars (s : string) : string :=
  match s with
  | EmptyString => EmptyString
  | String c rest =>
      if segment_char c then String c (strip_other_chars rest)
      else strip_other_chars rest
  end.

Definition sanitize_as_stated (value_ : value) (def : string) : string :=
  if negb (truthy value_) then def
  else
    let r := take 80 (strip_other_chars
                        (replace_space_runs false (trim (to_string value_)))) in
    if r =? "" then def else r.

(** *** Truncation *)

(** The marker appended to a truncated payload. *)
Definition truncation_marker (k : Z) : string :=
  "...[truncated " ++ number_to_string (Int k) ++ " chars]".

(** The truncation as the specification words it, for a cap [cap] and a
    payload [s]: unchanged up to the cap, the first [cap] characters and the
    marker beyond it, and never longer than the cap. *)
Definition truncation_as_stated (cap : nat) (s : string) : Prop :=
  let stored := truncateIO (Int (Z.of_nat cap)) (VStr s) in
  (String.length s <= cap -> stored = s)
  /\ (forall k, 0 < k -> String.length s = cap + k ->
        stored = take cap s ++ truncation_marker (Z.of_nat k))
  /\ String.length stored <= cap.

(** *** Input connections *)

(** A record is the object an item carries under [json]; a slot is an
    ordered sequence of records, or [null]; a connections structure maps a
    connection name to its slots. *)
Definition record : Type := list (string * value).
Definition slot : Type := option (list record).
Definition connections : Type := list (string * list slot).

Definition encode_item (r : record) : value := VObj [("json", VObj r)].

Definition encode_slot (sl : slot) : value :=
  match sl with
  | Some items => VArr (map encode_item items)
  | None => VNull
  end.

Definition encode_connections (c : connections) : value :=
  VObj (map (fun e => (fst e, VArr (map encode_slot (snd e)))) c).

(** The [executionData] whose [data] is the structure. *)
Definition executionData_of (c : connections) : value :=
  VObj [("data", encode_connections c)].

Definition slot_records (sl : slot) : list record :=
  match sl with Some items => items | None => [] end.

Definition records_of_slots (slots : list slot) : list record :=
  flat_map slot_records slots.

(** Every record of every connection and slot, in order. *)
Definition all_records (c : connections) : list record :=
  flat_map (fun e => records_of_slots (snd e)) c.

(** The slots of the connection named [name]: those of its first binding. *)
Fixpoint slots_of (name : string) (c : connections) : list slot :=
  match c with
  | [] => []
  | (n, slots) :: rest => if n =? name then slots else slots_of name rest
  end.

(** One record alone is returned as it is, several as a sequence, none as
    no value. *)
Definition unwrap_single (records : list record) : value :=
  match records with
  | [] => VUndefined
  | [single] => VObj single
  | _ => VArr (map VObj records)
  end.

(** The input extraction as the specification words it: every record of
    every connection is collected. *)
Definition collects_every_connection (c : connections) : Prop :=
  extractNodeInputFromExecutionData (executionData_of c)
  = Normal (unwrap_single (all_records c)).

(** *** The diagnostic record *)

(** The record as the specification words it: the message of the error
    under [_error]. *)
Definition message_record (e : error) : value :=
  VObj [("_error", VStr (err_message e))].

(** An extractor whose [try] block is [body] and whose result is [result]
    reports a caught error by its message. *)
Definition reports_message (body result : completion value) : Prop :=
  forall e : error, body = Throw e -> result = Normal (message_record e).

(** *** The initialization guard *)

(** The installation as the specification words it: however often the
    module is loaded into the process, once or more, each of the two
    wrappers is installed exactly once. *)
Definition installs_exactly_once (p : process) : Prop :=
  forall n,
    processRun_wrappers (load_times (S n) p) = S (processRun_wrappers p)
    /\ runNode_wrappers (load_times (S n) p) = S (runNode_wrappers p).

End Stated.

(* ================================================================== *)
(** ** tracing/tracing.js: the parent span, and shapes used in the statements *)
(* ================================================================== *)

Module ParentSpan.
Import JS Tracing Config.

(** [span.updateName(name)]; ignored once the span has ended. *)
Definition span_updateName (name : value) (s : span) : span :=
  if ended s then s
  else mkSpan name (span_attributes s) (span_status s)
              (span_exceptions s) (span_end_calls s).

(** [/^(GET|POST|PUT|PATCH|DELETE|HEAD|OPTIONS)$/i.test(name)] *)
Definition nameLooksHttpVerb (name : string) : bool :=
  existsb (fun verb =>
             (String.length name =? String.length verb)%nat
             && match_here true (lits verb) name)
          ["GET"; "POST"; "PUT"; "PATCH"; "DELETE"; "HEAD"; "OPTIONS"].

(** The loop that copies the workflow attributes onto the root span: only
    a key the span does not define yet is set. *)
Definition copy_missing (workflowAttributes : list (string * value)) (s : span) : span :=
  fold_left (fun p kv =>
               match lookup (fst kv) (span_attributes p) with
               | VUndefined => span_setAttribute (fst kv) (snd kv) p
               | _ => p
               end)
            workflowAttributes s.

(** The block of [processRunExecutionData] that renames the active parent
    span when it is the span of an HTTP request.  [None] is no active
    span. *)
Definition renameHttpParent (ONLY_WORKFLOW_SPANS : bool) (cfg : naming)
           (workflowAttributes : list (string * value))
           (workflowId workflowName executionId : value)
           (activeParent : option span) : option span :=
  match activeParent with
  | None => None
  | Some parent =>
      if negb ONLY_WORKFLOW_SPANS then
        let httpMethodAttr :=
          or_else (lookup "http.method" (span_attributes parent))
                  (lookup "http.request.method" (span_attributes parent)) in
        if truthy httpMethodAttr
           || nameLooksHttpVerb (to_string (or_else (span_name parent) (VStr "")))
        then
          let originalName := span_name parent in
          let newRootName :=
            if DYNAMIC_WORKFLOW_TRACE_NAME cfg
            then sanitizeSegment workflowId "wf" ++ "-"
                 ++ sanitizeSegment workflowName "workflow" ++ "-"
                 ++ sanitizeSegment executionId "exec"
            else "n8n.workflow.request" in
          Some (span_setAttribute "n8n.trace.naming"
                  (VStr (if DYNAMIC_WORKFLOW_TRACE_NAME cfg
                         then "dynamic" else "constant"))
                  (span_setAttribute "n8n.http.original_name" originalName
                     (copy_missing workflowAttributes
                        (span_updateName (VStr newRootName) parent))))
        else Some parent
      else Some parent
  end.

End ParentSpan.

Module Shapes.
Import JS Tracing SpanManager.

(** A string made of characters of the class [[A-Za-z0-9._-]] only. *)
Definition clean_segment (s : string) : Prop :=
  forall c, In c (list_ascii_of_string s) -> segment_char c = true.

(** The values a [for ... of] loop accepts. *)
Definition iterable (v : value) : bool :=
  match v with
  | VArr _ | VStr _ => true
  | _ => false
  end.

(** The error a [for ... of] over a connection that is not iterable throws. *)
Definition connection_not_iterable : error :=
  mkError "TypeError" "connection is not iterable".

(** The attribute keys the capture of node input and output writes. *)
Definition NODE_IO_KEYS : list string :=
  [ "input.value"; "input.mime_type";
    "llm.input_messages.0.message.role"; "llm.input_messages.0.message.content";
    "output.value"; "output.mime_type";
    "llm.output_messages.0.message.role"; "llm.output_messages.0.message.content" ].

(** The attribute keys the workflow wrapper writes when the run settles. *)
Definition WORKFLOW_IO_KEYS : list string :=
  [ "output.value"; "output.mime_type"; "input.value"; "input.mime_type" ].

(** A span that holds no more attributes than the limit allows. *)
Definition within_limit (s : span) : Prop :=
  List.length (span_attributes s) <= attributeCountLimit.

(** [s'] is [s] but for the attributes under [keys], and is within the
    limit when [s] is. *)
Definition same_but (keys : list string) (s s' : span) : Prop :=
  span_name s' = span_name s
  /\ span_status s' = span_status s
  /\ span_exceptions s' = span_exceptions s
  /\ span_end_calls s' = span_end_calls s
  /\ (forall k, ~ In k keys ->
        lookup k (span_attributes s') = lookup k (span_attributes s))
  /\ (within_limit s -> within_limit s').

(** An entry a span with room takes as it is: its key is not empty and
    its value is an attribute value other than [null] and [undefined]. *)
Definition attribute_entry (kv : string * value) : bool :=
  negb (fst kv =? "") && negb (nullish (snd kv)) && isAttributeValue (snd kv).

(** The exceptions a span that had none holds after [recordException]. *)
Definition recorded (x : thrown) : list thrown :=
  if exception_recorded x then [x] else [].

(** Code that does nothing to a span but set attributes under [keys]. *)
Definition only_sets {A : Type} (keys : list string) (m : spanM A) : Prop :=
  forall s, same_but keys s (snd (m s)).

(** The span as the handlers of the promise chain mark it, before any
    capture. *)
Definition settled_span (p : promise) (s0 : span) : span :=
  match p with
  | Fulfilled result =>
      let err := get_opt (get_opt (get_opt result "data") "resultData") "error" in
      if truthy err
      then span_setStatus ERROR
             (Some (to_string (or_else (get err "message") err)))
             (span_recordException (ThrownValue err) s0)
      else span_setStatus OK None s0
  | Rejected error =>
      match status_message error with
      | Normal message =>
          span_setStatus ERROR (Some message) (span_recordException error s0)
      | Throw _ => span_recordException error s0
      end
  end.

End Shapes.

(* ================================================================== *)
(** ** Properties of the span-kind mapper *)
(* ================================================================== *)

Import JS Mapper.

Lemma truthy_VStr (s : string) : truthy (VStr s) = negb (s =? "").
Proof. reflexivity. Qed.

Lemma has_In (set : list string) (s : string) : has set s = true <-> In s set.
Proof.
  unfold has. rewrite existsb_exists. split.
  - intros [x [Hin Heq]]. apply String.eqb_eq in Heq. now subst.
  - intros Hin. exists s. split; [assumption | apply String.eqb_refl].
Qed.

Lemma exact_lookup_In (sets : list (string * list string)) (s k : string) :
  exact_lookup sets s = Some k -> exists set, In (k, set) sets /\ In s set.
Proof.
  induction sets as [| [k' set'] rest IH]; simpl; [discriminate |].
  destruct (has set' s) eqn:Hhas.
  - intros [= <-]. exists set'. split; [now left | now apply has_In].
  - intros H. destruct (IH H) as [set [Hin Hs]]. exists set. split; [now right | assumption].
Qed.

Lemma first_rule_In (rules : list rule) (lower k : string) :
  first_rule rules lower = Some k ->
  exists r, In r rules /\ kind r = k /\ test (pattern r) lower = true.
Proof.
  induction rules as [| r rest IH]; simpl; [discriminate |].
  destruct (test (pattern r) lower) eqn:Ht.
  - intros [= <-]. exists r. auto.
  - intros H. destruct (IH H) as [r' [Hin Hr']]. exists r'. split; [now right | assumption].
Qed.

Lemma categoryFallback_kind (type : string) (category : value) (k : string) :
  categoryFallback type category = Some k -> k = "CHAIN" \/ k = "TOOL".
Proof.
  unfold categoryFallback. destruct category; try discriminate.
  repeat match goal with
         | |- context [if ?b then _ else _] => destruct b
         end; intros [= <-]; auto.
Qed.

(** Unfolding of the function on a string argument. *)
Lemma mapNodeToSpanKind_string (s : string) (attrs : value) :
  mapNodeToSpanKind (VStr s) attrs =
  if s =? "" then None
  else match exact_lookup EXACT_SETS s with
       | Some k => Some k
       | None =>
           match first_rule REGEX_RULES (toLowerCase s) with
           | Some k => Some k
           | None =>
               categoryFallback s
                 (or_else (get_opt attrs "n8n.node.category")
                          (get_opt attrs "n8n.node.category_raw"))
           end
       end.
Proof.
  unfold mapNodeToSpanKind, mapNodeToSpanKindWith.
  rewrite truthy_VStr. cbn [typeof].
  destruct (s =? "") eqn:Hs; [reflexivity |].
  cbn [negb orb]. change ("string" =? "string") with true. cbn [negb].
  destruct (exact_lookup EXACT_SETS s); [reflexivity |].
  destruct (first_rule REGEX_RULES (toLowerCase s)); [reflexivity |].
  destruct (categoryFallback s _) as [k |] eqn:Hk; [| reflexivity].
  destruct (categoryFallback_kind _ _ _ Hk) as [-> | ->]; reflexivity.
Qed.


Lemma exact_kinds_valid :
  forallb (fun e => has SPAN_KINDS (fst e)) EXACT_SETS = true.
Proof. vm_compute. reflexivity. Qed.

Lemma rule_kinds_valid :
  forallb (fun r => has SPAN_KINDS (kind r)) REGEX_RULES = true.
Proof. vm_compute. reflexivity. Qed.

Lemma exact_entries_resolve :
  forallb (fun e => forallb (fun s =>
             negb (s =? "") &&
             match exact_lookup EXACT_SETS s with
             | Some k => k =? fst e
             | None => false
             end) (snd e)) EXACT_SETS = true.
Proof. vm_compute. reflexivity. Qed.

(** C1.  An identifier outside the exact-match table whose lower-cased
    form matches the trigger pattern and the LLM pattern is classified by
    the first rule of the ordered list: the pattern tier answers CHAIN, and
    so does [mapNodeToSpanKind], never LLM. *)
Theorem trigger_rule_precedes_llm (s : string) (attrs : value) :
  exact_lookup EXACT_SETS s = None ->
  test TRIGGER_PATTERN (toLowerCase s) = true ->
  test LLM_PATTERN (toLowerCase s) = true ->
  first_rule REGEX_RULES (toLowerCase s) = Some "CHAIN"
  /\ mapNodeToSpanKind (VStr s) attrs = Some "CHAIN"
  /\ mapNodeToSpanKind (VStr s) attrs <> Some "LLM".
Proof.
  intros Hexact Htrig _.
  assert (Hne : (s =? "") = false).
  { destruct s; [discriminate Htrig | reflexivity]. }
  assert (Hfirst : first_rule REGEX_RULES (toLowerCase s) = Some "CHAIN").
  { change REGEX_RULES with (mkRule "CHAIN" TRIGGER_PATTERN :: tl REGEX_RULES).
    cbn [first_rule pattern kind]. now rewrite Htrig. }
  assert (Hmap : mapNodeToSpanKind (VStr s) attrs = Some "CHAIN").
  { rewrite mapNodeToSpanKind_string, Hne, Hexact, Hfirst. reflexivity. }
  repeat split; try assumption.
  rewrite Hmap. discriminate.
Qed.

Lemma trigger_rule_precedes_llm_witness :
  first_rule REGEX_RULES (toLowerCase "chatTrigger") = Some "CHAIN"
  /\ mapNodeToSpanKind (VStr "chatTrigger") VUndefined = Some "CHAIN"
  /\ mapNodeToSpanKind (VStr "chatTrigger") VUndefined <> Some "LLM".
Proof.
  apply (trigger_rule_precedes_llm "chatTrigger" VUndefined); reflexivity.
Defined.

Lemma typeof_string_inv (v : value) :
  (typeof v =? "string") = true -> exists s, v = VStr s.
Proof. destruct v; try discriminate. intros _. now exists s. Qed.

Lemma non_string_no_match (nodeType attrs : value) :
  (typeof nodeType =? "string") = false ->
  forall exact_sets regex_rules fallback,
    mapNodeToSpanKindWith exact_sets regex_rules fallback nodeType attrs = None.
Proof.
  intros Hty exact_sets regex_rules fallback.
  unfold mapNodeToSpanKindWith. rewrite Hty. cbn [negb].
  now rewrite orb_true_r.
Qed.

(** C3.  [mapNodeToSpanKind] is a function of its two arguments that
    returns on every input, and what it returns is no match or one of the
    ten span kinds; a step type that is not a string gives no match whatever
    the three tiers hold. *)
Theorem mapNodeToSpanKind_total (nodeType attrs : value) :
  (mapNodeToSpanKind nodeType attrs = None
   \/ exists k, mapNodeToSpanKind nodeType attrs = Some k /\ In k SPAN_KINDS)
  /\ (typeof nodeType <> "string" ->
      forall exact_sets regex_rules fallback,
        mapNodeToSpanKindWith exact_sets regex_rules fallback nodeType attrs = None).
Proof.
  split.
  - destruct (typeof nodeType =? "string") eqn:Hty.
    2: { left. now apply non_string_no_match. }
    destruct (typeof_string_inv _ Hty) as [s ->].
    rewrite mapNodeToSpanKind_string.
    destruct (s =? ""); [now left |].
    destruct (exact_lookup EXACT_SETS s) as [k |] eqn:He.
    { right. exists k. split; [reflexivity |].
      destruct (exact_lookup_In _ _ _ He) as [set [Hin _]].
      pose proof exact_kinds_valid as Hv. rewrite forallb_forall in Hv.
      apply has_In. exact (Hv _ Hin). }
    destruct (first_rule REGEX_RULES (toLowerCase s)) as [k |] eqn:Hr.
    { right. exists k. split; [reflexivity |].
      destruct (first_rule_In _ _ _ Hr) as [r [Hin [<- _]]].
      pose proof rule_kinds_valid as Hv. rewrite forallb_forall in Hv.
      apply has_In. exact (Hv _ Hin). }
    destruct (categoryFallback s _) as [k |] eqn:Hc; [| now left].
    right. exists k. split; [reflexivity |].
    destruct (categoryFallback_kind _ _ _ Hc) as [-> | ->]; simpl; auto 10.
  - intros Hty. apply non_string_no_match.
    apply String.eqb_neq. exact Hty.
Qed.

Lemma mapNodeToSpanKind_total_witness :
  mapNodeToSpanKindWith [] [] (fun _ _ => Some "LLM") (VNum (Int 7)) VUndefined = None.
Proof.
  apply (mapNodeToSpanKind_total (VNum (Int 7)) VUndefined).
  discriminate.
Defined.

(** C4.  An identifier listed in a set of the exact-match table is given
    the kind of that set, whatever the pattern tier would say. *)
Theorem exact_match_wins (spanKind : string) (set : list string) (s : string)
        (attrs : value) :
  In (spanKind, set) EXACT_SETS -> In s set ->
  mapNodeToSpanKind (VStr s) attrs = Some spanKind.
Proof.
  intros Hset Hs.
  pose proof exact_entries_resolve as Hall.
  rewrite forallb_forall in Hall. specialize (Hall _ Hset).
  rewrite forallb_forall in Hall. specialize (Hall _ Hs).
  cbn [fst snd] in Hall.
  apply andb_true_iff in Hall. destruct Hall as [Hne Hk].
  apply negb_true_iff in Hne.
  rewrite mapNodeToSpanKind_string, Hne.
  destruct (exact_lookup EXACT_SETS s) as [k |]; [| discriminate].
  apply String.eqb_eq in Hk. now subst.
Qed.

Lemma exact_match_wins_witness :
  mapNodeToSpanKind (VStr "ToolWorkflow") VUndefined = Some "CHAIN"
  /\ first_rule REGEX_RULES (toLowerCase "ToolWorkflow") = Some "TOOL".
Proof.
  split; [| reflexivity].
  apply (exact_match_wins "CHAIN"
           ["ChainLlm"; "ChainRetrievalQa"; "ChainSummarization"; "ToolWorkflow";
            "ToolExecutor"; "ModelSelector"; "OutputParserStructured";
            "OutputParserItemList"; "TextSplitterCharacterTextSplitter";
            "TextSplitterRecursiveCharacterTextSplitter";
            "TextSplitterTokenSplitter"; "ToolThink"] "ToolWorkflow" VUndefined).
  - simpl. auto 10.
  - simpl. auto 10.
Defined.

(** C10.  The empty step type gives no match whatever the three tiers
    hold; with the category Core Nodes the fallback, had it been reached,
    would have said TOOL, and the caller ends with CHAIN. *)
Theorem empty_type_short_circuits (attrs : value) :
  (forall exact_sets regex_rules fallback,
     mapNodeToSpanKindWith exact_sets regex_rules fallback (VStr "") attrs = None)
  /\ mapNodeToSpanKind (VStr "") (VObj [("n8n.node.category", VStr "Core Nodes")]) = None
  /\ categoryFallback "" (VStr "Core Nodes") = Some "TOOL"
  /\ nodeSpanKind true (VStr "") (VObj [("n8n.node.category", VStr "Core Nodes")]) = "CHAIN".
Proof.
  split; [intros exact_sets regex_rules fallback; reflexivity |].
  split; [reflexivity |].
  split; reflexivity.
Qed.

Lemma empty_type_short_circuits_witness :
  mapNodeToSpanKind (VStr "") (VObj [("n8n.node.category", VStr "Core Nodes")]) = None
  /\ categoryFallback "" (VStr "Core Nodes") = Some "TOOL".
Proof.
  pose proof (empty_type_short_circuits VUndefined) as [_ [Hnone [Htool _]]].
  split; assumption.
Defined.

Example map_chatTrigger :
  mapNodeToSpanKind (VStr "chatTrigger") VUndefined = Some "CHAIN".
Proof. reflexivity. Qed.

Example map_ToolWorkflow :
  mapNodeToSpanKind (VStr "ToolWorkflow") VUndefined = Some "CHAIN"
  /\ first_rule REGEX_RULES (toLowerCase "ToolWorkflow") = Some "TOOL".
Proof. split; reflexivity. Qed.

Example map_OpenAi : mapNodeToSpanKind (VStr "OpenAi") VUndefined = Some "LLM".
Proof. reflexivity. Qed.

Example map_unknown :
  mapNodeToSpanKind (VStr "UnknownCustomNode123") VUndefined = None.
Proof. reflexivity. Qed.

Example map_lmFoo : mapNodeToSpanKind (VStr "LmFoo") VUndefined = Some "LLM"
  /\ mapNodeToSpanKind (VStr "Film") VUndefined = None
  /\ mapNodeToSpanKind (VStr "HttpRequest") (VObj [("n8n.node.category", VStr "Core Nodes")]) = Some "TOOL"
  /\ to_string (VArr [VNum (Int (-12)); VNull; VStr "a"; VArr [VBool true; VNum NaN]]) = "-12,,a,true,NaN".
Proof. repeat split; reflexivity. Qed.

(* ================================================================== *)
(** ** Properties of the naming and payload helpers *)
(* ================================================================== *)

Import Tracing Stated.

(* ------------------------------------------------------------------ *)
(** *** Segment sanitization *)

Lemma all_space_empty : all_space "".
Proof. intros c []. Qed.

Lemma all_space_cons (c : ascii) (s : string) :
  is_space c = true -> all_space s -> all_space (String c s).
Proof.
  intros Hc Hs x [<- | Hin]; [assumption | now apply Hs].
Qed.

Lemma trimStart_split (s : string) :
  exists l, s = l ++ trimStart s /\ all_space l /\ starts_clean (trimStart s).
Proof.
  induction s as [| c rest IH]; simpl.
  - exists "". repeat split. apply all_space_empty.
  - destruct (is_space c) eqn:Hc.
    + destruct IH as [l [Heq [Hl Hclean]]].
      exists (String c l). simpl. rewrite <- Heq.
      repeat split; [now apply all_space_cons | assumption].
    + exists "". simpl. repeat split; [apply all_space_empty | assumption].
Qed.

Lemma trimEnd_split (s : string) :
  exists r, s = trimEnd s ++ r /\ all_space r /\ ends_clean (trimEnd s).
Proof.
  induction s as [| c rest IH]; simpl.
  - exists "". repeat split. apply all_space_empty.
  - destruct IH as [r [Heq [Hr Hclean]]].
    destruct (is_space c) eqn:Hc; simpl.
    + destruct (trimEnd rest) as [| c' rest'] eqn:Ht; simpl.
      * exists (String c r). simpl in Heq. subst rest.
        split; [reflexivity | split; [now apply all_space_cons | exact I]].
      * exists r. simpl in Heq. rewrite Heq at 1.
        split; [reflexivity | split; assumption].
    + exists r. rewrite Heq at 1.
      split; [reflexivity | split; [assumption |]].
      destruct (trimEnd rest); [assumption | exact Hclean].
Qed.

Lemma trimEnd_starts_clean (s : string) :
  starts_clean s -> starts_clean (trimEnd s).
Proof.
  destruct s as [| c rest]; simpl; [trivial |].
  intros Hc. rewrite Hc. simpl. assumption.
Qed.

Lemma trim_Trimmed (s : string) : Trimmed s (trim s).
Proof.
  unfold Trimmed, trim.
  destruct (trimStart_split s) as [l [Hl [Hsp Hclean]]].
  destruct (trimEnd_split (trimStart s)) as [r [Hr [Hspr Hend]]].
  exists l, r. repeat split; try assumption.
  - rewrite <- Hr. exact Hl.
  - now apply trimEnd_starts_clean.
Qed.

Lemma replace_space_runs_in_run (s : string) :
  replace_space_runs true s = replace_space_runs false (trimStart s).
Proof.
  induction s as [| c rest IH]; simpl; [reflexivity |].
  destruct (is_space c) eqn:Hc; [exact IH |].
  simpl. now rewrite Hc.
Qed.

Lemma trimStart_length (s : string) :
  String.length (trimStart s) <= String.length s.
Proof.
  induction s as [| c rest IH]; simpl; [lia |].
  destruct (is_space c); simpl; lia.
Qed.

(** Collapsing follows the shape of the input: a white-space run and what
    comes after it, or one other character. *)
Lemma replace_space_runs_Collapsed_bounded (n : nat) :
  forall s, String.length s <= n -> Collapsed s (replace_space_runs false s).
Proof.
  induction n as [| n IH]; intros s Hlen.
  - destruct s; [constructor | simpl in Hlen; lia].
  - destruct s as [| c rest]; [constructor |].
    simpl in Hlen. simpl.
    destruct (is_space c) eqn:Hc.
    + rewrite replace_space_runs_in_run.
      destruct (trimStart_split rest) as [l [Heq [Hl Hclean]]].
      replace (String c rest) with (String c l ++ trimStart rest)
        by (simpl; now rewrite <- Heq).
      apply Collapsed_run.
      * discriminate.
      * now apply all_space_cons.
      * assumption.
      * apply IH. pose proof (trimStart_length rest). lia.
    + apply Collapsed_char; [assumption |]. apply IH. lia.
Qed.

Lemma replace_space_runs_Collapsed (s : string) :
  Collapsed s (replace_space_runs false s).
Proof. exact (replace_space_runs_Collapsed_bounded (String.length s) s (le_n _)). Qed.

Lemma replace_other_chars_Replaced (s : string) :
  Replaced s (replace_other_chars s).
Proof.
  induction s as [| c rest IH]; simpl; [constructor |].
  destruct (segment_char c) eqn:Hc; now constructor.
Qed.

Lemma take_Capped (n : nat) (s : string) : Capped n s (take n s).
Proof.
  unfold Capped. revert s.
  induction n as [| n IH]; intros s.
  - exists s. split; reflexivity.
  - destruct s as [| c rest]; simpl.
    + exists "". split; reflexivity.
    + destruct (IH rest) as [r [Heq Hlen]].
      exists r. split; [now rewrite <- Heq | now rewrite Hlen].
Qed.

Lemma slice0_take (s : string) (n : nat) :
  slice0 s (Int (Z.of_nat n)) = take (Nat.min n (String.length s)) s.
Proof.
  unfold slice0.
  assert (H : (Z.of_nat n <? 0)%Z = false) by (apply Z.ltb_ge; lia).
  rewrite H. f_equal. lia.
Qed.

Lemma take_min (n : nat) (s : string) :
  take (Nat.min n (String.length s)) s = take n s.
Proof.
  revert s. induction n as [| n IH]; intros s; [reflexivity |].
  destruct s as [| c rest]; simpl; [reflexivity |]. now rewrite IH.
Qed.

Lemma replace_space_runs_run (ws s : string) :
  ws <> "" -> all_space ws -> starts_clean s ->
  replace_space_runs false (ws ++ s) = String "-" (replace_space_runs false s).
Proof.
  intros Hne Hws Hs.
  destruct ws as [| c ws]; [congruence |]. clear Hne.
  simpl. rewrite (Hws c (or_introl eq_refl)). f_equal.
  assert (Hrest : all_space ws) by (intros x Hx; apply Hws; now right).
  clear Hws. induction ws as [| d ws IH]; simpl.
  - destruct s as [| x s]; [reflexivity |].
    simpl in Hs. simpl. now rewrite Hs.
  - rewrite (Hrest d (or_introl eq_refl)). apply IH.
    intros x Hx. apply Hrest. now right.
Qed.

(** The relations determine the code's stages. *)
Lemma Collapsed_unique (s t : string) :
  Collapsed s t -> t = replace_space_runs false s.
Proof.
  induction 1 as [| c s t Hc _ IH | ws s t Hne Hws Hs _ IH].
  - reflexivity.
  - simpl. rewrite Hc. now f_equal.
  - rewrite replace_space_runs_run by assumption. now f_equal.
Qed.

Lemma Replaced_unique (s t : string) :
  Replaced s t -> t = replace_other_chars s.
Proof.
  induction 1 as [| c s t Hc _ IH | c s t Hc _ IH]; simpl;
    [reflexivity | rewrite Hc | rewrite Hc]; now f_equal.
Qed.

(** The characters a replaced string is made of. *)
Lemma Replaced_chars (s t : string) :
  Replaced s t -> forall c, In c (list_ascii_of_string t) -> segment_char c = true.
Proof.
  induction 1 as [| c s t Hc _ IH | c s t Hc _ IH]; intros x Hin.
  - destruct Hin.
  - destruct Hin as [<- | Hin]; [assumption | now apply IH].
  - destruct Hin as [<- | Hin]; [reflexivity | now apply IH].
Qed.

Lemma Replaced_length (s t : string) :
  Replaced s t -> String.length t = String.length s.
Proof. induction 1; simpl; congruence. Qed.

(** C8 (amended).  A falsy value gives the default.  Any other value is
    turned into a string and trimmed, every run of white space becomes one
    hyphen, every character outside [[A-Za-z0-9._-]] is replaced by a hyphen
    (it is not removed), the result is cut to 80 characters, and the default
    stands in when that is empty. *)
Theorem sanitizeSegment_replaces (value_ : value) (def : string) :
  (truthy value_ = false -> sanitizeSegment value_ def = def)
  /\ (truthy value_ = true ->
      exists trimmed collapsed replaced capped,
        Trimmed (to_string value_) trimmed
        /\ Collapsed trimmed collapsed
        /\ Replaced collapsed replaced
        /\ Capped 80 replaced capped
        /\ sanitizeSegment value_ def = (if capped =? "" then def else capped)).
Proof.
  unfold sanitizeSegment. split; intros Hv; rewrite Hv; cbn [negb]; [reflexivity |].
  exists (trim (to_string value_)),
         (replace_space_runs false (trim (to_string value_))),
         (replace_other_chars (replace_space_runs false (trim (to_string value_)))).
  set (replaced := replace_other_chars _).
  exists (take 80 replaced).
  split; [apply trim_Trimmed |].
  split; [apply replace_space_runs_Collapsed |].
  split; [apply replace_other_chars_Replaced |].
  split; [apply take_Capped |].
  change (Int 80) with (Int (Z.of_nat 80)).
  rewrite slice0_take, take_min, truthy_VStr.
  now destruct (take 80 replaced =? "").
Qed.

Lemma sanitizeSegment_replaces_witness :
  sanitizeSegment VNull "wf" = "wf"
  /\ exists trimmed collapsed replaced capped,
       Trimmed " a  b@c " trimmed
       /\ Collapsed trimmed collapsed
       /\ Replaced collapsed replaced
       /\ Capped 80 replaced capped
       /\ sanitizeSegment (VStr " a  b@c ") "unknown"
          = (if capped =? "" then "unknown" else capped).
Proof.
  split.
  - apply (sanitizeSegment_replaces VNull "wf"). reflexivity.
  - apply (sanitizeSegment_replaces (VStr " a  b@c ") "unknown"). reflexivity.
Defined.

Example sanitizeSegment_examples :
  sanitizeSegment (VStr " a  b@c ") "unknown" = "a-b-c"
  /\ sanitizeSegment (VStr "  My  Work flow#1 ") "unknown" = "My-Work-flow-1"
  /\ sanitizeSegment (VNum (Int 0)) "exec" = "exec"
  /\ sanitizeSegment (VNum (Int 42)) "exec" = "42".
Proof. repeat split. Qed.

(** C8, as stated, fails: a character outside the class is not stripped but
    turned into a hyphen, so a value made of such characters is not given
    the default either. *)
Lemma sanitizeSegment_strip_counterexample :
  sanitizeSegment (VStr "a@b") "unknown" = "a-b"
  /\ sanitize_as_stated (VStr "a@b") "unknown" = "ab"
  /\ sanitizeSegment (VStr "a@b") "unknown" <> sanitize_as_stated (VStr "a@b") "unknown"
  /\ sanitizeSegment (VStr "@@@") "unknown" = "---"
  /\ sanitize_as_stated (VStr "@@@") "unknown" = "unknown".
Proof.
  split; [reflexivity |]. split; [reflexivity |].
  split; [discriminate |]. split; reflexivity.
Qed.

(* ------------------------------------------------------------------ *)
(** *** Truncation *)

Lemma take_length (n : nat) (s : string) :
  String.length (take n s) = Nat.min n (String.length s).
Proof.
  revert s. induction n as [| n IH]; intros s; [reflexivity |].
  destruct s as [| c rest]; simpl; [reflexivity |]. now rewrite IH.
Qed.

Lemma append_length (s t : string) :
  String.length (s ++ t) = String.length s + String.length t.
Proof. induction s as [| c s IH]; simpl; [reflexivity | now rewrite IH]. Qed.

Lemma truncation_marker_length (k : Z) :
  String.length (truncation_marker k)
  = 21 + String.length (number_to_string (Int k)).
Proof.
  unfold truncation_marker. rewrite !append_length. simpl. lia.
Qed.

(** [truncateIO] on a string, with a cap that is a number of characters. *)
Lemma truncateIO_string (cap : nat) (s : string) :
  truncateIO (Int (Z.of_nat cap)) (VStr s) =
  if (String.length s <=? cap)%nat then s
  else take cap s
       ++ truncation_marker (Z.of_nat (String.length s) - Z.of_nat cap).
Proof.
  unfold truncateIO. cbn [typeof]. change ("string" =? "string") with true.
  cbn iota. unfold num_le, num_sub.
  destruct (Nat.leb_spec (String.length s) cap) as [Hle | Hgt].
  - assert (H : (Z.of_nat (String.length s) <=? Z.of_nat cap)%Z = true)
      by (apply Z.leb_le; lia).
    now rewrite H.
  - assert (H : (Z.of_nat (String.length s) <=? Z.of_nat cap)%Z = false)
      by (apply Z.leb_gt; lia).
    rewrite H, slice0_take, take_min. reflexivity.
Qed.

(** C6 (amended).  A payload of at most [cap] characters is stored
    unchanged.  A payload of [cap + k] characters, [k > 0], is stored as its
    first [cap] characters followed by the marker that states [k]; the
    stored string is longer than the cap by the marker, 21 characters and
    the digits of [k]. *)
Theorem truncateIO_appends_marker (cap : nat) (s : string) :
  let stored := truncateIO (Int (Z.of_nat cap)) (VStr s) in
  (String.length s <= cap -> stored = s)
  /\ (forall k, 0 < k -> String.length s = cap + k ->
        stored = take cap s ++ truncation_marker (Z.of_nat k)
        /\ String.length (take cap s) = cap
        /\ String.length stored
           = cap + 21 + String.length (number_to_string (Int (Z.of_nat k)))).
Proof.
  cbv zeta. rewrite truncateIO_string. split.
  - intros Hle. apply Nat.leb_le in Hle. now rewrite Hle.
  - intros k Hk Hlen.
    assert (Hgt : (String.length s <=? cap)%nat = false) by (apply Nat.leb_gt; lia).
    rewrite Hgt.
    replace (Z.of_nat (String.length s) - Z.of_nat cap)%Z with (Z.of_nat k) by lia.
    assert (Htake : String.length (take cap s) = cap)
      by (rewrite take_length; lia).
    split; [reflexivity |]. split; [assumption |].
    rewrite append_length, truncation_marker_length, Htake. lia.
Qed.

Lemma truncateIO_appends_marker_witness :
  truncateIO (Int 3) (VStr "abcdef") = "abc...[truncated 3 chars]"
  /\ truncateIO (Int 3) (VStr "abc") = "abc".
Proof.
  split.
  - apply (truncateIO_appends_marker 3 "abcdef") with (k := 3); [lia | reflexivity].
  - apply (truncateIO_appends_marker 3 "abc"). simpl. lia.
Defined.

(** C6, as stated, fails: the marker comes on top of the [cap] characters
    that are kept, so the stored payload is longer than the cap. *)
Lemma truncateIO_length_counterexample :
  String.length (truncateIO (Int 3) (VStr "abcdef")) = 25
  /\ ~ truncation_as_stated 3 "abcdef".
Proof.
  split; [reflexivity |].
  intros [_ [_ Hlen]]. vm_compute in Hlen. lia.
Qed.

(* ------------------------------------------------------------------ *)
(** *** The payload extractors *)

(** A [try] whose handler returns normally never throws. *)
Lemma try_catch_normal {A : Type} (body : completion A) (h : thrown -> A) :
  exists r, try_catch body (fun e => Normal (h e)) = Normal r.
Proof. destruct body as [a | e]; simpl; eauto. Qed.

Lemma collect_arrays_normal (conns allItems : list value) :
  exists items, collect_arrays conns allItems = Normal items.
Proof.
  revert allItems. induction conns as [| c rest IH]; intros allItems; simpl.
  - eauto.
  - destruct c; simpl; auto.
Qed.

(** On plain data the [try] block of the output extractor has nothing to
    throw: every loop is guarded by [Array.isArray]. *)
Lemma collectOutputItems_normal (data : value) :
  exists items, collectOutputItems data = Normal items.
Proof.
  unfold collectOutputItems.
  destruct (isArray data) eqn:Harr.
  - destruct data; try discriminate. simpl. apply collect_arrays_normal.
  - rewrite andb_false_r.
    destruct (truthy data && (typeof data =? "object") && negb false); [| eauto].
    destruct (get data "main"); simpl; eauto.
    apply collect_arrays_normal.
Qed.

Lemma extractNodeOutput_try_normal (result : value) :
  exists r, extractNodeOutput_try result = Normal r.
Proof.
  unfold extractNodeOutput_try.
  destruct (truthy result); simpl; [| eauto].
  destruct (collectOutputItems_normal (get result "data")) as [items ->].
  simpl. destruct items; eauto.
Qed.

(** On plain data a read is a lookup, and the extractors that read through
    accessors are the extractors above. *)
Lemma read_opt_plain (o : value) (k : string) :
  read_opt plain_data o k = Normal (get_opt o k).
Proof. destruct o; reflexivity. Qed.

Lemma get_opt_truthy (o : value) (k : string) :
  truthy (get_opt o k) = true -> get o k = get_opt o k.
Proof. destruct o; simpl; (discriminate || reflexivity). Qed.

Lemma push_json_reading_plain (items allItems : list value) :
  push_json_reading plain_data allItems items = Normal (push_json allItems items).
Proof.
  unfold push_json. revert allItems.
  induction items as [| item rest IH]; intros allItems; [reflexivity |].
  cbn [push_json_reading fold_left]. rewrite read_opt_plain. cbn [bind].
  destruct (truthy (get_opt item "json")) eqn:Hj; [| apply IH].
  unfold read, plain_data. cbn [bind].
  rewrite (get_opt_truthy _ _ Hj). apply IH.
Qed.

Lemma collect_truthy_reading_plain (conns allItems : list value) :
  collect_truthy_reading plain_data conns allItems = collect_truthy conns allItems.
Proof.
  revert allItems. induction conns as [| c rest IH]; intros allItems; [reflexivity |].
  cbn [collect_truthy_reading collect_truthy].
  destruct (negb (truthy c)); [apply IH |].
  destruct (iterate "connection" c) as [items | e]; [| reflexivity].
  cbn [bind]. rewrite push_json_reading_plain. cbn [bind]. apply IH.
Qed.

Lemma collect_arrays_reading_plain (conns allItems : list value) :
  collect_arrays_reading plain_data conns allItems = collect_arrays conns allItems.
Proof.
  revert allItems. induction conns as [| c rest IH]; intros allItems; [reflexivity |].
  cbn [collect_arrays_reading collect_arrays].
  destruct (negb (isArray c)); [apply IH |].
  destruct (iterate "connection" c) as [items | e]; [| reflexivity].
  cbn [bind]. rewrite push_json_reading_plain. cbn [bind]. apply IH.
Qed.

Lemma extractNodeInput_try_reading_plain (executionData : value) :
  extractNodeInput_try_reading plain_data executionData
  = extractNodeInput_try executionData.
Proof.
  unfold extractNodeInput_try_reading, extractNodeInput_try.
  rewrite read_opt_plain. cbn [bind]. rewrite read_opt_plain. cbn [bind].
  destruct (truthy (get_opt (get_opt executionData "data") "main")); [| reflexivity].
  unfold read, plain_data. cbn [bind negb orb].
  destruct (truthy (get (get_opt (get_opt executionData "data") "main") "length"));
    [| reflexivity].
  cbn [negb].
  destruct (iterate "mainInputs" (get_opt (get_opt executionData "data") "main"))
    as [conns | e]; [| reflexivity].
  cbn [bind]. now rewrite collect_truthy_reading_plain.
Qed.

Lemma collectOutputItems_reading_plain (data : value) :
  collectOutputItems_reading plain_data data = collectOutputItems data.
Proof.
  unfold collectOutputItems_reading, collectOutputItems.
  destruct (truthy data && isArray data).
  - destruct (iterate "data" data) as [conns | e]; [| reflexivity].
    cbn [bind]. apply collect_arrays_reading_plain.
  - destruct (truthy data && (typeof data =? "object") && negb (isArray data));
      [| reflexivity].
    unfold read, plain_data. cbn [bind].
    destruct (isArray (get data "main")); [| reflexivity].
    destruct (iterate "main" (get data "main")) as [conns | e]; [| reflexivity].
    cbn [bind]. apply collect_arrays_reading_plain.
Qed.

Lemma primaryOutput_reading_plain (first : value) :
  primaryOutput_reading plain_data first = Normal (primaryOutput first).
Proof.
  unfold primaryOutput_reading, primaryOutput.
  destruct (truthy first && (typeof first =? "object")); [| reflexivity].
  unfold first_truthy_reading, read, plain_data, or_else. cbn [bind].
  repeat match goal with
         | H : truthy ?x = _ |- context [truthy ?x] => rewrite H
         | |- context [truthy (get first ?k)] =>
             destruct (truthy (get first k)) eqn:?
         end; reflexivity.
Qed.

Lemma extractNodeOutput_try_reading_plain (result : value) :
  extractNodeOutput_try_reading plain_data result = extractNodeOutput_try result.
Proof.
  unfold extractNodeOutput_try_reading, extractNodeOutput_try.
  destruct (negb (truthy result)); [reflexivity |].
  unfold read at 1. unfold plain_data at 1. cbn [bind].
  rewrite collectOutputItems_reading_plain.
  destruct (collectOutputItems (get result "data")) as [[| first rest] | e];
    try reflexivity.
  cbn [bind]. now rewrite primaryOutput_reading_plain.
Qed.

(** C5 (amended).  Whatever is thrown while an extractor works, by the
    getter of a property it reads or by a loop over a value that is not
    iterable, is caught inside the extractor: neither extractor ever
    throws, and what the [try] block throws comes back as the record
    [{ _error: String(e) }].  For an [Error] that text is its name, a colon
    and its message, not the message alone.  The getter of [data] is one
    place where both extractors meet a throw.  On plain data the
    extractors are the ones the wrappers call, and there the [try] block of
    the output extractor never throws. *)
Theorem extractors_catch_every_exception (acc : accessors) (v : value) :
  (exists r, extractNodeInput_reading acc v = Normal r)
  /\ (exists r, extractNodeOutput_reading acc v = Normal r)
  /\ (forall e, extractNodeInput_try_reading acc v = Throw e ->
        extractNodeInput_reading acc v
        = Normal (VObj [("_error", VStr (thrown_to_string e))]))
  /\ (forall e, extractNodeOutput_try_reading acc v = Throw e ->
        extractNodeOutput_reading acc v
        = Normal (VObj [("_error", VStr (thrown_to_string e))]))
  /\ (forall e, acc v "data" = Some (Throw e) ->
        (nullish v = false -> extractNodeInput_try_reading acc v = Throw e)
        /\ (truthy v = true -> extractNodeOutput_try_reading acc v = Throw e))
  /\ (forall name message, name <> "" -> message <> "" ->
        thrown_to_string (mkError name message) = name ++ ": " ++ message)
  /\ extractNodeInput_reading plain_data v = extractNodeInputFromExecutionData v
  /\ extractNodeOutput_reading plain_data v = extractNodeOutput v
  /\ (exists r, extractNodeOutput_try_reading plain_data v = Normal r).
Proof.
  unfold extractNodeInput_reading, extractNodeOutput_reading.
  split; [apply try_catch_normal |].
  split; [apply try_catch_normal |].
  split; [intros e He; now rewrite He |].
  split; [intros e He; now rewrite He |].
  split.
  { intros e Hacc. split.
    - intros Hv. unfold extractNodeInput_try_reading.
      replace (read_opt acc v "data") with (read acc v "data")
        by (destruct v; try reflexivity; discriminate).
      unfold read. now rewrite Hacc.
    - intros Hv. unfold extractNodeOutput_try_reading. rewrite Hv. cbn [negb].
      unfold read. now rewrite Hacc. }
  split.
  { intros name message Hn Hm. cbn [thrown_to_string]. unfold error_to_string.
    cbn [err_name err_message].
    apply String.eqb_neq in Hn, Hm. now rewrite Hn, Hm. }
  split.
  { unfold extractNodeInputFromExecutionData.
    now rewrite extractNodeInput_try_reading_plain. }
  split.
  { unfold extractNodeOutput. now rewrite extractNodeOutput_try_reading_plain. }
  rewrite extractNodeOutput_try_reading_plain. apply extractNodeOutput_try_normal.
Qed.

Lemma extractors_catch_every_exception_witness :
  extractNodeOutput_reading
    (fun _ k => if k =? "data"
                then Some (Throw (mkError "Error" "getter failed")) else None)
    (VObj [("id", VNum (Int 1))])
  = Normal (VObj [("_error", VStr "Error: getter failed")])
  /\ extractNodeInput_reading plain_data
       (VObj [("data", VObj [("main", VObj [("length", VNum (Int 1))])])])
     = Normal (VObj [("_error", VStr "TypeError: mainInputs is not iterable")]).
Proof.
  split.
  - destruct (extractors_catch_every_exception
                (fun _ k => if k =? "data"
                            then Some (Throw (mkError "Error" "getter failed"))
                            else None)
                (VObj [("id", VNum (Int 1))])) as [_ [_ [_ [H _]]]].
    apply (H (ThrownError (mkError "Error" "getter failed"))). reflexivity.
  - destruct (extractors_catch_every_exception plain_data
                (VObj [("data", VObj [("main", VObj [("length", VNum (Int 1))])])]))
      as [_ [_ [H _]]].
    apply (H (ThrownError (mkError "TypeError" "mainInputs is not iterable"))).
    reflexivity.
Defined.

(** C5, as stated, fails: the record does not hold the message of the
    error, it holds the error as [String] prints it, with its name. *)
Lemma extractors_error_message_counterexample :
  extractNodeInput_try
    (VObj [("data", VObj [("main", VObj [("length", VNum (Int 1))])])])
  = Throw (mkError "TypeError" "mainInputs is not iterable")
  /\ extractNodeInputFromExecutionData
       (VObj [("data", VObj [("main", VObj [("length", VNum (Int 1))])])])
     = Normal (VObj [("_error", VStr "TypeError: mainInputs is not iterable")])
  /\ message_record (mkError "TypeError" "mainInputs is not iterable")
     = VObj [("_error", VStr "mainInputs is not iterable")]
  /\ ~ reports_message
         (extractNodeInput_try
            (VObj [("data", VObj [("main", VObj [("length", VNum (Int 1))])])]))
         (extractNodeInputFromExecutionData
            (VObj [("data", VObj [("main", VObj [("length", VNum (Int 1))])])])).
Proof.
  split; [reflexivity |]. split; [reflexivity |]. split; [reflexivity |].
  intros H.
  specialize (H (mkError "TypeError" "mainInputs is not iterable") eq_refl).
  discriminate H.
Qed.

Lemma push_json_items (items : list record) (allItems : list value) :
  push_json allItems (map encode_item items) = (allItems ++ map VObj items)%list.
Proof.
  unfold push_json. revert allItems.
  induction items as [| r rest IH]; intros allItems; simpl.
  - now rewrite app_nil_r.
  - rewrite IH, <- app_assoc. reflexivity.
Qed.

Lemma collect_truthy_slots (slots : list slot) (allItems : list value) :
  collect_truthy (map encode_slot slots) allItems
  = Normal (allItems ++ map VObj (records_of_slots slots))%list.
Proof.
  revert allItems. induction slots as [| sl rest IH]; intros allItems; simpl.
  - now rewrite app_nil_r.
  - destruct sl as [items |]; simpl.
    + rewrite push_json_items, IH, map_app, app_assoc. reflexivity.
    + apply IH.
Qed.

Lemma lookup_encode_connections (name : string) (c : connections) :
  (lookup name (map (fun e => (fst e, VArr (map encode_slot (snd e)))) c) = VUndefined
   /\ slots_of name c = [])
  \/ lookup name (map (fun e => (fst e, VArr (map encode_slot (snd e)))) c)
     = VArr (map encode_slot (slots_of name c)).
Proof.
  induction c as [| [n slots] rest IH]; simpl.
  - left. split; reflexivity.
  - destruct (n =? name); [right; reflexivity | exact IH].
Qed.

Lemma truthy_length_cons {A : Type} (f : A -> value) (x : A) (l : list A) :
  truthy (VNum (Int (Z.of_nat (List.length (map f (x :: l)))))) = true.
Proof. reflexivity. Qed.

(** C7 (amended).  The input extractor reads the connection named [main]
    alone: the records of its slots, a [null] slot skipped, are collected
    in order; one record is returned as it is, several as the sequence,
    none (no [main], no slot, no record) as no value. *)
Theorem extractNodeInput_reads_main (c : connections) :
  extractNodeInputFromExecutionData (executionData_of c)
  = Normal (unwrap_single (records_of_slots (slots_of "main" c))).
Proof.
  unfold extractNodeInputFromExecutionData, extractNodeInput_try, executionData_of.
  change (get_opt (VObj [("data", encode_connections c)]) "data")
    with (encode_connections c).
  unfold encode_connections. cbn [get_opt get].
  destruct (lookup_encode_connections "main" c) as [[-> ->] | ->].
  - reflexivity.
  - destruct (slots_of "main" c) as [| sl slots] eqn:Hslots; [reflexivity |].
    cbn [truthy get negb orb]. change ("length" =? "length") with true. cbv iota.
    rewrite truthy_length_cons.
    cbn [negb iterate bind].
    rewrite collect_truthy_slots. cbn [app bind try_catch].
    set (records := records_of_slots (sl :: slots)).
    destruct records as [| r [| r' rest]]; reflexivity.
Qed.

(** C7, as stated, fails: the records of a connection with another name
    are not collected. *)
Lemma extractNodeInput_every_connection_counterexample :
  extractNodeInputFromExecutionData
    (executionData_of [("ai_tool", [Some [[("a", VStr "x")]]])])
  = Normal VUndefined
  /\ unwrap_single (all_records [("ai_tool", [Some [[("a", VStr "x")]]])])
     = VObj [("a", VStr "x")]
  /\ ~ collects_every_connection [("ai_tool", [Some [[("a", VStr "x")]]])].
Proof.
  split; [reflexivity |]. split; [reflexivity |].
  unfold collects_every_connection. discriminate.
Qed.

Example extractNodeInput_examples :
  extractNodeInputFromExecutionData
    (executionData_of [("main", [Some [[("prompt", VStr "hi")]]])])
  = Normal (VObj [("prompt", VStr "hi")])
  /\ extractNodeInputFromExecutionData
       (executionData_of [("main", [Some [[("a", VNull)]]; None; Some [[("b", VNull)]]])])
     = Normal (VArr [VObj [("a", VNull)]; VObj [("b", VNull)]])
  /\ extractNodeInputFromExecutionData VUndefined = Normal VUndefined
  /\ extractNodeOutput (VObj [("data", VArr [VArr [VObj [("json", VObj [("response", VStr "hello")])]]])])
     = Normal (VObj [("primary", VStr "hello");
                     ("items", VArr [VObj [("response", VStr "hello")]])]).
Proof. repeat split. Qed.

(* ================================================================== *)
(** ** Properties of the two wrappers *)
(* ================================================================== *)

Import SpanManager.

(** *** What the operations of a span change *)

(** [setAttribute] leaves the span as it is, or binds the key. *)
Lemma span_setAttribute_cases (k : string) (v : value) (s : span) :
  span_setAttribute k v s = s
  \/ span_setAttribute k v s
     = mkSpan (span_name s) (set_prop k v (span_attributes s)) (span_status s)
              (span_exceptions s) (span_end_calls s).
Proof.
  unfold span_setAttribute.
  repeat match goal with
         | |- context [if ?b then _ else _] => destruct b
         end; auto.
Qed.

Lemma setAttribute_effect (k : string) (v : value) (s : span) :
  span_name (span_setAttribute k v s) = span_name s
  /\ span_status (span_setAttribute k v s) = span_status s
  /\ span_exceptions (span_setAttribute k v s) = span_exceptions s
  /\ span_end_calls (span_setAttribute k v s) = span_end_calls s.
Proof.
  destruct (span_setAttribute_cases k v s) as [-> | ->]; repeat split.
Qed.

Lemma recordException_effect (x : thrown) (s : span) :
  span_name (span_recordException x s) = span_name s
  /\ span_status (span_recordException x s) = span_status s
  /\ span_attributes (span_recordException x s) = span_attributes s
  /\ span_end_calls (span_recordException x s) = span_end_calls s.
Proof.
  unfold span_recordException.
  destruct (exception_recorded x), (ended s); repeat split.
Qed.

(** A span as [startSpan] returns it has not ended and has no status, no
    exception and the name it was given. *)
Lemma set_attributes_effect (attributes : list (string * value)) (s : span) :
  let s' := fold_left (fun s kv => span_setAttribute (fst kv) (snd kv) s)
                      attributes s in
  span_name s' = span_name s
  /\ span_status s' = span_status s
  /\ span_exceptions s' = span_exceptions s
  /\ span_end_calls s' = span_end_calls s.
Proof.
  cbv zeta. revert s.
  induction attributes as [| [k v] rest IH]; intros s; [repeat split |].
  cbn [fold_left fst snd].
  destruct (IH (span_setAttribute k v s)) as [A1 [A2 [A3 A4]]].
  destruct (setAttribute_effect k v s) as [B1 [B2 [B3 B4]]].
  repeat split; congruence.
Qed.

Lemma startSpan_fresh (name : value) (attributes : list (string * value)) :
  span_name (startSpan name attributes) = name
  /\ span_status (startSpan name attributes) = (UNSET, None)
  /\ span_exceptions (startSpan name attributes) = []
  /\ span_end_calls (startSpan name attributes) = 0.
Proof.
  exact (set_attributes_effect attributes (mkSpan name [] (UNSET, None) [] 0)).
Qed.

Section Lifecycle.

Variable cfg : config.
Variable JSON_stringify : value -> completion value.

Lemma keeps_ret {A : Type} (a : A) : keeps_lifecycle (ret a).
Proof. intros s. split; reflexivity. Qed.

Lemma keeps_lift {A : Type} (c : completion A) : keeps_lifecycle (lift c).
Proof. intros s. split; reflexivity. Qed.

Lemma keeps_attributes : keeps_lifecycle attributes.
Proof. intros s. split; reflexivity. Qed.

Lemma keeps_setAttribute (k : string) (v : value) :
  keeps_lifecycle (setAttribute k v).
Proof.
  intros s. unfold setAttribute, update. cbn [snd].
  destruct (setAttribute_effect k v s) as [_ [H1 [_ H2]]]. now split.
Qed.

Lemma keeps_bindM {A B : Type} (m : spanM A) (k : A -> spanM B) :
  keeps_lifecycle m -> (forall a, keeps_lifecycle (k a)) ->
  keeps_lifecycle (bindM m k).
Proof.
  intros Hm Hk s. unfold bindM.
  specialize (Hm s). destruct (m s) as [[a | e] s']; simpl in *.
  - specialize (Hk a s'). destruct Hm as [<- <-]. exact Hk.
  - exact Hm.
Qed.

Lemma keeps_tryM {A : Type} (body : spanM A) (handler : thrown -> spanM A) :
  keeps_lifecycle body -> (forall e, keeps_lifecycle (handler e)) ->
  keeps_lifecycle (tryM body handler).
Proof.
  intros Hb Hh s. unfold tryM.
  specialize (Hb s). destruct (body s) as [[a | e] s']; simpl in *.
  - exact Hb.
  - specialize (Hh e s'). destruct Hb as [<- <-]. exact Hh.
Qed.

Lemma keeps_if {A : Type} (b : bool) (m1 m2 : spanM A) :
  keeps_lifecycle m1 -> keeps_lifecycle m2 ->
  keeps_lifecycle (if b then m1 else m2).
Proof. now destruct b. Qed.

Lemma ended_false (s : span) : span_end_calls s = 0 -> ended s = false.
Proof. unfold ended. now intros ->. Qed.

Lemma setStatus_open (c : status_code) (msg : option string) (s : span) :
  span_end_calls s = 0 ->
  span_end_calls (span_setStatus c msg s) = 0
  /\ span_status (span_setStatus c msg s) = (c, msg).
Proof.
  intros Hs. unfold span_setStatus. rewrite (ended_false s Hs). now split.
Qed.

Lemma recordException_open (x : thrown) (s : span) :
  span_end_calls (span_recordException x s) = span_end_calls s
  /\ span_status (span_recordException x s) = span_status s.
Proof. destruct (recordException_effect x s) as [_ [H1 [_ H2]]]. now split. Qed.

Lemma setAttribute_open (k : string) (v : value) (s : span) :
  span_end_calls (span_setAttribute k v s) = span_end_calls s
  /\ span_status (span_setAttribute k v s) = span_status s.
Proof. destruct (setAttribute_effect k v s) as [_ [H1 [_ H2]]]. now split. Qed.

Ltac keeps :=
  repeat first
    [ apply keeps_ret | apply keeps_lift | apply keeps_attributes
    | apply keeps_setAttribute
    | apply keeps_bindM; [| intros ?]
    | apply keeps_tryM; [| intros ?]
    | apply keeps_if ].

Lemma keeps_io_string (obj : value) :
  keeps_lifecycle (io_string cfg JSON_stringify obj).
Proof. unfold io_string. keeps. Qed.

Lemma keeps_captureNodeInput (spanKind : string) (executionData : value) :
  keeps_lifecycle (captureNodeInput cfg JSON_stringify spanKind executionData).
Proof. unfold captureNodeInput. keeps; apply keeps_io_string. Qed.

Lemma keeps_captureNodeOutput (spanKind : string) (result : value) :
  keeps_lifecycle (captureNodeOutput cfg JSON_stringify spanKind result).
Proof. unfold captureNodeOutput. keeps; apply keeps_io_string. Qed.

Lemma keeps_captureWorkflowOutput (result : value) :
  keeps_lifecycle (captureWorkflowOutput cfg JSON_stringify result).
Proof.
  unfold captureWorkflowOutput. keeps.
  destruct a; keeps; apply keeps_io_string.
Qed.

(** What the step wrapper does to a span that has not ended, by the
    outcome of the wrapped call.  A failure is passed on, with the status
    set to ERROR, unless reading its message throws: then that throw is
    passed on and the status is left as it was. *)
Lemma runNodeInSpan_lifecycle (spanKind : string) (executionData : value)
      (call : call_outcome) (s : span) :
  span_end_calls s = 0 ->
  let r := runNodeInSpan cfg JSON_stringify spanKind executionData call s in
  span_end_calls (snd r) = 1
  /\ match await call with
     | Normal v => fst r = Normal v /\ span_status (snd r) = (OK, None)
     | Throw error =>
         match status_message error with
         | Normal message =>
             fst r = Throw error /\ span_status (snd r) = (ERROR, Some message)
         | Throw e => fst r = Throw e /\ span_status (snd r) = span_status s
         end
     end.
Proof.
  intros Hs. cbv zeta.
  remember (runNodeInSpan cfg JSON_stringify spanKind executionData call s)
    as r eqn:Hr.
  unfold runNodeInSpan in Hr.
  set (capture := if CAPTURE_IO cfg then _ else _) in Hr.
  assert (Hnormal : exists s1, capture s = (Normal tt, s1) /\ span_end_calls s1 = 0
                               /\ span_status s1 = span_status s).
  { subst capture. destruct (CAPTURE_IO cfg).
    - pose proof (keeps_tryM _ (fun _ => ret tt)
                    (keeps_captureNodeInput spanKind executionData)
                    (fun _ => keeps_ret tt) s) as [He Hst].
      unfold tryM in *.
      destruct (captureNodeInput cfg JSON_stringify spanKind executionData s)
        as [[[] | e] s1]; simpl in *; eexists;
        (split; [reflexivity | split; [lia | assumption]]).
    - exists s. split; [reflexivity |]. split; [assumption | reflexivity]. }
  destruct Hnormal as [s1 [Hrun [Hs1 Hst1]]].
  unfold bindM at 1 in Hr. rewrite Hrun in Hr. clear Hrun capture.
  unfold finallyM, tryM at 1, bindM at 1, lift in Hr.
  destruct (await call) as [v | error].
  - pose proof (keeps_tryM _ (fun _ => ret tt)
                  (keeps_captureNodeOutput spanKind v)
                  (fun _ => keeps_ret tt) s1) as [He Hst].
    unfold bindM, tryM, ret, setStatus, end_, update in *.
    destruct (captureNodeOutput cfg JSON_stringify spanKind v s1)
      as [[[] | e] s2]; cbv beta iota in *; cbn [fst snd] in *;
      (assert (Hs2 : span_end_calls s2 = 0) by lia);
      destruct (setStatus_open OK None s2 Hs2) as [He' Hst'];
      subst r; cbn [fst snd span_end span_end_calls span_status];
      rewrite He', Hst'; auto.
  - unfold bindM, recordException, setStatus, setAttribute, throw, end_, update, lift
      in Hr.
    cbv beta iota in Hr.
    destruct (recordException_open error s1) as [He Hst].
    rewrite Hs1 in He.
    destruct (status_message error) as [message | e].
    + destruct (setStatus_open ERROR (Some message) _ He) as [He' Hst'].
      destruct (setAttribute_open "n8n.node.status" (VStr "error")
                  (span_setStatus ERROR (Some message)
                     (span_recordException error s1))) as [Ha Hb].
      subst r. cbn [fst snd span_end span_end_calls span_status].
      rewrite Ha, Hb, He', Hst'. auto.
    + subst r. cbn [fst snd span_end span_end_calls span_status].
      rewrite He, Hst, Hst1. auto.
Qed.

(** What the workflow wrapper's promise chain does to a span that has not
    ended, by the settlement of the engine's promise. *)
Lemma promise_chain_lifecycle (workflowId workflowName : value) (p : promise)
      (s : span) :
  span_end_calls s = 0 ->
  let s' := snd (finallyM (then_ p (onFulfilled cfg JSON_stringify workflowId workflowName)
                                 onRejected) end_ s) in
  span_end_calls s' = 1
  /\ match p with
     | Fulfilled result =>
         let err := get_opt (get_opt (get_opt result "data") "resultData") "error" in
         if truthy err
         then span_status s'
              = (ERROR, Some (to_string (or_else (get err "message") err)))
         else span_status s' = (OK, None)
     | Rejected error =>
         match status_message error with
         | Normal message => span_status s' = (ERROR, Some message)
         | Throw _ => span_status s' = span_status s
         end
     end.
Proof.
  intros Hs. cbv zeta. destruct p as [result | error].
  - unfold then_, onFulfilled.
    set (err := get_opt (get_opt (get_opt result "data") "resultData") "error").
    set (status := if truthy err then _ else _).
    set (rest := if CAPTURE_IO cfg then _ else _).
    assert (Hrest : keeps_lifecycle rest).
    { subst rest. apply keeps_if; [| apply keeps_ret].
      apply keeps_bindM; [| intros ?; keeps].
      apply keeps_tryM; [apply keeps_captureWorkflowOutput | intros ?; apply keeps_ret]. }
    assert (Hstatus : exists s1, status s = (Normal tt, s1)
              /\ span_end_calls s1 = 0
              /\ span_status s1
                 = if truthy err
                   then (ERROR, Some (to_string (or_else (get err "message") err)))
                   else (OK, None)).
    { subst status. destruct (truthy err); simpl; eexists;
        (split; [reflexivity |]); apply setStatus_open; [| assumption].
      now rewrite (proj1 (recordException_open _ s)). }
    destruct Hstatus as [s1 [Hrun [Hs1 Hst]]].
    unfold finallyM, bindM. rewrite Hrun.
    destruct (Hrest s1) as [He Hk].
    destruct (rest s1) as [r s2]. simpl in *.
    split; [lia |]. rewrite Hk, Hst. now destruct (truthy err).
  - unfold then_, onRejected, finallyM, bindM, recordException, update, lift.
    cbv beta iota.
    destruct (recordException_open error s) as [He Hst].
    rewrite Hs in He.
    destruct (status_message error) as [message | e].
    + destruct (setStatus_open ERROR (Some message) _ He) as [He' Hst'].
      cbn. rewrite He', Hst'. auto.
    + cbn. rewrite He, Hst. auto.
Qed.

End Lifecycle.

(** The step wrapper.  When a throw keeps it from starting the span, it
    rejects with that throw, whatever the wrapped method would do.
    Otherwise the span it started is ended once, its status is OK exactly
    when the call returned, and the caller sees the outcome of the call. *)
Lemma runNode_span_lifecycle (cfg : config) (JSON_stringify : value -> completion value)
      (flatten : value -> completion (list (string * value)))
      (workflow executionData additionalData : value) (call : call_outcome) :
  let r := runNode cfg JSON_stringify flatten true workflow executionData
                   additionalData call in
  match nodeSpanStart cfg JSON_stringify flatten workflow executionData
                      additionalData with
  | Throw e => r = (Throw e, None)
  | Normal _ =>
      exists s, snd r = Some s
        /\ span_end_calls s = 1
        /\ match await call with
           | Normal v => fst r = Normal v /\ span_status s = (OK, None)
           | Throw error =>
               match status_message error with
               | Normal message =>
                   fst r = Throw error /\ span_status s = (ERROR, Some message)
               | Throw e => fst r = Throw e /\ span_status s = (UNSET, None)
               end
           end
  end.
Proof.
  cbv zeta. unfold runNode. cbn [negb].
  destruct (nodeSpanStart cfg JSON_stringify flatten workflow executionData
                          additionalData) as [[[spanKind nodeSpanName] nodeAttributes] | e];
    [| reflexivity].
  destruct (startSpan_fresh nodeSpanName nodeAttributes) as [_ [Hst0 [_ Hend0]]].
  pose proof (runNodeInSpan_lifecycle cfg JSON_stringify spanKind executionData
                call (startSpan nodeSpanName nodeAttributes) Hend0) as H.
  cbv zeta in H. rewrite Hst0 in H.
  destruct (runNodeInSpan cfg JSON_stringify spanKind executionData call
              (startSpan nodeSpanName nodeAttributes)) as [r s].
  simpl in *. destruct H as [Hend Hr].
  exists s. auto.
Qed.

(** The workflow wrapper, when the wrapped call returns its promise: the
    span is ended once, and its status is OK exactly when the promise
    fulfils with a result that reports no error; it is ERROR for a reported
    error and for a rejection, but for one with [null] or [undefined],
    whose message cannot be read. *)
Lemma processRunExecutionData_settled_lifecycle (cfg : config)
      (JSON_stringify : value -> completion value)
      (workflowSpanName : value) (workflowAttributes : list (string * value))
      (workflowId workflowName : value) (cancelable : promise) :
  let r := processRunExecutionData cfg JSON_stringify workflowSpanName
             workflowAttributes workflowId workflowName (Normal cancelable) in
  fst r = Normal cancelable
  /\ span_end_calls (snd r) = 1
  /\ match cancelable with
     | Fulfilled result =>
         let err := get_opt (get_opt (get_opt result "data") "resultData") "error" in
         fst (span_status (snd r)) = if truthy err then ERROR else OK
     | Rejected error =>
         fst (span_status (snd r))
         = match status_message error with Normal _ => ERROR | Throw _ => UNSET end
     end.
Proof.
  cbv zeta. unfold processRunExecutionData. cbn [fst snd].
  destruct (startSpan_fresh workflowSpanName workflowAttributes)
    as [_ [Hst0 [_ Hend0]]].
  pose proof (promise_chain_lifecycle cfg JSON_stringify workflowId workflowName
                cancelable (startSpan workflowSpanName workflowAttributes) Hend0)
    as [Hend Hst].
  split; [reflexivity |]. split; [exact Hend |].
  destruct cancelable as [result | error].
  - cbv zeta in Hst.
    destruct (truthy (get_opt (get_opt (get_opt result "data") "resultData") "error"));
      now rewrite Hst.
  - destruct (status_message error); rewrite Hst; [reflexivity | now rewrite Hst0].
Qed.

(** C2.  When the wrapped [processRunExecutionData] throws before it
    returns its promise, the wrapper lets the throw pass and the span it
    started is left as started: [end()] is never called on it and its
    status stays unset.  The same fault in [runNode] ends the span with an
    error status: so does the callback it runs in the span, on every span
    that has not ended, and so does the wrapper whenever it started a
    span. *)
Theorem processRunExecutionData_throw_leaves_span_open (cfg : config)
        (JSON_stringify : value -> completion value)
        (workflowSpanName : value) (workflowAttributes : list (string * value))
        (workflowId workflowName : value) (e : error) :
  let r := processRunExecutionData cfg JSON_stringify workflowSpanName
             workflowAttributes workflowId workflowName (Throw e) in
  fst r = Throw e
  /\ snd r = startSpan workflowSpanName workflowAttributes
  /\ span_end_calls (snd r) = 0
  /\ span_status (snd r) = (UNSET, None)
  /\ (forall spanKind executionData nodeSpan,
        span_end_calls nodeSpan = 0 ->
        let r' := runNodeInSpan cfg JSON_stringify spanKind executionData
                                (Throw e) nodeSpan in
        fst r' = Throw e
        /\ span_end_calls (snd r') = 1
        /\ span_status (snd r') = (ERROR, Some (error_status_message e)))
  /\ (forall flatten workflow executionData additionalData,
        let r' := runNode cfg JSON_stringify flatten true workflow executionData
                          additionalData (Throw e) in
        match snd r' with
        | Some s =>
            span_end_calls s = 1
            /\ span_status s = (ERROR, Some (error_status_message e))
        | None =>
            exists e',
              nodeSpanStart cfg JSON_stringify flatten workflow executionData
                            additionalData = Throw e'
              /\ fst r' = Throw e'
        end).
Proof.
  cbv zeta. unfold processRunExecutionData. cbn [fst snd].
  destruct (startSpan_fresh workflowSpanName workflowAttributes)
    as [_ [Hst0 [_ Hend0]]].
  repeat (split; [reflexivity || assumption |]).
  split.
  - intros spanKind executionData nodeSpan Hopen.
    pose proof (runNodeInSpan_lifecycle cfg JSON_stringify spanKind executionData
                  (Throw e) nodeSpan Hopen) as [Hend H].
    cbn in H. destruct H as [Hr Hst]. auto.
  - intros flatten workflow executionData additionalData.
    pose proof (runNode_span_lifecycle cfg JSON_stringify flatten workflow
                  executionData additionalData (Throw e)) as H.
    cbv zeta in H.
    destruct (nodeSpanStart cfg JSON_stringify flatten workflow executionData
                            additionalData) as [start | e'].
    + destruct H as [s [-> [Hend H]]]. cbn in H. destruct H as [_ Hst]. auto.
    + rewrite H. cbn. exists e'. auto.
Qed.

(* ================================================================== *)
(** ** Properties of the initialization guard *)
(* ================================================================== *)

Import Config InitGuard.

Lemma truthy_or_else (a b : value) :
  truthy (or_else a b) = truthy a || truthy b.
Proof. unfold or_else. destruct (truthy a) eqn:Ha; [now rewrite Ha | reflexivity]. Qed.

Lemma env_get_set_other (k k' v : string) (e : env) :
  k <> k' -> env_get k (env_set k' v e) = env_get k e.
Proof.
  intros Hne. induction e as [| [x y] rest IH]; simpl.
  - apply String.eqb_neq in Hne. rewrite String.eqb_sym in Hne. now rewrite Hne.
  - destruct (x =? k') eqn:Hx; simpl.
    + apply String.eqb_eq in Hx. subst x.
      apply String.eqb_neq in Hne. rewrite String.eqb_sym in Hne. now rewrite Hne.
    + destruct (x =? k); [reflexivity | exact IH].
Qed.

Lemma env_get_set_same (k v : string) (e : env) :
  env_get k (env_set k v e) = Some v.
Proof.
  induction e as [| [x y] rest IH]; simpl.
  - now rewrite String.eqb_refl.
  - destruct (x =? k) eqn:Hx; simpl; [now rewrite Hx | now rewrite Hx].
Qed.

Lemma clean_otel_variable_other (e : env) (k key : string) :
  String.prefix "OTEL_" key = false ->
  env_get key (clean_otel_variable e k) = env_get key e.
Proof.
  intros Hkey. unfold clean_otel_variable.
  destruct (String.prefix "OTEL_" k) eqn:Hk; [| reflexivity].
  destruct (getEnv e k "" false); [| reflexivity].
  apply env_get_set_other. intros ->. congruence.
Qed.

Lemma clean_all_other (ks : list string) (e : env) (key : string) :
  String.prefix "OTEL_" key = false ->
  env_get key (fold_left clean_otel_variable ks e) = env_get key e.
Proof.
  intros Hkey. revert e. induction ks as [| k ks IH]; intros e; [reflexivity |].
  cbn [fold_left]. rewrite IH. now apply clean_otel_variable_other.
Qed.

(** The cleaning of the OTEL variables leaves every other variable alone. *)
Lemma processOtel_frame (e : env) (key : string) :
  String.prefix "OTEL_" key = false ->
  env_get key (processOtelEnvironmentVariables e) = env_get key e.
Proof.
  intros Hkey. unfold processOtelEnvironmentVariables.
  set (e1 := fold_left clean_otel_variable (map fst e) e).
  set (e2 := if _ && _ then _ else e1).
  assert (H2 : env_get key e2 = env_get key e).
  { subst e2. destruct (_ && _).
    - rewrite env_get_set_other by (intros ->; discriminate).
      now apply clean_all_other.
    - now apply clean_all_other. }
  destruct (env_falsy (env_get "OTEL_BSP_EXPORT_TIMEOUT" e2)); [| exact H2].
  rewrite env_get_set_other by (intros ->; discriminate). exact H2.
Qed.

(** The guard is set when one of the three marks is. *)
Lemma ALREADY_INITIALIZED_marks (p : process) :
  truthy (ALREADY_INITIALIZED p)
  = truthy (global_n8nTracingInitialized p)
    || env_is_true (env_get "__N8N_TRACING_INITIALIZED" (process_env p))
    || truthy (process_n8nOtelSDKStarted p).
Proof. unfold ALREADY_INITIALIZED. now rewrite !truthy_or_else. Qed.

(** What the initialization leaves of a process: the two flags and every
    variable that is no OTEL variable stay; the wrappers are installed when
    the log level can be read and n8n-core can be loaded, whatever becomes
    of the exporter; the SDK is started when the exporter can be built
    too. *)
Lemma initializeTracing_effect (p : process) :
  let q := snd (initializeTracing p) in
  let level_read :=
    negb (match env_get "TRACING_LOG_LEVEL" (process_env p) with
          | Some s => s =? ""
          | None => false
          end) in
  let installs := level_read && n8n_core_loadable p in
  let starts :=
    level_read
    && match traceExporter (process_env p) with Normal _ => true | Throw _ => false end in
  global_n8nTracingInitialized q = global_n8nTracingInitialized p
  /\ process_n8nOtelSDKStarted q = process_n8nOtelSDKStarted p
  /\ n8n_core_loadable q = n8n_core_loadable p
  /\ (forall key, String.prefix "OTEL_" key = false ->
        env_get key (process_env q) = env_get key (process_env p))
  /\ processRun_wrappers q
     = (if installs then S (processRun_wrappers p) else processRun_wrappers p)
  /\ runNode_wrappers q
     = (if installs then S (runNode_wrappers p) else runNode_wrappers p)
  /\ sdk_starts q = (if starts then S (sdk_starts p) else sdk_starts p)
  /\ (level_read = false -> exists e, fst (initializeTracing p) = Throw e)
  /\ (level_read = true ->
      fst (initializeTracing p)
      = match traceExporter (process_env p) with
        | Normal _ => Normal tt
        | Throw e => Throw e
        end).
Proof.
  cbv zeta. unfold initializeTracing, getEnv_required.
  destruct (env_get "TRACING_LOG_LEVEL" (process_env p)) as [level |].
  - rewrite truthy_VStr.
    destruct (level =? ""); cbn [negb andb fst snd].
    + repeat split; try reflexivity; eauto; discriminate.
    + unfold setupN8nOpenTelemetry, with_env, sdk_start.
      cbn [n8n_core_loadable].
      destruct (traceExporter (process_env p)), (n8n_core_loadable p);
        cbn; repeat split; try reflexivity; try discriminate;
        intros key Hkey; now apply processOtel_frame.
  - cbn [truthy String.eqb negb andb fst snd].
    unfold setupN8nOpenTelemetry, with_env, sdk_start.
    cbn [n8n_core_loadable].
    destruct (traceExporter (process_env p)), (n8n_core_loadable p);
      cbn; repeat split; try reflexivity; try discriminate;
      intros key Hkey; now apply processOtel_frame.
Qed.

Lemma initializeTracing_keeps_marks (p : process) :
  truthy (ALREADY_INITIALIZED p) = true ->
  truthy (ALREADY_INITIALIZED (snd (initializeTracing p))) = true.
Proof.
  intros H. rewrite ALREADY_INITIALIZED_marks in *.
  destruct (initializeTracing_effect p) as [-> [-> [_ [Henv _]]]].
  now rewrite Henv.
Qed.

(** After a load the guard is set, whatever the state before. *)
Lemma load_module_marks (p : process) :
  truthy (ALREADY_INITIALIZED (snd (load_module p))) = true.
Proof.
  unfold load_module.
  destruct (truthy (ALREADY_INITIALIZED p)) eqn:H; [exact H |].
  apply initializeTracing_keeps_marks. reflexivity.
Qed.

Lemma load_module_marked (p : process) :
  truthy (ALREADY_INITIALIZED p) = true -> load_module p = (Normal tt, p).
Proof. intros H. unfold load_module. now rewrite H. Qed.

Lemma load_times_marked (n : nat) (p : process) :
  truthy (ALREADY_INITIALIZED p) = true -> load_times n p = p.
Proof.
  revert p. induction n as [| n IH]; intros p H; simpl; [reflexivity |].
  rewrite (load_module_marked p H). simpl. now apply IH.
Qed.

(** Only the first load counts. *)
Lemma load_times_first (n : nat) (p : process) :
  load_times (S n) p = snd (load_module p).
Proof. cbn [load_times]. apply load_times_marked, load_module_marks. Qed.

Lemma mark_initialized_level (p : process) :
  env_get "TRACING_LOG_LEVEL" (process_env (mark_initialized p))
  = env_get "TRACING_LOG_LEVEL" (process_env p).
Proof. cbn. apply env_get_set_other. discriminate. Qed.

(** The wrappers a load installs. *)
Lemma load_module_wrappers (p : process) :
  let q := snd (load_module p) in
  let installs :=
    negb (truthy (ALREADY_INITIALIZED p))
    && negb (match env_get "TRACING_LOG_LEVEL" (process_env p) with
             | Some s => s =? ""
             | None => false
             end)
    && n8n_core_loadable p in
  processRun_wrappers q
  = (if installs then S (processRun_wrappers p) else processRun_wrappers p)
  /\ runNode_wrappers q
     = (if installs then S (runNode_wrappers p) else runNode_wrappers p).
Proof.
  cbv zeta. unfold load_module.
  destruct (truthy (ALREADY_INITIALIZED p)); [split; reflexivity |].
  destruct (initializeTracing_effect (mark_initialized p))
    as [_ [_ [_ [_ [Hp [Hr _]]]]]].
  rewrite mark_initialized_level in Hp, Hr. cbn [negb andb].
  split; [exact Hp | exact Hr].
Qed.

(** C9 (amended).  A second load of the module is a no-op.  A load that
    finds one of the three marks set changes nothing; the first load of a
    fresh process sets all three, the global flag, the environment variable
    and the flag on [process].  So, however often the module is loaded,
    each of the two methods is wrapped at most once.  It is wrapped exactly
    once just when the first load finds the process fresh, can load
    n8n-core and can read the log level: a process that starts with a mark
    set, as one that inherits the environment variable does, is never
    instrumented. *)
Theorem load_module_installs_once (p : process) :
  load_module (snd (load_module p)) = (Normal tt, snd (load_module p))
  /\ (truthy (global_n8nTracingInitialized p) = true
      \/ env_get "__N8N_TRACING_INITIALIZED" (process_env p) = Some "true"
      \/ truthy (process_n8nOtelSDKStarted p) = true ->
      load_module p = (Normal tt, p))
  /\ (fresh p ->
      let q := snd (load_module p) in
      global_n8nTracingInitialized q = VBool true
      /\ env_get "__N8N_TRACING_INITIALIZED" (process_env q) = Some "true"
      /\ process_n8nOtelSDKStarted q = VBool true)
  /\ (forall n,
        processRun_wrappers p <= processRun_wrappers (load_times n p)
          <= S (processRun_wrappers p)
        /\ runNode_wrappers p <= runNode_wrappers (load_times n p)
             <= S (runNode_wrappers p))
  /\ (installs_exactly_once p
      <-> fresh p /\ n8n_core_loadable p = true
          /\ env_get "TRACING_LOG_LEVEL" (process_env p) <> Some "").
Proof.
  split; [apply load_module_marked, load_module_marks |].
  split.
  { intros H. apply load_module_marked. rewrite ALREADY_INITIALIZED_marks.
    destruct H as [-> | [-> | ->]]; [reflexivity | | ].
    - simpl. now rewrite orb_true_r.
    - now rewrite orb_true_r. }
  split.
  { unfold fresh. intros Hfresh. cbv zeta. unfold load_module. rewrite Hfresh.
    destruct (initializeTracing_effect (mark_initialized p))
      as [-> [-> [_ [Henv _]]]].
    rewrite Henv by reflexivity. cbn.
    split; [reflexivity |]. split; [apply env_get_set_same | reflexivity]. }
  split.
  { intros [| n]; [cbn; lia |]. rewrite load_times_first.
    destruct (load_module_wrappers p) as [-> ->].
    destruct (_ && _); lia. }
  unfold installs_exactly_once, fresh.
  destruct (load_module_wrappers p) as [Hp Hr].
  split.
  - intros H. specialize (H 0). rewrite load_times_first in H.
    destruct H as [H _]. rewrite Hp in H.
    destruct (truthy (ALREADY_INITIALIZED p)); cbn [negb andb] in H; [lia |].
    destruct (n8n_core_loadable p); [| rewrite andb_false_r in H; lia].
    split; [reflexivity |]. split; [reflexivity |].
    intros Hlevel. rewrite Hlevel in H. cbn in H. lia.
  - intros [Hfresh [Hcore Hlevel]] n. rewrite load_times_first, Hp, Hr.
    rewrite Hfresh, Hcore.
    destruct (env_get "TRACING_LOG_LEVEL" (process_env p)) as [[| c level] |];
      [congruence | split; reflexivity | split; reflexivity].
Qed.

Lemma load_module_installs_once_witness :
  processRun_wrappers
    (load_times 3 (mkProcess VUndefined [("ARIZE_API_KEY", "k")] VUndefined true 0 0 0))
  = 1
  /\ runNode_wrappers
       (load_times 3 (mkProcess VUndefined [("ARIZE_API_KEY", "k")] VUndefined true 0 0 0))
     = 1.
Proof.
  apply (load_module_installs_once
           (mkProcess VUndefined [("ARIZE_API_KEY", "k")] VUndefined true 0 0 0)).
  split; [reflexivity |]. split; [reflexivity | discriminate].
Defined.

(** C9, as stated, fails: a process that starts with the environment
    variable of the guard set, as a child process that inherits the
    environment of an instrumented parent does, skips the installation on
    every load, and neither method is ever wrapped. *)
Lemma load_module_inherited_flag_counterexample :
  processRun_wrappers
    (load_times 3 (mkProcess VUndefined [("__N8N_TRACING_INITIALIZED", "true")]
                             VUndefined true 0 0 0)) = 0
  /\ runNode_wrappers
       (load_times 3 (mkProcess VUndefined [("__N8N_TRACING_INITIALIZED", "true")]
                                VUndefined true 0 0 0)) = 0
  /\ ~ installs_exactly_once
         (mkProcess VUndefined [("__N8N_TRACING_INITIALIZED", "true")]
                    VUndefined true 0 0 0).
Proof.
  split; [reflexivity |]. split; [reflexivity |].
  intros H. destruct (H 2) as [H1 _]. discriminate H1.
Qed.

(* ================================================================== *)
(** ** Further properties of the span-kind mapper *)
(* ================================================================== *)

(** Every kind the mapper returns is one of the ten span kinds. *)
Lemma mapped_kind_valid (nodeType attrs : value) (k : string) :
  mapNodeToSpanKind nodeType attrs = Some k -> In k SPAN_KINDS.
Proof.
  destruct (typeof nodeType =? "string") eqn:Hty.
  2: { intros H. unfold mapNodeToSpanKind in H.
       rewrite (non_string_no_match _ attrs Hty) in H. discriminate. }
  destruct (typeof_string_inv _ Hty) as [s ->].
  rewrite mapNodeToSpanKind_string.
  destruct (s =? ""); [discriminate |].
  destruct (exact_lookup EXACT_SETS s) as [k' |] eqn:He.
  { intros [= <-]. destruct (exact_lookup_In _ _ _ He) as [set [Hin _]].
    pose proof exact_kinds_valid as Hv. rewrite forallb_forall in Hv.
    apply has_In. exact (Hv _ Hin). }
  destruct (first_rule REGEX_RULES (toLowerCase s)) as [k' |] eqn:Hr.
  { intros [= <-]. destruct (first_rule_In _ _ _ Hr) as [r [Hin [<- _]]].
    pose proof rule_kinds_valid as Hv. rewrite forallb_forall in Hv.
    apply has_In. exact (Hv _ Hin). }
  intros Hc. destruct (categoryFallback_kind _ _ _ Hc) as [-> | ->]; simpl; auto 10.
Qed.

Lemma nodeSpanKind_valid_kinds (enabled : bool) (nodeType n8nNodeAttrs : value) :
  In (nodeSpanKind enabled nodeType n8nNodeAttrs) SPAN_KINDS.
Proof.
  assert (Hchain : In "CHAIN" SPAN_KINDS) by (simpl; auto).
  unfold nodeSpanKind. destruct enabled; [| exact Hchain].
  destruct (mapNodeToSpanKind nodeType n8nNodeAttrs) as [k |] eqn:Hk;
    [| exact Hchain].
  destruct (truthy (VStr k)); [| exact Hchain].
  exact (mapped_kind_valid _ _ _ Hk).
Qed.

(** X1.  The kind the step wrapper attaches to a span is always one of the
    ten span kinds: the mapped kind when the mapping is enabled and finds
    one, CHAIN when the mapping is switched off, and CHAIN when it finds
    nothing. *)
Theorem nodeSpanKind_valid (enabled : bool) (nodeType n8nNodeAttrs : value) :
  In (nodeSpanKind enabled nodeType n8nNodeAttrs) SPAN_KINDS
  /\ (enabled = false -> nodeSpanKind enabled nodeType n8nNodeAttrs = "CHAIN")
  /\ (forall k, mapNodeToSpanKind nodeType n8nNodeAttrs = Some k ->
        nodeSpanKind true nodeType n8nNodeAttrs = k)
  /\ (mapNodeToSpanKind nodeType n8nNodeAttrs = None ->
      nodeSpanKind enabled nodeType n8nNodeAttrs = "CHAIN").
Proof.
  split; [apply nodeSpanKind_valid_kinds |].
  unfold nodeSpanKind. split; [| split].
  - intros ->. reflexivity.
  - intros k Hk. rewrite Hk.
    pose proof (mapped_kind_valid _ _ _ Hk) as Hin.
    simpl in Hin.
    repeat (destruct Hin as [<- | Hin]; [reflexivity |]). destruct Hin.
  - intros ->. now destruct enabled.
Qed.

Lemma nodeSpanKind_valid_witness :
  nodeSpanKind false (VStr "OpenAi") VUndefined = "CHAIN"
  /\ nodeSpanKind true (VStr "OpenAi") VUndefined = "LLM"
  /\ nodeSpanKind true (VStr "Zzz") VUndefined = "CHAIN".
Proof.
  split; [| split].
  - destruct (nodeSpanKind_valid false (VStr "OpenAi") VUndefined) as [_ [H _]].
    apply H. reflexivity.
  - destruct (nodeSpanKind_valid true (VStr "OpenAi") VUndefined) as [_ [_ [H _]]].
    apply H. reflexivity.
  - destruct (nodeSpanKind_valid true (VStr "Zzz") VUndefined) as [_ [_ [_ H]]].
    apply H. reflexivity.
Defined.

(** X2.  The category tier answers TOOL exactly for the category Core
    Nodes with a type outside the internal-logic set and other than
    Schedule and Cron; it answers nothing for a category that is not one of
    its four strings, whatever the type. *)
Theorem categoryFallback_tool (type : string) (category : value) :
  (categoryFallback type category = Some "TOOL"
   <-> category = VStr "Core Nodes"
       /\ ~ In type (INTERNAL_LOGIC ++ ["Schedule"; "Cron"]))
  /\ (~ In category [VStr "Trigger Nodes"; VStr "Transform Nodes";
                     VStr "AI/LangChain Nodes"; VStr "Core Nodes"] ->
      categoryFallback type category = None).
Proof.
  assert (Hmem : has INTERNAL_LOGIC type || ((type =? "Schedule") || (type =? "Cron"))
                 = true <-> In type (INTERNAL_LOGIC ++ ["Schedule"; "Cron"])).
  { rewrite in_app_iff, orb_true_iff, has_In, orb_true_iff, !String.eqb_eq.
    simpl. intuition congruence. }
  split.
  - unfold categoryFallback. destruct category as [| | | | c | |];
      try (split; [discriminate | intros [[=] _]]).
    destruct (c =? "Trigger Nodes") eqn:H1.
    { apply String.eqb_eq in H1. subst c.
      split; [discriminate | intros [[=] _]]. }
    destruct (c =? "Transform Nodes") eqn:H2.
    { apply String.eqb_eq in H2. subst c.
      split; [discriminate | intros [[=] _]]. }
    destruct (c =? "AI/LangChain Nodes") eqn:H3.
    { apply String.eqb_eq in H3. subst c.
      split; [discriminate | intros [[=] _]]. }
    destruct (c =? "Core Nodes") eqn:H4.
    2: { split; [discriminate |]. intros [[= ->] _].
         rewrite String.eqb_refl in H4. discriminate. }
    apply String.eqb_eq in H4. subst c.
    destruct (has INTERNAL_LOGIC type) eqn:Hi.
    { split; [discriminate |]. intros [_ Hn]. exfalso. apply Hn, Hmem.
      reflexivity. }
    destruct ((type =? "Schedule") || (type =? "Cron")) eqn:Hs.
    { split; [discriminate |]. intros [_ Hn]. exfalso. apply Hn, Hmem.
      reflexivity. }
    split; [| reflexivity]. intros _. split; [reflexivity |].
    intros Hin. apply Hmem in Hin. discriminate.
  - intros Hn. unfold categoryFallback.
    destruct category as [| | | | c | |]; try reflexivity.
    destruct (c =? "Trigger Nodes") eqn:H1.
    { apply String.eqb_eq in H1. subst c. exfalso. apply Hn. simpl. auto. }
    destruct (c =? "Transform Nodes") eqn:H2.
    { apply String.eqb_eq in H2. subst c. exfalso. apply Hn. simpl. auto. }
    destruct (c =? "AI/LangChain Nodes") eqn:H3.
    { apply String.eqb_eq in H3. subst c. exfalso. apply Hn. simpl. auto. }
    destruct (c =? "Core Nodes") eqn:H4; [| reflexivity].
    apply String.eqb_eq in H4. subst c. exfalso. apply Hn. simpl. auto.
Qed.

Lemma categoryFallback_tool_witness :
  categoryFallback "HttpRequest" (VStr "Core Nodes") = Some "TOOL"
  /\ categoryFallback "If" (VStr "core nodes") = None.
Proof.
  split.
  - apply (categoryFallback_tool "HttpRequest" (VStr "Core Nodes")).
    split; [reflexivity |]. simpl.
    intros H. repeat (destruct H as [H | H]; [discriminate H |]). exact H.
  - apply (categoryFallback_tool "If" (VStr "core nodes")). simpl.
    intros H. repeat (destruct H as [H | H]; [discriminate H |]). exact H.
Defined.

(** X3.  The attributes decide only when the two tables miss: a type the
    exact-match or the pattern tier classifies keeps its kind under every
    attribute bag; and when they miss, a truthy [n8n.node.category] is the
    category used, [n8n.node.category_raw] being read only otherwise. *)
Theorem attributes_only_break_ties (s : string) (attrs : value) :
  (forall k, mapNodeToSpanKind (VStr s) VUndefined = Some k ->
             mapNodeToSpanKind (VStr s) attrs = Some k)
  /\ (mapNodeToSpanKind (VStr s) VUndefined = None -> s <> "" ->
      mapNodeToSpanKind (VStr s) attrs
      = categoryFallback s
          (if truthy (get_opt attrs "n8n.node.category")
           then get_opt attrs "n8n.node.category"
           else get_opt attrs "n8n.node.category_raw")).
Proof.
  rewrite !mapNodeToSpanKind_string. split.
  - intros k. destruct (s =? ""); [discriminate |].
    destruct (exact_lookup EXACT_SETS s); [trivial |].
    destruct (first_rule REGEX_RULES (toLowerCase s)); [trivial |].
    discriminate.
  - intros Hnone Hs. apply String.eqb_neq in Hs. rewrite Hs in *.
    destruct (exact_lookup EXACT_SETS s); [discriminate |].
    destruct (first_rule REGEX_RULES (toLowerCase s)); [discriminate |].
    reflexivity.
Qed.

Lemma attributes_only_break_ties_witness :
  mapNodeToSpanKind (VStr "OpenAi") (VObj [("n8n.node.category", VStr "Core Nodes")])
  = Some "LLM"
  /\ mapNodeToSpanKind (VStr "Zzz")
       (VObj [("n8n.node.category", VStr "");
              ("n8n.node.category_raw", VStr "Core Nodes")])
     = Some "TOOL".
Proof.
  split.
  - apply (attributes_only_break_ties "OpenAi"). reflexivity.
  - apply (attributes_only_break_ties "Zzz"); [reflexivity | discriminate].
Defined.

(** Every character is one of the 256 code units. *)
Lemma all_codes (c : ascii) : In c (map ascii_of_nat (seq 0 256)).
Proof.
  apply in_map_iff. exists (nat_of_ascii c). split.
  - apply ascii_nat_embedding.
  - apply in_seq. pose proof (nat_ascii_bounded c). lia.
Qed.

(** On a lower-cased character an atom of the rule table matches the same
    with and without the [i] flag. *)
Lemma rule_atoms_flag_blind :
  forallb (fun r =>
    forallb (fun alt =>
      forallb (fun a =>
        forallb (fun c =>
                   Bool.eqb (atom_match true a (lower_char c))
                            (atom_match false a (lower_char c)))
                (map ascii_of_nat (seq 0 256)))
        (atoms alt))
      (alts (pattern r)))
    REGEX_RULES = true.
Proof. vm_compute. reflexivity. Qed.

Lemma match_here_flag_blind (p : list atom) (s : string) :
  (forall a c, In a p ->
     atom_match true a (lower_char c) = atom_match false a (lower_char c)) ->
  match_here true p (toLowerCase s) = match_here false p (toLowerCase s).
Proof.
  revert s. induction p as [| a p IH]; intros s Hp; [reflexivity |].
  destruct s as [| c s]; [reflexivity |].
  cbn [toLowerCase match_here].
  rewrite (Hp a c (or_introl eq_refl)), IH; [reflexivity |].
  intros a' c' Hin. apply Hp. now right.
Qed.

Lemma search_flag_blind (p : list atom) (s : string) :
  (forall a c, In a p ->
     atom_match true a (lower_char c) = atom_match false a (lower_char c)) ->
  search true p (toLowerCase s) = search false p (toLowerCase s).
Proof.
  intros Hp. induction s as [| c s IH].
  - pose proof (match_here_flag_blind p "" Hp) as Hm.
    cbn [toLowerCase] in *. cbn [search]. now rewrite Hm.
  - pose proof (match_here_flag_blind p (String c s) Hp) as Hm.
    cbn [toLowerCase] in *. cbn [search]. now rewrite Hm, IH.
Qed.

Lemma rule_test_flag_blind (r : rule) (b : bool) (s : string) :
  In r REGEX_RULES ->
  test (mkRegex (alts (pattern r)) b) (toLowerCase s)
  = test (pattern r) (toLowerCase s).
Proof.
  intros Hr. unfold test. cbn [alts ignoreCase].
  pose proof rule_atoms_flag_blind as Hall.
  rewrite forallb_forall in Hall. specialize (Hall r Hr).
  rewrite forallb_forall in Hall.
  assert (Halt : forall alt, In alt (alts (pattern r)) -> forall b1 b2,
            alt_test b1 alt (toLowerCase s) = alt_test b2 alt (toLowerCase s)).
  { intros alt Halt b1 b2. specialize (Hall alt Halt).
    rewrite forallb_forall in Hall.
    assert (Hp : forall a c, In a (atoms alt) ->
              atom_match true a (lower_char c) = atom_match false a (lower_char c)).
    { intros a c Ha. specialize (Hall a Ha). rewrite forallb_forall in Hall.
      apply Bool.eqb_prop. apply Hall. apply all_codes. }
    unfold alt_test. destruct (anchored alt).
    - pose proof (match_here_flag_blind _ s Hp). destruct b1, b2; congruence.
    - pose proof (search_flag_blind _ s Hp). destruct b1, b2; congruence. }
  clear Hall. set (b' := ignoreCase (pattern r)).
  revert Halt. generalize (alts (pattern r)) as l.
  induction l as [| alt rest IH]; intros Halt; [reflexivity |].
  cbn [existsb]. rewrite (Halt alt (or_introl eq_refl) b b').
  f_equal. apply IH. intros alt' Hin. apply Halt. now right.
Qed.

(** X4.  The identifier is lower-cased before the rules are tried, so the
    [i] flags of the rules change nothing: with every flag set, or every
    flag cleared, the pattern tier gives the same answer as the table as
    written, where only the TOOL rule lacks the flag. *)
Theorem ignoreCase_flags_redundant (b : bool) (s : string) :
  first_rule (map (fun r => mkRule (kind r) (mkRegex (alts (pattern r)) b))
                  REGEX_RULES)
             (toLowerCase s)
  = first_rule REGEX_RULES (toLowerCase s).
Proof.
  assert (H : forall rules, (forall r, In r rules -> In r REGEX_RULES) ->
            first_rule (map (fun r => mkRule (kind r) (mkRegex (alts (pattern r)) b))
                            rules) (toLowerCase s)
            = first_rule rules (toLowerCase s)).
  { induction rules as [| r rest IH]; intros Hin; [reflexivity |].
    cbn [map first_rule pattern kind].
    rewrite (rule_test_flag_blind r b s (Hin r (or_introl eq_refl))).
    destruct (test (pattern r) (toLowerCase s)); [reflexivity |].
    apply IH. intros r' Hr'. apply Hin. now right. }
  apply H. trivial.
Qed.

(* ================================================================== *)
(** ** Further properties of the naming and payload helpers *)
(* ================================================================== *)

Import Config Shapes.

Lemma take_In (n : nat) (s : string) (c : ascii) :
  In c (list_ascii_of_string (take n s)) -> In c (list_ascii_of_string s).
Proof.
  revert s. induction n as [| n IH]; intros s; [intros [] |].
  destruct s as [| x rest]; simpl; [trivial |].
  intros [-> | Hin]; [now left | right; now apply IH].
Qed.

Lemma take_length_le (n : nat) (s : string) : String.length (take n s) <= n.
Proof. rewrite take_length. lia. Qed.

Lemma slice0_nat (s : string) (n : nat) :
  slice0 s (Int (Z.of_nat n)) = take n s.
Proof. now rewrite slice0_take, take_min. Qed.

(** What a sanitized segment can be. *)
Lemma sanitizeSegment_cases (value_ : value) (def : string) :
  sanitizeSegment value_ def = def
  \/ (sanitizeSegment value_ def <> ""
      /\ String.length (sanitizeSegment value_ def) <= 80
      /\ clean_segment (sanitizeSegment value_ def)).
Proof.
  unfold sanitizeSegment.
  destruct (truthy value_); cbn [negb]; [| now left].
  change (Int 80) with (Int (Z.of_nat 80)). rewrite slice0_nat.
  set (replaced := replace_other_chars _).
  rewrite truthy_VStr.
  destruct (take 80 replaced =? "") eqn:He; cbn [negb]; [now left |].
  right. split; [now apply String.eqb_neq |].
  split; [apply take_length_le |].
  intros c Hin. apply take_In in Hin.
  exact (Replaced_chars _ _ (replace_other_chars_Replaced _) c Hin).
Qed.

(** X5.  A sanitized segment is the default, or a non-empty string of at
    most 80 characters, all of them in [[A-Za-z0-9._-]]; so with a default
    that is itself such a string, every segment is one, whatever the
    value. *)
Theorem sanitizeSegment_alphabet (value_ : value) (def : string) :
  (sanitizeSegment value_ def = def
   \/ (sanitizeSegment value_ def <> ""
       /\ String.length (sanitizeSegment value_ def) <= 80
       /\ clean_segment (sanitizeSegment value_ def)))
  /\ (def <> "" -> String.length def <= 80 -> clean_segment def ->
      sanitizeSegment value_ def <> ""
      /\ String.length (sanitizeSegment value_ def) <= 80
      /\ clean_segment (sanitizeSegment value_ def)).
Proof.
  pose proof (sanitizeSegment_cases value_ def) as Hcases.
  split; [exact Hcases |].
  intros Hne Hlen Hclean.
  destruct Hcases as [-> | H]; [| exact H].
  repeat split; assumption.
Qed.

Lemma sanitizeSegment_alphabet_witness :
  sanitizeSegment (VStr "  ") "wf" <> ""
  /\ String.length (sanitizeSegment (VStr "  ") "wf") <= 80
  /\ clean_segment (sanitizeSegment (VStr "  ") "wf").
Proof.
  apply (sanitizeSegment_alphabet (VStr "  ") "wf");
    [discriminate | simpl; lia |].
  intros c Hin. simpl in Hin.
  repeat (destruct Hin as [<- | Hin]; [reflexivity |]). destruct Hin.
Defined.

Lemma segment_char_not_space (c : ascii) :
  segment_char c = true -> is_space c = false.
Proof.
  assert (H : forallb (fun x => implb (segment_char x) (negb (is_space x)))
                      (map ascii_of_nat (seq 0 256)) = true)
    by (vm_compute; reflexivity).
  rewrite forallb_forall in H. specialize (H c (all_codes c)).
  intros Hc. rewrite Hc in H. simpl in H. now apply negb_true_iff.
Qed.

Lemma clean_segment_tail (c : ascii) (s : string) :
  clean_segment (String c s) -> segment_char c = true /\ clean_segment s.
Proof.
  intros H. split; [apply H; now left |]. intros x Hx. apply H. now right.
Qed.

Lemma trimEnd_clean (s : string) : clean_segment s -> trimEnd s = s.
Proof.
  induction s as [| c s IH]; [reflexivity |].
  intros H. apply clean_segment_tail in H. destruct H as [Hc Hs].
  simpl. rewrite (segment_char_not_space c Hc), (IH Hs). reflexivity.
Qed.

Lemma trim_clean (s : string) : clean_segment s -> trim s = s.
Proof.
  intros H. unfold trim.
  assert (Hstart : trimStart s = s).
  { destruct s as [| c s]; [reflexivity |].
    apply clean_segment_tail in H. destruct H as [Hc _].
    simpl. now rewrite (segment_char_not_space c Hc). }
  rewrite Hstart. now apply trimEnd_clean.
Qed.

Lemma replace_space_runs_clean (s : string) :
  clean_segment s -> replace_space_runs false s = s.
Proof.
  induction s as [| c s IH]; [reflexivity |].
  intros H. apply clean_segment_tail in H. destruct H as [Hc Hs].
  simpl. rewrite (segment_char_not_space c Hc), (IH Hs). reflexivity.
Qed.

Lemma replace_other_chars_clean (s : string) :
  clean_segment s -> replace_other_chars s = s.
Proof.
  induction s as [| c s IH]; [reflexivity |].
  intros H. apply clean_segment_tail in H. destruct H as [Hc Hs].
  simpl. rewrite Hc, (IH Hs). reflexivity.
Qed.

Lemma take_all (n : nat) (s : string) : String.length s <= n -> take n s = s.
Proof.
  revert s. induction n as [| n IH]; intros s Hlen.
  - destruct s; [reflexivity | simpl in Hlen; lia].
  - destruct s as [| c s]; [reflexivity |]. simpl in *. rewrite IH; [reflexivity | lia].
Qed.

(** X6.  A non-empty string of at most 80 characters of the class is a
    fixed point of the sanitization; so sanitizing a sanitized segment
    again, with a default that is such a string, changes nothing. *)
Theorem sanitizeSegment_fixed_point (def : string) :
  (forall s, s <> "" -> String.length s <= 80 -> clean_segment s ->
             sanitizeSegment (VStr s) def = s)
  /\ (def <> "" -> String.length def <= 80 -> clean_segment def ->
      forall value_,
        sanitizeSegment (VStr (sanitizeSegment value_ def)) def
        = sanitizeSegment value_ def).
Proof.
  assert (Hfix : forall s, s <> "" -> String.length s <= 80 -> clean_segment s ->
                           sanitizeSegment (VStr s) def = s).
  { intros s Hne Hlen Hclean. unfold sanitizeSegment.
    apply String.eqb_neq in Hne. rewrite truthy_VStr, Hne. cbn [negb to_string].
    rewrite (trim_clean s Hclean), (replace_space_runs_clean s Hclean),
      (replace_other_chars_clean s Hclean).
    change (Int 80) with (Int (Z.of_nat 80)).
    rewrite slice0_nat, (take_all 80 s Hlen), truthy_VStr, Hne. reflexivity. }
  split; [exact Hfix |].
  intros Hne Hlen Hclean value_.
  destruct (sanitizeSegment_cases value_ def) as [-> | [H1 [H2 H3]]].
  - now apply Hfix.
  - now apply Hfix.
Qed.

Lemma sanitizeSegment_fixed_point_witness :
  sanitizeSegment (VStr "wf-1.Demo_2") "unknown" = "wf-1.Demo_2"
  /\ sanitizeSegment (VStr (sanitizeSegment (VStr " a  b@c ") "wf")) "wf"
     = sanitizeSegment (VStr " a  b@c ") "wf".
Proof.
  assert (Hclean : forall s,
            forallb segment_char (list_ascii_of_string s) = true -> clean_segment s).
  { intros s H c Hin. rewrite forallb_forall in H. now apply H. }
  split.
  - apply (sanitizeSegment_fixed_point "unknown");
      [discriminate | simpl; lia | apply Hclean; reflexivity].
  - apply (sanitizeSegment_fixed_point "wf");
      [discriminate | simpl; lia | apply Hclean; reflexivity].
Defined.

Lemma clean_segment_app (s t : string) :
  clean_segment s -> clean_segment t -> clean_segment (s ++ t).
Proof.
  intros Hs Ht. induction s as [| c s IH]; [exact Ht |].
  apply clean_segment_tail in Hs. destruct Hs as [Hc Hs].
  intros x [<- | Hin]; [exact Hc | now apply IH].
Qed.

Lemma clean_segment_b (s : string) :
  forallb segment_char (list_ascii_of_string s) = true -> clean_segment s.
Proof. intros H c Hin. rewrite forallb_forall in H. now apply H. Qed.

(** A sanitized segment with a short default of the class: its characters
    and its length. *)
Lemma sanitizeSegment_clean (value_ : value) (def : string) :
  forallb segment_char (list_ascii_of_string def) = true ->
  String.length def <= 80 ->
  clean_segment (sanitizeSegment value_ def)
  /\ String.length (sanitizeSegment value_ def) <= 80.
Proof.
  intros Hdef Hlen.
  destruct (sanitizeSegment_cases value_ def) as [-> | [_ [H2 H3]]].
  - split; [now apply clean_segment_b | assumption].
  - now split.
Qed.

(** X7.  The workflow span name is never empty.  With a pattern that is not
    blank it has at most 180 characters; without one and with dynamic
    naming it is made of characters of [[A-Za-z0-9._-]] only and has at
    most 242 of them; otherwise it is the constant name. *)
Theorem buildWorkflowSpanName_shape (cfg : naming)
        (workflowId workflowName executionId sessionId : value) :
  let pattern := match WORKFLOW_SPAN_NAME_PATTERN cfg with
                 | Some p => p
                 | None => ""
                 end in
  let name := buildWorkflowSpanName cfg workflowId workflowName executionId
                                    sessionId in
  name <> ""
  /\ (trim pattern <> "" -> String.length name <= 180)
  /\ (trim pattern = "" -> DYNAMIC_WORKFLOW_TRACE_NAME cfg = true ->
      clean_segment name /\ String.length name <= 242)
  /\ (trim pattern = "" -> DYNAMIC_WORKFLOW_TRACE_NAME cfg = false ->
      name = "n8n.workflow.execute").
Proof.
  cbv zeta. unfold buildWorkflowSpanName.
  set (pattern := match WORKFLOW_SPAN_NAME_PATTERN cfg with
                  | Some p => p
                  | None => ""
                  end).
  assert (Hblank : truthy (VStr pattern) && truthy (VStr (trim pattern))
                   = negb (trim pattern =? "")).
  { rewrite !truthy_VStr. destruct (pattern =? "") eqn:Hp; [| reflexivity].
    apply String.eqb_eq in Hp. now rewrite Hp. }
  rewrite Hblank.
  change (Int 180) with (Int (Z.of_nat 180)). rewrite slice0_nat.
  set (replaced := replace_all _ _ _).
  pose proof (sanitizeSegment_clean workflowId "wf" eq_refl) as [Hc1 Hl1];
    [simpl; lia |].
  pose proof (sanitizeSegment_clean workflowName "workflow" eq_refl) as [Hc2 Hl2];
    [simpl; lia |].
  pose proof (sanitizeSegment_clean executionId "exec" eq_refl) as [Hc3 Hl3];
    [simpl; lia |].
  assert (Hdash : clean_segment "-") by (apply clean_segment_b; reflexivity).
  destruct (trim pattern =? "") eqn:Ht; cbn [negb].
  - apply String.eqb_eq in Ht.
    destruct (DYNAMIC_WORKFLOW_TRACE_NAME cfg).
    + split.
      { destruct (sanitizeSegment workflowId "wf"); discriminate. }
      split; [intros H; now elim H |].
      split; [| discriminate].
      intros _ _. split.
      * repeat apply clean_segment_app; assumption.
      * rewrite !append_length. simpl. lia.
    + split; [discriminate |].
      split; [intros H; now elim H |].
      split; [discriminate | reflexivity].
  - apply String.eqb_neq in Ht.
    rewrite truthy_VStr.
    split.
    { destruct (take 180 replaced =? "") eqn:He; cbn [negb];
        [discriminate | now apply String.eqb_neq]. }
    split.
    { intros _. destruct (take 180 replaced =? ""); cbn [negb];
        [simpl; lia | apply take_length_le]. }
    split; intros H; now elim Ht.
Qed.

Lemma buildWorkflowSpanName_shape_witness :
  String.length (buildWorkflowSpanName (mkNaming (Some "wf:{workflowId}") true)
                   (VStr "w 1") VNull VNull VNull) <= 180
  /\ buildWorkflowSpanName (mkNaming None false) (VStr "w 1") VNull VNull VNull
     = "n8n.workflow.execute".
Proof.
  split.
  - apply (buildWorkflowSpanName_shape (mkNaming (Some "wf:{workflowId}") true)).
    discriminate.
  - apply (buildWorkflowSpanName_shape (mkNaming None false)); reflexivity.
Defined.

(* ------------------------------------------------------------------ *)

Lemma take_app_exact (s t : string) :
  take (String.length s) (s ++ t) = s.
Proof. induction s as [| c s IH]; simpl; [now destruct t | now rewrite IH]. Qed.

(** X8.  Truncation never alters what it keeps: the first [cap] characters
    of the stored payload are those of the payload, for a string and for
    any other value through its string form; [null] and [undefined] are
    stored as the empty string. *)
Theorem truncateIO_keeps_prefix (cap : nat) (v : value) :
  truncateIO (Int (Z.of_nat cap)) VNull = ""
  /\ truncateIO (Int (Z.of_nat cap)) VUndefined = ""
  /\ (v <> VNull -> v <> VUndefined ->
      truncateIO (Int (Z.of_nat cap)) v
      = truncateIO (Int (Z.of_nat cap)) (VStr (to_string v))
      /\ take cap (truncateIO (Int (Z.of_nat cap)) v) = take cap (to_string v)).
Proof.
  split; [reflexivity |]. split; [reflexivity |].
  intros Hnull Hundef.
  assert (Hstr : truncateIO (Int (Z.of_nat cap)) v
                 = truncateIO (Int (Z.of_nat cap)) (VStr (to_string v))).
  { destruct v; try reflexivity; congruence. }
  split; [exact Hstr |].
  rewrite Hstr, truncateIO_string.
  destruct (Nat.leb_spec (String.length (to_string v)) cap) as [Hle | Hgt];
    [reflexivity |].
  assert (Hlen : String.length (take cap (to_string v)) = cap)
    by (rewrite take_length; lia).
  rewrite <- Hlen at 1. apply take_app_exact.
Qed.

Lemma truncateIO_keeps_prefix_witness :
  take 3 (truncateIO (Int 3) (VNum (Int 123456))) = "123".
Proof.
  apply (truncateIO_keeps_prefix 3 (VNum (Int 123456))); discriminate.
Defined.

(** X9.  A cap that is not a number (a [TRACING_MAX_IO_CHARS] that does not
    start with digits) loses every payload: whatever the value, what is
    stored is the bare marker. *)
Theorem truncateIO_NaN_cap (v : value) :
  v <> VNull -> v <> VUndefined ->
  truncateIO NaN v = "...[truncated NaN chars]".
Proof.
  intros Hnull Hundef.
  assert (Hstr : truncateIO NaN v = truncateIO NaN (VStr (to_string v)))
    by (destruct v; try reflexivity; congruence).
  rewrite Hstr. unfold truncateIO. cbn [typeof].
  change ("string" =? "string") with true. cbv iota.
  cbn [num_le num_sub number_to_string]. unfold slice0.
  change (0 <? 0)%Z with false. cbv iota.
  replace (Z.min 0 (Z.of_nat (String.length (to_string v)))) with 0%Z by lia.
  reflexivity.
Qed.

Lemma truncateIO_NaN_cap_witness :
  truncateIO NaN (VStr "") = "...[truncated NaN chars]"
  /\ truncateIO NaN (VObj [("a", VNull)]) = "...[truncated NaN chars]".
Proof.
  split; apply truncateIO_NaN_cap; discriminate.
Defined.

(* ------------------------------------------------------------------ *)
(** *** More on the payload extractors *)

Lemma collect_arrays_slots (slots : list slot) (allItems : list value) :
  collect_arrays (map encode_slot slots) allItems
  = Normal (allItems ++ map VObj (records_of_slots slots))%list.
Proof.
  revert allItems. induction slots as [| sl rest IH]; intros allItems; simpl.
  - now rewrite app_nil_r.
  - destruct sl as [items |]; simpl.
    + rewrite push_json_items, IH, map_app, app_assoc. reflexivity.
    + apply IH.
Qed.

(** X10.  For output connections given as slots of records ([null] for an
    output without data), the output extractor returns no value when there
    is no record, and otherwise the first ten records in order with the
    primary text probed on the first one; the result is the same whether
    the slots come as [data] itself or under [data.main]. *)
Theorem extractNodeOutput_first_ten (slots : list slot) :
  let records := records_of_slots slots in
  let expected :=
    match records with
    | [] => VUndefined
    | first :: _ =>
        VObj [("primary", primaryOutput (VObj first));
              ("items", VArr (map VObj (firstn 10 records)))]
    end in
  extractNodeOutput (VObj [("data", VArr (map encode_slot slots))])
  = Normal expected
  /\ extractNodeOutput
       (VObj [("data", VObj [("main", VArr (map encode_slot slots))])])
     = Normal expected.
Proof.
  cbv zeta. unfold extractNodeOutput, extractNodeOutput_try.
  cbn [truthy negb get lookup]. change ("data" =? "data") with true. cbv iota.
  unfold collectOutputItems.
  cbn [truthy isArray andb negb typeof get lookup iterate bind].
  change ("object" =? "object") with true.
  change ("main" =? "main") with true. cbn [andb iterate bind isArray].
  rewrite collect_arrays_slots. cbn [app bind].
  destruct (records_of_slots slots) as [| first rest] eqn:Hr; [split; reflexivity |].
  cbn [map try_catch]. rewrite <- Hr.
  replace (firstn 10 (VObj first :: map VObj rest))
    with (map VObj (firstn 10 (records_of_slots slots)))
    by (rewrite Hr; symmetry; apply (firstn_map VObj 10 (first :: rest))).
  split; reflexivity.
Qed.

Lemma collect_arrays_items (conns allItems items : list value) :
  collect_arrays conns allItems = Normal items ->
  Forall (fun v => truthy v = true) allItems ->
  Forall (fun v => truthy v = true) items.
Proof.
  revert allItems. induction conns as [| c rest IH]; intros allItems; simpl.
  - now intros [= <-].
  - destruct c; simpl; try apply IH.
    intros H Hall. apply (IH _ H). clear H IH.
    unfold push_json. revert allItems Hall.
    induction items0 as [| x xs IHx]; intros allItems Hall; simpl; [assumption |].
    apply IHx. destruct (truthy (get_opt x "json")) eqn:Hx; [| assumption].
    apply Forall_app. split; [assumption |]. repeat constructor. assumption.
Qed.

(** X11.  On plain data the output extractor never answers with the
    diagnostic record: it returns no value, or an object whose [items] are
    between one and ten truthy values. *)
Theorem extractNodeOutput_shape (result : value) :
  extractNodeOutput result = Normal VUndefined
  \/ exists primary items,
       extractNodeOutput result
       = Normal (VObj [("primary", primary); ("items", VArr items)])
       /\ 1 <= List.length items <= 10
       /\ Forall (fun v => truthy v = true) items.
Proof.
  unfold extractNodeOutput, extractNodeOutput_try.
  destruct (truthy result); cbn [negb]; [| now left].
  destruct (collectOutputItems_normal (get result "data")) as [items Hitems].
  rewrite Hitems. cbn [bind].
  destruct items as [| first rest] eqn:Hi; [now left |].
  right. exists (primaryOutput first), (firstn 10 (first :: rest)).
  split; [reflexivity |].
  assert (Hall : Forall (fun v => truthy v = true) (first :: rest)).
  { revert Hitems. unfold collectOutputItems.
    destruct (truthy (get result "data") && isArray (get result "data")).
    - destruct (get result "data"); simpl; try discriminate;
        intros H; exact (collect_arrays_items _ _ _ H (Forall_nil _)).
    - destruct (truthy (get result "data") && _ && _); [| discriminate].
      destruct (isArray (get (get result "data") "main")); [| discriminate].
      destruct (get (get result "data") "main"); simpl; try discriminate;
        intros H; exact (collect_arrays_items _ _ _ H (Forall_nil _)). }
  split.
  - rewrite length_firstn. cbn [List.length]. lia.
  - rewrite <- (firstn_skipn 10 (first :: rest)) in Hall.
    apply Forall_app in Hall. exact (proj1 Hall).
Qed.

Lemma collect_truthy_bad (conns allItems : list value) (bad : value) :
  In bad conns -> truthy bad = true -> iterable bad = false ->
  collect_truthy conns allItems = Throw connection_not_iterable.
Proof.
  intros Hin Ht Hi. revert allItems.
  induction conns as [| c rest IH]; intros allItems; [destruct Hin |].
  cbn [collect_truthy].
  destruct (truthy c) eqn:Hc; cbn [negb].
  - destruct c; simpl in *; try reflexivity.
    + destruct Hin as [<- | Hin]; [discriminate | now apply IH].
    + destruct Hin as [<- | Hin]; [discriminate | now apply IH].
  - destruct Hin as [<- | Hin]; [congruence | now apply IH].
Qed.

Lemma collect_truthy_good (conns allItems : list value) :
  (forall c, In c conns -> truthy c = false \/ iterable c = true) ->
  exists items, collect_truthy conns allItems = Normal items.
Proof.
  revert allItems. induction conns as [| c rest IH]; intros allItems Hall.
  - now exists allItems.
  - cbn [collect_truthy].
    assert (Hrest : forall c', In c' rest -> truthy c' = false \/ iterable c' = true)
      by (intros c' Hc'; apply Hall; now right).
    destruct (truthy c) eqn:Hc; cbn [negb]; [| now apply IH].
    destruct (Hall c (or_introl eq_refl)) as [Hf | Hi]; [congruence |].
    destruct c; try discriminate; simpl; now apply IH.
Qed.

(** X12.  One connection of [data.main] that is truthy and cannot be
    iterated makes the input extractor answer with the diagnostic record and
    nothing else: the items of the other connections are dropped.  When
    every connection is falsy, an array or a string, the answer is never the
    diagnostic record. *)
Theorem extractNodeInput_bad_connection (conns : list value) :
  let executionData := VObj [("data", VObj [("main", VArr conns)])] in
  (forall bad, In bad conns -> truthy bad = true -> iterable bad = false ->
     extractNodeInputFromExecutionData executionData
     = Normal (VObj [("_error", VStr "TypeError: connection is not iterable")]))
  /\ ((forall c, In c conns -> truthy c = false \/ iterable c = true) ->
      exists r, extractNodeInput_try executionData = Normal r
                /\ extractNodeInputFromExecutionData executionData = Normal r).
Proof.
  cbv zeta. unfold extractNodeInputFromExecutionData, extractNodeInput_try.
  change (get_opt (get_opt (VObj [("data", VObj [("main", VArr conns)])]) "data")
                  "main") with (VArr conns).
  cbv zeta. split.
  - intros bad Hin Ht Hi.
    destruct conns as [| c rest]; [destruct Hin |].
    change (truthy (get (VArr (c :: rest)) "length")) with true.
    cbn [truthy negb orb iterate bind].
    rewrite (collect_truthy_bad _ [] bad Hin Ht Hi). reflexivity.
  - intros Hall.
    destruct conns as [| c rest]; [eexists; split; reflexivity |].
    change (truthy (get (VArr (c :: rest)) "length")) with true.
    cbn [truthy negb orb iterate bind].
    destruct (collect_truthy_good (c :: rest) [] Hall) as [items ->].
    cbn [bind]. destruct items as [| x [| y ys]]; eexists; split; reflexivity.
Qed.

Lemma extractNodeInput_bad_connection_witness :
  extractNodeInputFromExecutionData
    (VObj [("data", VObj [("main",
       VArr [VArr [VObj [("json", VObj [("a", VNull)])]]; VNum (Int 5)])])])
  = Normal (VObj [("_error", VStr "TypeError: connection is not iterable")]).
Proof.
  apply (extractNodeInput_bad_connection
           [VArr [VObj [("json", VObj [("a", VNull)])]]; VNum (Int 5)])
    with (bad := VNum (Int 5)); [simpl; auto | reflexivity | reflexivity].
Defined.

(* ================================================================== *)
(** ** Further properties of the two wrappers *)
(* ================================================================== *)

Lemma same_but_refl (keys : list string) (s : span) : same_but keys s s.
Proof. repeat split; auto. Qed.

Lemma same_but_trans (keys : list string) (s1 s2 s3 : span) :
  same_but keys s1 s2 -> same_but keys s2 s3 -> same_but keys s1 s3.
Proof.
  intros [A1 [A2 [A3 [A4 [A5 A6]]]]] [B1 [B2 [B3 [B4 [B5 B6]]]]].
  repeat split; try congruence; [| auto].
  intros k Hk. rewrite (B5 k Hk). now apply A5.
Qed.

Lemma lookup_set_prop_other (k k' : string) (v : value)
      (props : list (string * value)) :
  k <> k' -> lookup k (set_prop k' v props) = lookup k props.
Proof.
  intros Hne. induction props as [| [x y] rest IH]; simpl.
  - apply String.eqb_neq in Hne. rewrite String.eqb_sym in Hne. now rewrite Hne.
  - destruct (x =? k') eqn:Hx; simpl.
    + apply String.eqb_eq in Hx. subst x.
      apply String.eqb_neq in Hne. rewrite String.eqb_sym in Hne.
      now rewrite Hne.
    + destruct (x =? k); [reflexivity | exact IH].
Qed.

Lemma lookup_set_prop_same (k : string) (v : value)
      (props : list (string * value)) :
  lookup k (set_prop k v props) = v.
Proof.
  induction props as [| [x y] rest IH]; simpl.
  - now rewrite String.eqb_refl.
  - destruct (x =? k) eqn:Hx; simpl.
    + now rewrite String.eqb_refl.
    + now rewrite Hx.
Qed.

(** Assigning a key the object has keeps the number of its properties;
    assigning a new one appends it. *)
Lemma set_prop_has (k : string) (v : value) (props : list (string * value)) :
  has_key k props = true ->
  List.length (set_prop k v props) = List.length props.
Proof.
  unfold has_key. induction props as [| [x y] rest IH]; simpl; [discriminate |].
  destruct (x =? k); simpl; [reflexivity |]. intros H. now rewrite IH.
Qed.

Lemma set_prop_new (k : string) (v : value) (props : list (string * value)) :
  has_key k props = false -> set_prop k v props = (props ++ [(k, v)])%list.
Proof.
  unfold has_key. induction props as [| [x y] rest IH]; simpl; [reflexivity |].
  destruct (x =? k); simpl; [discriminate |]. intros H. now rewrite IH.
Qed.

Lemma set_prop_length (k : string) (v : value) (props : list (string * value)) :
  List.length (set_prop k v props) <= S (List.length props).
Proof.
  induction props as [| [x y] rest IH]; simpl; [lia |].
  destruct (x =? k); simpl; lia.
Qed.

(** What [setAttribute] does to the attributes: nothing, or the
    assignment, which it makes only for an entry it takes and only with
    room or for a key it holds. *)
Lemma setAttribute_attributes (k : string) (v : value) (s : span) :
  (span_attributes (span_setAttribute k v s) = span_attributes s
   /\ (ended s = true \/ attribute_entry (k, v) = false
       \/ (attributeCountLimit <= List.length (span_attributes s)
           /\ has_key k (span_attributes s) = false)))
  \/ (span_attributes (span_setAttribute k v s) = set_prop k v (span_attributes s)
      /\ ended s = false /\ attribute_entry (k, v) = true
      /\ (List.length (span_attributes s) < attributeCountLimit
          \/ has_key k (span_attributes s) = true)).
Proof.
  unfold span_setAttribute, attribute_entry. cbn [fst snd].
  destruct (nullish v); cbn [orb negb andb];
    [left; split; [reflexivity | rewrite andb_false_r; auto] |].
  destruct (ended s); [left; auto |].
  destruct (k =? ""); cbn [negb andb]; [left; auto |].
  destruct (isAttributeValue v); cbn [negb]; [| left; auto].
  destruct (attributeCountLimit <=? List.length (span_attributes s))%nat eqn:Hfull;
    cbn [andb].
  - apply Nat.leb_le in Hfull.
    destruct (has_key k (span_attributes s)); cbn [negb];
      [right; auto | left; auto].
  - apply Nat.leb_gt in Hfull. right. auto.
Qed.

Lemma setAttribute_within (k : string) (v : value) (s : span) :
  within_limit s -> within_limit (span_setAttribute k v s).
Proof.
  unfold within_limit. intros Hs.
  destruct (setAttribute_attributes k v s) as [[-> _] | [-> [_ [_ [H | H]]]]];
    [assumption | | now rewrite set_prop_has].
  pose proof (set_prop_length k v (span_attributes s)). lia.
Qed.

Lemma setAttribute_lookup_other (k k' : string) (v : value) (s : span) :
  k <> k' ->
  lookup k (span_attributes (span_setAttribute k' v s)) = lookup k (span_attributes s).
Proof.
  intros Hne.
  destruct (setAttribute_attributes k' v s) as [[-> _] | [-> _]];
    [reflexivity | now apply lookup_set_prop_other].
Qed.

Lemma setAttribute_same_but (keys : list string) (k : string) (v : value)
      (s : span) :
  In k keys -> same_but keys s (span_setAttribute k v s).
Proof.
  intros Hin.
  destruct (setAttribute_effect k v s) as [A1 [A2 [A3 A4]]].
  repeat split; try assumption.
  - intros k' Hk'. apply setAttribute_lookup_other. intros ->. contradiction.
  - apply setAttribute_within.
Qed.

(** The attributes of a started span are within the limit, and a key that
    no entry names is not defined. *)
Lemma set_attributes_within (attributes : list (string * value)) (s : span) :
  within_limit s ->
  within_limit (fold_left (fun s kv => span_setAttribute (fst kv) (snd kv) s)
                          attributes s).
Proof.
  revert s. induction attributes as [| [k v] rest IH]; intros s Hs; [exact Hs |].
  cbn [fold_left fst snd]. apply IH. now apply setAttribute_within.
Qed.

Lemma startSpan_within (name : value) (attributes : list (string * value)) :
  within_limit (startSpan name attributes).
Proof.
  apply set_attributes_within. unfold within_limit. cbn. lia.
Qed.

Lemma set_attributes_lookup_other (k : string) (attributes : list (string * value))
      (s : span) :
  Forall (fun kv => fst kv <> k) attributes ->
  lookup k (span_attributes
              (fold_left (fun s kv => span_setAttribute (fst kv) (snd kv) s)
                         attributes s))
  = lookup k (span_attributes s).
Proof.
  revert s. induction attributes as [| [k' v] rest IH]; intros s Hall; [reflexivity |].
  cbn [fold_left fst snd]. inversion Hall as [| ? ? Hk Hrest]; subst.
  rewrite (IH _ Hrest). apply setAttribute_lookup_other. cbn in Hk. congruence.
Qed.

(** A list of at most [attributeCountLimit] entries the span takes, with
    distinct keys, is what the started span holds. *)
Lemma has_key_In (k : string) (props : list (string * value)) :
  has_key k props = true <-> In k (map fst props).
Proof.
  unfold has_key. rewrite existsb_exists. split.
  - intros [[x y] [Hin Hx]]. cbn in Hx. apply String.eqb_eq in Hx. subst x.
    apply in_map_iff. now exists (k, y).
  - intros Hin. apply in_map_iff in Hin. destruct Hin as [[x y] [Hx Hin]].
    cbn in Hx. subst x. exists (k, y). split; [assumption |]. apply String.eqb_refl.
Qed.

Lemma set_attributes_fits (attributes held : list (string * value)) (s : span) :
  ended s = false ->
  span_attributes s = held ->
  NoDup (map fst (held ++ attributes)) ->
  forallb attribute_entry attributes = true ->
  List.length (held ++ attributes) <= attributeCountLimit ->
  span_attributes
    (fold_left (fun s kv => span_setAttribute (fst kv) (snd kv) s) attributes s)
  = (held ++ attributes)%list.
Proof.
  revert held s. induction attributes as [| [k v] rest IH];
    intros held s Hopen Hheld Hnodup Hvalid Hlen.
  - now rewrite app_nil_r.
  - cbn [fold_left fst snd]. cbn [forallb] in Hvalid.
    apply andb_true_iff in Hvalid. destruct Hvalid as [Hkv Hrest].
    assert (Hnew : has_key k held = false).
    { destruct (has_key k held) eqn:Hk; [| reflexivity].
      apply has_key_In in Hk. rewrite map_app in Hnodup.
      apply NoDup_remove_2 in Hnodup. exfalso. apply Hnodup.
      apply in_or_app. now left. }
    assert (Hroom : List.length held < attributeCountLimit).
    { rewrite length_app in Hlen. cbn [List.length] in Hlen. lia. }
    replace (held ++ (k, v) :: rest)%list with ((held ++ [(k, v)]) ++ rest)%list
      in * by (rewrite <- app_assoc; reflexivity).
    apply IH; try assumption.
    + unfold ended. destruct (setAttribute_effect k v s) as [_ [_ [_ ->]]].
      exact Hopen.
    + destruct (setAttribute_attributes k v s)
        as [[_ [H | [H | [H1 H2]]]] | [-> _]].
      * congruence.
      * congruence.
      * rewrite Hheld in H1. lia.
      * rewrite Hheld. now apply set_prop_new.
Qed.

Lemma startSpan_fits (name : value) (attributes : list (string * value)) :
  NoDup (map fst attributes) ->
  forallb attribute_entry attributes = true ->
  List.length attributes <= attributeCountLimit ->
  span_attributes (startSpan name attributes) = attributes.
Proof.
  intros Hnodup Hvalid Hlen.
  exact (set_attributes_fits attributes [] (mkSpan name [] (UNSET, None) [] 0)
           eq_refl eq_refl Hnodup Hvalid Hlen).
Qed.

Section Records.

Variable cfg : config.
Variable JSON_stringify : value -> completion value.
Variable keys : list string.

Lemma only_ret {A : Type} (a : A) : only_sets keys (ret a).
Proof. intros s. apply same_but_refl. Qed.

Lemma only_lift {A : Type} (c : completion A) : only_sets keys (lift c).
Proof. intros s. apply same_but_refl. Qed.

Lemma only_attributes : only_sets keys attributes.
Proof. intros s. apply same_but_refl. Qed.

Lemma only_setAttribute (k : string) (v : value) :
  In k keys -> only_sets keys (setAttribute k v).
Proof. intros Hin s. now apply setAttribute_same_but. Qed.

Lemma only_bindM {A B : Type} (m : spanM A) (k : A -> spanM B) :
  only_sets keys m -> (forall a, only_sets keys (k a)) ->
  only_sets keys (bindM m k).
Proof.
  intros Hm Hk s. unfold bindM.
  specialize (Hm s). destruct (m s) as [[a | e] s']; simpl in *.
  - exact (same_but_trans _ _ _ _ Hm (Hk a s')).
  - exact Hm.
Qed.

Lemma only_tryM {A : Type} (body : spanM A) (handler : thrown -> spanM A) :
  only_sets keys body -> (forall e, only_sets keys (handler e)) ->
  only_sets keys (tryM body handler).
Proof.
  intros Hb Hh s. unfold tryM.
  specialize (Hb s). destruct (body s) as [[a | e] s']; simpl in *.
  - exact Hb.
  - exact (same_but_trans _ _ _ _ Hb (Hh e s')).
Qed.

Lemma only_if {A : Type} (b : bool) (m1 m2 : spanM A) :
  only_sets keys m1 -> only_sets keys m2 -> only_sets keys (if b then m1 else m2).
Proof. now destruct b. Qed.

Lemma only_io_string (obj : value) :
  only_sets keys (io_string cfg JSON_stringify obj).
Proof.
  unfold io_string. apply only_bindM; [apply only_lift | intros j; apply only_ret].
Qed.

End Records.

Ltac only_step :=
  first
    [ apply only_ret | apply only_lift | apply only_attributes
    | apply only_io_string
    | apply only_setAttribute; simpl; tauto
    | apply only_bindM; [| intros ?]
    | apply only_tryM; [| intros ?]
    | apply only_if ].

Section Capture.

Variable cfg : config.
Variable JSON_stringify : value -> completion value.

Lemma only_captureNodeInput (spanKind : string) (executionData : value) :
  only_sets NODE_IO_KEYS (captureNodeInput cfg JSON_stringify spanKind executionData).
Proof. unfold captureNodeInput. repeat only_step. Qed.

Lemma only_captureNodeOutput (spanKind : string) (result : value) :
  only_sets NODE_IO_KEYS (captureNodeOutput cfg JSON_stringify spanKind result).
Proof. unfold captureNodeOutput. repeat only_step. Qed.

Lemma only_captureWorkflowOutput (result : value) :
  only_sets WORKFLOW_IO_KEYS (captureWorkflowOutput cfg JSON_stringify result).
Proof.
  unfold captureWorkflowOutput. repeat only_step.
  destruct a; repeat only_step.
Qed.

End Capture.

Section WrapperRecords.

Variable cfg : config.
Variable JSON_stringify : value -> completion value.

(** A [try] whose handler swallows the error completes normally, with the
    span as the body left it. *)
Lemma tryM_swallow (body : spanM unit) (s : span) :
  tryM body (fun _ => ret tt) s = (Normal tt, snd (body s)).
Proof. unfold tryM, ret. destruct (body s) as [[[] | e] s']; reflexivity. Qed.

(** The span the step wrapper leaves, by the outcome of the wrapped call:
    [s1] is the started span with whatever the captures wrote. *)
Lemma runNodeInSpan_record (spanKind : string) (executionData : value)
      (call : call_outcome) (s0 : span) :
  exists s1,
    same_but NODE_IO_KEYS s0 s1
    /\ (CAPTURE_IO cfg = false -> s1 = s0)
    /\ runNodeInSpan cfg JSON_stringify spanKind executionData call s0
       = match await call with
         | Normal v => (Normal v, span_end (span_setStatus OK None s1))
         | Throw error =>
             match status_message error with
             | Normal message =>
                 (Throw error,
                  span_end
                    (span_setAttribute "n8n.node.status" (VStr "error")
                       (span_setStatus ERROR (Some message)
                          (span_recordException error s1))))
             | Throw e => (Throw e, span_end (span_recordException error s1))
             end
         end.
Proof.
  unfold runNodeInSpan.
  set (capture := if CAPTURE_IO cfg then _ else _).
  assert (Hcap : exists sa, capture s0 = (Normal tt, sa)
                   /\ same_but NODE_IO_KEYS s0 sa
                   /\ (CAPTURE_IO cfg = false -> sa = s0)).
  { subst capture. destruct (CAPTURE_IO cfg).
    - rewrite tryM_swallow. eexists. split; [reflexivity |].
      split; [apply only_captureNodeInput | discriminate].
    - exists s0. split; [reflexivity |]. split; [apply same_but_refl | trivial]. }
  destruct Hcap as [sa [Hrun [Hsame Hoff]]].
  set (body := finallyM _ _).
  unfold bindM. rewrite Hrun. clear Hrun capture. subst body.
  unfold finallyM, tryM at 1, bindM at 1, lift.
  destruct (await call) as [v | error].
  - unfold bindM. rewrite tryM_swallow. cbn.
    exists (snd (captureNodeOutput cfg JSON_stringify spanKind v sa)).
    split.
    { apply (same_but_trans _ _ _ _ Hsame). apply only_captureNodeOutput. }
    split; [| reflexivity].
    intros Hc. rewrite (Hoff Hc). unfold captureNodeOutput. now rewrite Hc.
  - exists sa. split; [assumption |]. split; [assumption |].
    unfold bindM, recordException, setStatus, setAttribute, throw, end_, update, lift.
    cbv beta iota. now destruct (status_message error).
Qed.

(** The span the promise chain of the workflow wrapper leaves, by the
    settlement of the engine's promise: the handlers mark it, the capture
    writes its attributes, then it is ended. *)
Lemma promise_chain_record (workflowId workflowName : value) (p : promise)
      (s0 : span) :
  exists s2,
    same_but WORKFLOW_IO_KEYS (settled_span p s0) s2
    /\ (CAPTURE_IO cfg = false -> s2 = settled_span p s0)
    /\ snd (finallyM (then_ p (onFulfilled cfg JSON_stringify workflowId workflowName)
                            onRejected) end_ s0)
       = span_end s2.
Proof.
  destruct p as [result | error].
  2: { exists (settled_span (Rejected error) s0).
       split; [apply same_but_refl |]. split; [trivial |].
       unfold then_, onRejected, settled_span, finallyM, bindM, recordException,
         setStatus, end_, update, lift.
       cbv beta iota. now destruct (status_message error). }
  unfold then_, onFulfilled, settled_span.
  set (err := get_opt (get_opt (get_opt result "data") "resultData") "error").
  set (rest := if CAPTURE_IO cfg then _ else _).
  assert (Hrest : only_sets WORKFLOW_IO_KEYS rest
                  /\ (CAPTURE_IO cfg = false -> forall s, snd (rest s) = s)).
  { subst rest. split.
    - apply only_if; [| apply only_ret].
      apply only_bindM;
        [apply only_tryM; [apply only_captureWorkflowOutput | intros ?; apply only_ret] |].
      intros ?. repeat only_step.
    - intros ->. reflexivity. }
  destruct Hrest as [Honly Hoff].
  cbv zeta.
  set (marked := if truthy err then span_setStatus _ _ _ else _).
  exists (snd (rest marked)).
  split; [apply Honly |]. split; [intros Hc; now apply Hoff |].
  unfold finallyM, bindM.
  assert (Hmark : (if truthy err
                   then (recordException (ThrownValue err);;
                         setStatus ERROR
                           (Some (to_string (or_else (get err "message") err))))%span
                   else setStatus OK None) s0 = (Normal tt, marked)).
  { subst marked. destruct (truthy err); reflexivity. }
  unfold bindM in Hmark. rewrite Hmark.
  destruct (rest marked) as [r s2]. reflexivity.
Qed.

End WrapperRecords.

Lemma not_ended_start (name : value) (attrs : list (string * value)) :
  ended (startSpan name attrs) = false.
Proof.
  unfold ended. destruct (startSpan_fresh name attrs) as [_ [_ [_ ->]]]. reflexivity.
Qed.

Lemma same_but_ended (keys : list string) (s s' : span) :
  same_but keys s s' -> ended s' = ended s.
Proof. intros [_ [_ [_ [H _]]]]. unfold ended. now rewrite H. Qed.

Lemma span_kind_truthy (k : string) : In k SPAN_KINDS -> truthy (VStr k) = true.
Proof.
  simpl. intros H.
  repeat (destruct H as [<- | H]; [reflexivity |]). destruct H.
Qed.

(** *** The attributes the step wrapper starts its span with *)

Lemma set_prop_keeps_other (k0 k : string) (v : value)
      (props : list (string * value)) :
  k <> k0 ->
  Forall (fun kv => fst kv <> k0) props ->
  Forall (fun kv => fst kv <> k0) (set_prop k v props).
Proof.
  intros Hne Hall. induction Hall as [| [x y] rest Hx Hrest IH]; cbn.
  - repeat constructor. exact Hne.
  - destruct (x =? k); constructor; auto.
Qed.

Lemma set_prop_n8n (k : string) (v : value) (props : list (string * value)) :
  String.prefix "n8n." k = true ->
  Forall (fun kv => String.prefix "n8n." (fst kv) = true) props ->
  Forall (fun kv => String.prefix "n8n." (fst kv) = true) (set_prop k v props).
Proof.
  intros Hk Hall. induction Hall as [| [x y] rest Hx Hrest IH]; cbn.
  - repeat constructor. exact Hk.
  - destruct (x =? k); constructor; auto.
Qed.

(** Every key of [n8nNodeAttrs] starts with n8n. *)
Lemma addFlattenedNode_n8n (JSON_stringify : value -> completion value)
      (flattenedNode n8nNodeAttrs r : list (string * value)) :
  Forall (fun kv => String.prefix "n8n." (fst kv) = true) n8nNodeAttrs ->
  addFlattenedNode JSON_stringify flattenedNode n8nNodeAttrs = Normal r ->
  Forall (fun kv => String.prefix "n8n." (fst kv) = true) r.
Proof.
  revert n8nNodeAttrs.
  induction flattenedNode as [| [key v] rest IH]; intros n8nNodeAttrs Hall; cbn.
  - now intros [= <-].
  - destruct ((typeof v =? "string") || (typeof v =? "number")).
    + apply IH. now apply set_prop_n8n.
    + destruct (JSON_stringify v) as [json | e]; cbn; [| discriminate].
      apply IH. now apply set_prop_n8n.
Qed.

(** Spreading an object whose keys all differ from the first key of the
    target leaves that first property in place, alone under its key. *)
Lemma spread_head (source rest : list (string * value)) (k0 : string) (v0 : value) :
  Forall (fun kv => fst kv <> k0) source ->
  Forall (fun kv => fst kv <> k0) rest ->
  exists rest',
    spread source ((k0, v0) :: rest) = (k0, v0) :: rest'
    /\ Forall (fun kv => fst kv <> k0) rest'.
Proof.
  unfold spread. intros Hsource. revert rest.
  induction Hsource as [| [k v] source Hk Hsource IH]; intros rest Hrest.
  - exists rest. now split.
  - cbn [fold_left fst snd set_prop]. cbn in Hk.
    destruct (k0 =? k) eqn:Heq; [apply String.eqb_eq in Heq; congruence |].
    apply IH. now apply set_prop_keeps_other.
Qed.

Section StepSpan.

Variable cfg : config.
Variable JSON_stringify : value -> completion value.
Variable flatten : value -> completion (list (string * value)).

(** What the wrapper computes before it starts the span, when nothing
    throws: a span kind among the ten, the name the two naming flags ask
    for, and attributes that give the started span its kind. *)
Lemma nodeSpanStart_shape (workflow executionData additionalData : value)
      (spanKind : string) (nodeSpanName : value)
      (nodeAttributes : list (string * value)) :
  nodeSpanStart cfg JSON_stringify flatten workflow executionData additionalData
  = Normal (spanKind, nodeSpanName, nodeAttributes) ->
  In spanKind SPAN_KINDS
  /\ nodeSpanName
     = (if USE_NODE_NAME_SPAN cfg
        then or_else (get_opt (nullish_or (get_opt executionData "node")
                                          (VStr "unknown")) "name")
                     (VStr "unknown-node")
        else if SPAN_KIND_IN_NODE_SPAN_NAME cfg
             then VStr ("n8n.node." ++ spanKind ++ ".execute")
             else VStr "n8n.node.execute")
  /\ lookup "openinference.span.kind"
            (span_attributes (startSpan nodeSpanName nodeAttributes))
     = VStr spanKind.
Proof.
  unfold nodeSpanStart.
  set (node := nullish_or (get_opt executionData "node") (VStr "unknown")).
  destruct (flatten (nullish_or node (VObj []))) as [flattenedNode | e];
    cbn [bind]; [| discriminate].
  destruct (addFlattenedNode JSON_stringify flattenedNode _)
    as [n8nNodeAttrs | e] eqn:Hattrs; cbn [bind]; [| discriminate].
  destruct (safeJSONStringify JSON_stringify _) as [metadata | e];
    cbn [bind]; [| discriminate].
  set (kind := nodeSpanKind _ _ _).
  intros [= <- <- <-].
  pose proof (nodeSpanKind_valid_kinds (MAP_OPENINFERENCE_SPAN_KINDS cfg)
                (get_opt node "type") (VObj n8nNodeAttrs)) as Hvalid.
  fold kind in Hvalid.
  split; [exact Hvalid |].
  pose proof (span_kind_truthy kind Hvalid) as Htruthy.
  rewrite truthy_VStr in Htruthy.
  split; [now rewrite Htruthy, andb_true_r |].
  apply addFlattenedNode_n8n in Hattrs; [| repeat constructor].
  assert (Hne : Forall (fun kv => fst kv <> "openinference.span.kind") n8nNodeAttrs).
  { eapply Forall_impl; [| exact Hattrs]. intros [k v] Hk Heq. cbn in *.
    subst k. discriminate Hk. }
  destruct (spread_head n8nNodeAttrs
              [("session.id", deriveSessionId (nodeExecutionId additionalData));
               ("user.id", nullish_or (get_opt additionalData "userId") (VStr "unknown"))]
              "openinference.span.kind" (VStr kind) Hne) as [rest [-> Hrest]].
  { repeat constructor; discriminate. }
  cbn [set_prop]. change ("openinference.span.kind" =? "metadata") with false.
  cbv iota. unfold startSpan. cbn [fold_left fst snd].
  rewrite set_attributes_lookup_other
    by (apply set_prop_keeps_other; [discriminate | exact Hrest]).
  unfold span_setAttribute. cbn. reflexivity.
Qed.

End StepSpan.

(** The exceptions a span that had none and has not ended holds after
    [recordException]. *)
Lemma recordException_first (x : thrown) (s : span) :
  ended s = false -> span_exceptions s = [] ->
  span_exceptions (span_recordException x s) = recorded x.
Proof.
  intros Hopen Hnone. unfold span_recordException, recorded.
  destruct (exception_recorded x); [| exact Hnone].
  rewrite Hopen. cbn [span_exceptions]. now rewrite Hnone.
Qed.

(** Reading the message of what was caught throws just for [null] and
    [undefined], and what it throws is a [TypeError]. *)
Lemma status_message_throws (error e : thrown) :
  status_message error = Throw e ->
  (error = ThrownValue VUndefined \/ error = ThrownValue VNull)
  /\ exists message, e = ThrownError (mkError "TypeError" message).
Proof.
  destruct error as [err | v]; [discriminate |].
  destruct v; cbn; try discriminate; intros [= <-]; split; eauto.
Qed.

(** X13.  The step wrapper is transparent from the moment it has started
    its span: the promise it returns then settles as the wrapped call
    does, with the same result or the same error, whatever the
    configuration and whatever the extraction and [JSON.stringify] do
    while the payloads are captured.  Two cases are not transparent.  A
    throw while the attributes of the span are built, by [flatten] or by
    [JSON.stringify], rejects the promise and the wrapped method is never
    called.  And a call that fails with [null] or [undefined] is answered
    with the [TypeError] of reading its message.  Without a [this] the
    wrapper passes the call through and starts no span. *)
Theorem runNode_transparent (cfg : config)
        (JSON_stringify : value -> completion value)
        (flatten : value -> completion (list (string * value)))
        (this_defined : bool) (workflow executionData additionalData : value)
        (call : call_outcome) :
  let r := runNode cfg JSON_stringify flatten this_defined workflow executionData
                   additionalData call in
  (this_defined = false -> r = (await call, None))
  /\ (this_defined = true ->
      match nodeSpanStart cfg JSON_stringify flatten workflow executionData
                          additionalData with
      | Throw e =>
          forall call',
            runNode cfg JSON_stringify flatten true workflow executionData
                    additionalData call' = (Throw e, None)
      | Normal _ =>
          (exists s, snd r = Some s)
          /\ match await call with
             | Normal v => fst r = Normal v
             | Throw error =>
                 match status_message error with
                 | Normal _ => fst r = Throw error
                 | Throw e => fst r = Throw e
                 end
             end
      end)
  /\ (forall error,
        (exists e, status_message error = Throw e)
        <-> error = ThrownValue VUndefined \/ error = ThrownValue VNull)
  /\ (forall error e,
        status_message error = Throw e ->
        exists message, e = ThrownError (mkError "TypeError" message)).
Proof.
  cbv zeta. split; [intros ->; reflexivity |]. split.
  - intros ->.
    pose proof (runNode_span_lifecycle cfg JSON_stringify flatten workflow
                  executionData additionalData call) as H.
    cbv zeta in H.
    destruct (nodeSpanStart cfg JSON_stringify flatten workflow executionData
                            additionalData) as [start | e] eqn:Hstart.
    + destruct H as [s [Hs [_ H]]]. split; [eauto |].
      destruct (await call) as [v | error]; [exact (proj1 H) |].
      destruct (status_message error); exact (proj1 H).
    + intros call'. unfold runNode. cbn [negb]. now rewrite Hstart.
  - split.
    + intros error. split.
      * intros [e He]. exact (proj1 (status_message_throws _ _ He)).
      * intros [-> | ->]; eexists; reflexivity.
    + intros error e He. exact (proj2 (status_message_throws _ _ He)).
Qed.

Lemma runNode_transparent_witness :
  runNode (mkConfig true false true true (Int 12000))
          (fun _ => Throw (mkError "TypeError" "cyclic"))
          (fun _ => Normal [])
          true (VObj [("id", VStr "wf1")])
          (VObj [("node", VObj [("type", VStr "OpenAi"); ("name", VStr "Model")])])
          (VObj [("executionId", VStr "e1")])
          (Normal (Fulfilled (VStr "done")))
  = (Throw (mkError "TypeError" "cyclic"), None)
  /\ fst (runNode (mkConfig true false true true (Int 12000))
            (fun v => if truthy (get v "n8n.workflow.id")
                      then Normal (VStr "{}")
                      else Throw (mkError "TypeError" "cyclic"))
            (fun _ => Normal [])
            true (VObj [("id", VStr "wf1")])
            (VObj [("node", VObj [("type", VStr "OpenAi"); ("name", VStr "Model")]);
                   ("data", VObj [("main", VArr [VArr [VObj [("json", VObj [])]]])])])
            (VObj [("executionId", VStr "e1")])
            (Normal (Rejected (mkError "Error" "boom"))))
     = Throw (mkError "Error" "boom").
Proof.
  split.
  - destruct (runNode_transparent (mkConfig true false true true (Int 12000))
                (fun _ => Throw (mkError "TypeError" "cyclic"))
                (fun _ => Normal [])
                true (VObj [("id", VStr "wf1")])
                (VObj [("node", VObj [("type", VStr "OpenAi"); ("name", VStr "Model")])])
                (VObj [("executionId", VStr "e1")])
                (Normal (Fulfilled (VStr "done")))) as [_ [H _]].
    exact (H eq_refl (Normal (Fulfilled (VStr "done")))).
  - destruct (runNode_transparent (mkConfig true false true true (Int 12000))
                (fun v => if truthy (get v "n8n.workflow.id")
                          then Normal (VStr "{}")
                          else Throw (mkError "TypeError" "cyclic"))
                (fun _ => Normal [])
                true (VObj [("id", VStr "wf1")])
                (VObj [("node", VObj [("type", VStr "OpenAi"); ("name", VStr "Model")]);
                       ("data", VObj [("main", VArr [VArr [VObj [("json", VObj [])]]])])])
                (VObj [("executionId", VStr "e1")])
                (Normal (Rejected (mkError "Error" "boom")))) as [_ [H _]].
    exact (proj2 (H eq_refl)).
Defined.

(** X14.  The span of a step, when nothing throws before it is started.
    It is ended once.  Its kind is one of the ten span kinds, its name is
    the node's name (or unknown-node), the name built from the kind, or the
    constant name, by the two naming flags.  It holds the kind under
    [openinference.span.kind] and never more than [attributeCountLimit]
    attributes; apart from the payload keys and [n8n.node.status] its
    attributes are the ones the started span took, a span that is full
    taking none.  When the call returns, the status is OK and no exception
    is recorded.  When it fails, the error is recorded if it has a type or
    a message, the status is ERROR with its message, and [n8n.node.status]
    says error unless the span is full; after a failure with [null] or
    [undefined] the status is left unset. *)
Theorem runNode_span_record (cfg : config)
        (JSON_stringify : value -> completion value)
        (flatten : value -> completion (list (string * value)))
        (workflow executionData additionalData : value) (call : call_outcome) :
  match nodeSpanStart cfg JSON_stringify flatten workflow executionData
                      additionalData with
  | Throw e =>
      runNode cfg JSON_stringify flatten true workflow executionData
              additionalData call = (Throw e, None)
  | Normal (spanKind, nodeSpanName, nodeAttributes) =>
      let started := startSpan nodeSpanName nodeAttributes in
      exists s,
        snd (runNode cfg JSON_stringify flatten true workflow executionData
                     additionalData call) = Some s
        /\ span_end_calls s = 1
        /\ In spanKind SPAN_KINDS
        /\ span_name s = nodeSpanName
        /\ nodeSpanName
           = (if USE_NODE_NAME_SPAN cfg
              then or_else (get_opt (nullish_or (get_opt executionData "node")
                                                (VStr "unknown")) "name")
                           (VStr "unknown-node")
              else if SPAN_KIND_IN_NODE_SPAN_NAME cfg
                   then VStr ("n8n.node." ++ spanKind ++ ".execute")
                   else VStr "n8n.node.execute")
        /\ lookup "openinference.span.kind" (span_attributes s) = VStr spanKind
        /\ List.length (span_attributes s) <= attributeCountLimit
        /\ (forall k, ~ In k NODE_IO_KEYS -> k <> "n8n.node.status" ->
              lookup k (span_attributes s) = lookup k (span_attributes started))
        /\ match await call with
           | Normal _ =>
               span_status s = (OK, None)
               /\ span_exceptions s = []
               /\ lookup "n8n.node.status" (span_attributes s)
                  = lookup "n8n.node.status" (span_attributes started)
           | Throw error =>
               span_exceptions s = recorded error
               /\ match status_message error with
                  | Normal message =>
                      span_status s = (ERROR, Some message)
                      /\ (lookup "n8n.node.status" (span_attributes s) = VStr "error"
                          \/ (attributeCountLimit <= List.length (span_attributes s)
                              /\ lookup "n8n.node.status" (span_attributes s)
                                 = lookup "n8n.node.status"
                                          (span_attributes started)))
                  | Throw _ => span_status s = (UNSET, None)
                  end
           end
  end.
Proof.
  unfold runNode. cbn [negb].
  destruct (nodeSpanStart cfg JSON_stringify flatten workflow executionData
                          additionalData)
    as [[[spanKind nodeSpanName] nodeAttributes] | e] eqn:Hstart; [| reflexivity].
  destruct (nodeSpanStart_shape _ _ _ _ _ _ _ _ _ Hstart) as [Hvalid [Hname Hkind0]].
  cbv zeta.
  set (started := startSpan nodeSpanName nodeAttributes) in *.
  destruct (runNodeInSpan_record cfg JSON_stringify spanKind executionData call
              started) as [s1 [Hsame [_ Hrun]]].
  rewrite Hrun. clear Hrun.
  pose proof (same_but_ended _ _ _ Hsame) as Hend.
  unfold started in Hend. rewrite not_ended_start in Hend. fold started in Hend.
  destruct (startSpan_fresh nodeSpanName nodeAttributes) as [F1 [F2 [F3 F4]]].
  fold started in F1, F2, F3, F4.
  pose proof (startSpan_within nodeSpanName nodeAttributes) as Hwithin.
  fold started in Hwithin.
  destruct Hsame as [Hn [Hst [Hex [Hec [Hattr Hlim]]]]].
  specialize (Hlim Hwithin). unfold within_limit in Hlim.
  assert (Hkey : forall k, k = "openinference.span.kind" \/ k = "n8n.node.status" ->
                           ~ In k NODE_IO_KEYS).
  { intros k [-> | ->]; simpl; intros H;
      repeat (destruct H as [H | H]; [discriminate H |]); exact H. }
  assert (Hkind : lookup "openinference.span.kind" (span_attributes s1) = VStr spanKind).
  { rewrite Hattr by (apply Hkey; now left). exact Hkind0. }
  assert (Hstatus0 : lookup "n8n.node.status" (span_attributes s1)
                     = lookup "n8n.node.status" (span_attributes started)).
  { apply Hattr, Hkey. now right. }
  destruct (await call) as [v | error].
  - exists (span_end (span_setStatus OK None s1)).
    unfold span_setStatus. rewrite Hend.
    cbn [snd span_end span_end_calls span_name span_attributes span_status
         span_exceptions].
    rewrite Hec, F4, Hn, F1, Hex, F3.
    repeat (split; [reflexivity || assumption |]).
    split; [intros k Hk _; now apply Hattr |].
    repeat split. exact Hstatus0.
  - assert (Hrec : span_exceptions (span_recordException error s1) = recorded error).
    { apply recordException_first; [exact Hend | now rewrite Hex]. }
    destruct (recordException_effect error s1) as [R1 [R2 [R3 R4]]].
    destruct (status_message error) as [message | e'].
    + set (s2 := span_setStatus ERROR (Some message) (span_recordException error s1)).
      assert (Hs2 : span_name s2 = span_name s1
                    /\ span_status s2 = (ERROR, Some message)
                    /\ span_exceptions s2 = recorded error
                    /\ span_end_calls s2 = 0
                    /\ span_attributes s2 = span_attributes s1).
      { subst s2. unfold span_setStatus, ended. rewrite R4, Hec, F4.
        cbn. rewrite R1, R3. auto. }
      destruct Hs2 as [S1 [S2 [S3 [S4 S5]]]].
      destruct (setAttribute_effect "n8n.node.status" (VStr "error") s2)
        as [A1 [A2 [A3 A4]]].
      exists (span_end (span_setAttribute "n8n.node.status" (VStr "error") s2)).
      cbn [snd span_end span_end_calls span_name span_attributes span_status
           span_exceptions].
      rewrite A1, A2, A3, A4, S1, S2, S3, S4, Hn, F1.
      split; [reflexivity |]. split; [reflexivity |].
      split; [exact Hvalid |]. split; [reflexivity |]. split; [exact Hname |].
      split.
      { rewrite setAttribute_lookup_other by discriminate. now rewrite S5. }
      split.
      { apply setAttribute_within. unfold within_limit. now rewrite S5. }
      split.
      { intros k Hk Hs. rewrite setAttribute_lookup_other by assumption.
        rewrite S5. now apply Hattr. }
      split; [reflexivity |]. split; [reflexivity |].
      destruct (setAttribute_attributes "n8n.node.status" (VStr "error") s2)
        as [[-> [H | [H | [H1 H2]]]] | [-> _]].
      * unfold ended in H. rewrite S4 in H. discriminate H.
      * discriminate H.
      * right. rewrite S5 in *. split; [exact H1 | exact Hstatus0].
      * left. apply lookup_set_prop_same.
    + exists (span_end (span_recordException error s1)).
      cbn [snd span_end span_end_calls span_name span_attributes span_status
           span_exceptions].
      rewrite R1, R2, R3, R4, Hn, F1, Hst, F2, Hec, F4.
      split; [reflexivity |]. split; [reflexivity |].
      split; [exact Hvalid |]. split; [reflexivity |]. split; [exact Hname |].
      split; [exact Hkind |]. split; [exact Hlim |].
      split; [intros k Hk _; now apply Hattr |].
      split; [exact Hrec | reflexivity].
Qed.

Lemma runNode_span_record_witness :
  exists s,
    snd (runNode (mkConfig true true false true (Int 12000))
           (fun _ => Normal (VStr "{}"))
           (fun _ => Normal [("type", VStr "OpenAi"); ("name", VStr "Model")])
           true (VObj [("id", VStr "wf1")])
           (VObj [("node", VObj [("type", VStr "OpenAi"); ("name", VStr "Model")])])
           (VObj [("executionId", VStr "e1")])
           (Normal (Rejected (mkError "Error" "boom")))) = Some s
    /\ span_end_calls s = 1
    /\ span_name s = VStr "n8n.node.LLM.execute"
    /\ lookup "openinference.span.kind" (span_attributes s) = VStr "LLM"
    /\ span_status s = (ERROR, Some "boom")
    /\ span_exceptions s = [ThrownError (mkError "Error" "boom")].
Proof.
  pose proof (runNode_span_record (mkConfig true true false true (Int 12000))
                (fun _ => Normal (VStr "{}"))
                (fun _ => Normal [("type", VStr "OpenAi"); ("name", VStr "Model")])
                (VObj [("id", VStr "wf1")])
                (VObj [("node", VObj [("type", VStr "OpenAi"); ("name", VStr "Model")])])
                (VObj [("executionId", VStr "e1")])
                (Normal (Rejected (mkError "Error" "boom")))) as H.
  destruct H as [s [H1 [H2 [_ [H4 [_ [H6 [_ [_ [H9 [H10 _]]]]]]]]]]].
  exists s. repeat split; assumption.
Defined.

(** What the SDK makes of the exception it is given: an [Error] is
    recorded when it has a name or a message, and an object without code,
    name and message is not. *)
Lemma exception_recorded_cases :
  (forall e : error,
     exception_recorded e = negb ((err_name e =? "") && (err_message e =? "")))
  /\ (forall props,
        truthy (lookup "code" props) = false ->
        truthy (lookup "name" props) = false ->
        truthy (lookup "message" props) = false ->
        exception_recorded (ThrownValue (VObj props)) = false)
  /\ (forall props,
        truthy (lookup "message" props) = true ->
        exception_recorded (ThrownValue (VObj props)) = true).
Proof.
  split; [| split].
  - intros [name message]. unfold exception_recorded.
    cbn [exception_type exception_message err_name err_message].
    rewrite !truthy_VStr.
    destruct (name =? "") eqn:Hn, (message =? "") eqn:Hm; cbn;
      rewrite ?Hn, ?Hm; reflexivity.
  - intros props Hc Hn Hm. unfold exception_recorded. cbn. now rewrite Hc, Hn, Hm.
  - intros props Hm. unfold exception_recorded. cbn. rewrite Hm.
    destruct (truthy (lookup "code" props)); [| destruct (truthy (lookup "name" props))];
      cbn; rewrite ?Hm; auto using orb_true_r.
Qed.

(** X15.  The span of a workflow run whose promise settles.  The wrapper
    returns the engine's promise itself.  The span keeps its name, is ended
    once and holds no more than [attributeCountLimit] attributes; apart
    from the four payload keys they are the ones the started span took.
    A run without a reported error gives status OK and no exception.  A run
    that reports an error gives ERROR with its message, and a rejection
    gives ERROR with the message of what it rejected with; the error is
    recorded as an exception when it has a type or a message, so an error
    object without code, name and message is not.  A rejection with [null]
    or [undefined] leaves the status unset. *)
Theorem processRunExecutionData_span_record (cfg : config)
        (JSON_stringify : value -> completion value)
        (workflowSpanName : value) (workflowAttributes : list (string * value))
        (workflowId workflowName : value) (cancelable : promise) :
  let r := processRunExecutionData cfg JSON_stringify workflowSpanName
             workflowAttributes workflowId workflowName (Normal cancelable) in
  let started := startSpan workflowSpanName workflowAttributes in
  fst r = Normal cancelable
  /\ span_name (snd r) = workflowSpanName
  /\ span_end_calls (snd r) = 1
  /\ List.length (span_attributes (snd r)) <= attributeCountLimit
  /\ (forall k, ~ In k WORKFLOW_IO_KEYS ->
        lookup k (span_attributes (snd r)) = lookup k (span_attributes started))
  /\ match cancelable with
     | Fulfilled result =>
         let err := get_opt (get_opt (get_opt result "data") "resultData") "error" in
         if truthy err
         then span_status (snd r)
              = (ERROR, Some (to_string (or_else (get err "message") err)))
              /\ span_exceptions (snd r) = recorded (ThrownValue err)
         else span_status (snd r) = (OK, None) /\ span_exceptions (snd r) = []
     | Rejected error =>
         span_exceptions (snd r) = recorded error
         /\ span_status (snd r)
            = match status_message error with
              | Normal message => (ERROR, Some message)
              | Throw _ => (UNSET, None)
              end
     end
  /\ (forall e : error,
        recorded e = if (err_name e =? "") && (err_message e =? "") then [] else [ThrownError e])
  /\ (forall props,
        truthy (lookup "code" props) = false ->
        truthy (lookup "name" props) = false ->
        truthy (lookup "message" props) = false ->
        recorded (ThrownValue (VObj props)) = []).
Proof.
  cbv zeta. unfold processRunExecutionData. cbn [fst snd].
  set (started := startSpan workflowSpanName workflowAttributes).
  destruct (promise_chain_record cfg JSON_stringify workflowId workflowName
              cancelable started) as [s2 [Hsame [_ ->]]].
  destruct (startSpan_fresh workflowSpanName workflowAttributes) as [F1 [F2 [F3 F4]]].
  fold started in F1, F2, F3, F4.
  pose proof (startSpan_within workflowSpanName workflowAttributes) as Hwithin.
  fold started in Hwithin.
  assert (Hopen : ended started = false) by (unfold ended; now rewrite F4).
  destruct Hsame as [Hn [Hst [Hex [Hec [Hattr Hlim]]]]].
  cbn [span_end span_name span_end_calls span_attributes span_status span_exceptions].
  rewrite Hn, Hec, Hst, Hex.
  assert (Hfields :
            span_name (settled_span cancelable started) = workflowSpanName
            /\ span_end_calls (settled_span cancelable started) = 0
            /\ span_attributes (settled_span cancelable started)
               = span_attributes started).
  { destruct cancelable as [result | error]; cbn [settled_span].
    - destruct (truthy (get_opt (get_opt (get_opt result "data") "resultData") "error")).
      + destruct (recordException_effect
                    (ThrownValue (get_opt (get_opt (get_opt result "data")
                                                   "resultData") "error")) started)
          as [R1 [R2 [R3 R4]]].
        unfold span_setStatus, ended. rewrite R4, F4. cbn. rewrite R1, R3. auto.
      + unfold span_setStatus. rewrite Hopen. cbn. auto.
    - destruct (recordException_effect error started) as [R1 [R2 [R3 R4]]].
      destruct (status_message error).
      + unfold span_setStatus, ended. rewrite R4, F4. cbn. rewrite R1, R3. auto.
      + rewrite R1, R3, R4. auto. }
  destruct Hfields as [H1 [H2 H3]].
  split; [reflexivity |]. split; [exact H1 |]. split; [now rewrite H2 |].
  split.
  { apply Hlim. unfold within_limit. now rewrite H3. }
  split; [intros k Hk; rewrite (Hattr k Hk), H3; reflexivity |].
  split.
  { destruct cancelable as [result | error]; cbn [settled_span].
    - cbv zeta.
      destruct (truthy (get_opt (get_opt (get_opt result "data") "resultData") "error")).
      + destruct (recordException_effect
                    (ThrownValue (get_opt (get_opt (get_opt result "data")
                                                   "resultData") "error")) started)
          as [R1 [R2 [R3 R4]]].
        unfold span_setStatus, ended. rewrite R4, F4. cbn.
        split; [reflexivity |]. now apply recordException_first.
      + unfold span_setStatus. rewrite Hopen. cbn. auto.
    - destruct (recordException_effect error started) as [R1 [R2 [R3 R4]]].
      destruct (status_message error).
      + unfold span_setStatus, ended. rewrite R4, F4. cbn.
        split; [now apply recordException_first | reflexivity].
      + split; [now apply recordException_first | now rewrite R2]. }
  destruct exception_recorded_cases as [He [Hobj _]].
  split.
  - intros e. unfold recorded. rewrite He.
    now destruct ((err_name e =? "") && (err_message e =? "")).
  - intros props Hc Hn' Hm. unfold recorded. now rewrite Hobj.
Qed.

Lemma processRunExecutionData_span_record_witness :
  span_status
    (snd (processRunExecutionData (mkConfig true false true false (Int 12000))
            (fun _ => Normal (VStr "{}")) (VStr "n8n.workflow.execute") []
            (VStr "wf1") (VStr "Demo")
            (Normal (Fulfilled
               (VObj [("data", VObj [("resultData",
                  VObj [("error", VObj [("description", VStr "x")])])])])))))
  = (ERROR, Some "[object Object]")
  /\ span_exceptions
       (snd (processRunExecutionData (mkConfig true false true false (Int 12000))
               (fun _ => Normal (VStr "{}")) (VStr "n8n.workflow.execute") []
               (VStr "wf1") (VStr "Demo")
               (Normal (Fulfilled
                  (VObj [("data", VObj [("resultData",
                     VObj [("error", VObj [("description", VStr "x")])])])])))))
     = [].
Proof.
  destruct (processRunExecutionData_span_record
              (mkConfig true false true false (Int 12000))
              (fun _ => Normal (VStr "{}")) (VStr "n8n.workflow.execute") []
              (VStr "wf1") (VStr "Demo")
              (Fulfilled
                 (VObj [("data", VObj [("resultData",
                    VObj [("error", VObj [("description", VStr "x")])])])])))
    as [_ [_ [_ [_ [_ [H _]]]]]].
  exact H.
Defined.

(** X16.  With the capture of input and output switched off neither
    wrapper writes a payload.  The span of a step ends with the attributes
    the started span took, to which a failed call adds [n8n.node.status]
    as far as [setAttribute] takes it, and the span of a workflow run ends
    with the attributes the started span took.  A started span holds no
    more than [attributeCountLimit] attributes; it holds exactly the ones
    it is given when they are that few, have distinct keys and are entries
    a span takes. *)
Theorem capture_off_writes_no_payload (cfg : config)
        (JSON_stringify : value -> completion value) :
  CAPTURE_IO cfg = false ->
  (forall flatten workflow executionData additionalData call,
     match nodeSpanStart cfg JSON_stringify flatten workflow executionData
                         additionalData with
     | Throw e =>
         runNode cfg JSON_stringify flatten true workflow executionData
                 additionalData call = (Throw e, None)
     | Normal (_, nodeSpanName, nodeAttributes) =>
         let started := startSpan nodeSpanName nodeAttributes in
         exists s,
           snd (runNode cfg JSON_stringify flatten true workflow executionData
                        additionalData call) = Some s
           /\ span_attributes s
              = match await call with
                | Normal _ => span_attributes started
                | Throw error =>
                    match status_message error with
                    | Normal _ =>
                        span_attributes
                          (span_setAttribute "n8n.node.status" (VStr "error") started)
                    | Throw _ => span_attributes started
                    end
                end
     end)
  /\ (forall workflowSpanName workflowAttributes workflowId workflowName cancelable,
        span_attributes
          (snd (processRunExecutionData cfg JSON_stringify workflowSpanName
                  workflowAttributes workflowId workflowName (Normal cancelable)))
        = span_attributes (startSpan workflowSpanName workflowAttributes))
  /\ (forall name attributes,
        List.length (span_attributes (startSpan name attributes))
        <= attributeCountLimit)
  /\ (forall name attributes,
        NoDup (map fst attributes) ->
        forallb attribute_entry attributes = true ->
        List.length attributes <= attributeCountLimit ->
        span_attributes (startSpan name attributes) = attributes).
Proof.
  intros Hoff. split; [| split; [| split]].
  - intros flatten workflow executionData additionalData call.
    unfold runNode. cbn [negb].
    destruct (nodeSpanStart cfg JSON_stringify flatten workflow executionData
                            additionalData)
      as [[[spanKind nodeSpanName] nodeAttributes] | e]; [| reflexivity].
    cbv zeta. set (started := startSpan nodeSpanName nodeAttributes).
    destruct (runNodeInSpan_record cfg JSON_stringify spanKind executionData call
                started) as [s1 [_ [Hs1 Hrun]]].
    rewrite Hrun, (Hs1 Hoff). clear Hrun.
    assert (Hopen : ended started = false) by apply not_ended_start.
    destruct (await call) as [v | error].
    + eexists. split; [reflexivity |]. cbn. unfold span_setStatus.
      now rewrite Hopen.
    + destruct (recordException_effect error started) as [R1 [R2 [R3 R4]]].
      destruct (status_message error) as [message | e'].
      * eexists. split; [reflexivity |].
        cbn [snd span_end span_attributes].
        set (s2 := span_setStatus ERROR (Some message)
                     (span_recordException error started)).
        assert (Hs2 : span_attributes s2 = span_attributes started
                      /\ ended s2 = ended started).
        { subst s2. unfold span_setStatus.
          replace (ended (span_recordException error started)) with false
            by (unfold ended in *; now rewrite R4).
          unfold ended in *. cbn. now rewrite R4. }
        destruct Hs2 as [Ha He].
        unfold span_setAttribute. rewrite Ha, He.
        repeat match goal with
               | |- context [if ?b then _ else _] => destruct b
               end; cbn; auto.
      * eexists. split; [reflexivity |]. cbn. exact R3.
  - intros workflowSpanName workflowAttributes workflowId workflowName cancelable.
    unfold processRunExecutionData. cbn [snd].
    set (started := startSpan workflowSpanName workflowAttributes).
    destruct (promise_chain_record cfg JSON_stringify workflowId workflowName
                cancelable started) as [s2 [_ [Hs2 ->]]].
    rewrite (Hs2 Hoff). cbn [span_end span_attributes].
    destruct cancelable as [result | error]; cbn [settled_span].
    + destruct (truthy (get_opt (get_opt (get_opt result "data") "resultData") "error")).
      * unfold span_setStatus.
        destruct (ended _); [| cbn];
          apply (recordException_effect _ started).
      * unfold span_setStatus. destruct (ended started); reflexivity.
    + destruct (status_message error).
      * unfold span_setStatus.
        destruct (ended _); [| cbn];
          apply (recordException_effect _ started).
      * apply (recordException_effect _ started).
  - intros name attributes. apply startSpan_within.
  - intros name attributes. apply startSpan_fits.
Qed.

Lemma capture_off_writes_no_payload_witness :
  span_attributes
    (snd (processRunExecutionData (mkConfig true false true false (Int 12000))
            (fun _ => Normal (VStr "{}")) (VStr "n8n.workflow.execute")
            [("openinference.span.kind", VStr "CHAIN"); ("n8n.workflow.settings", VObj [])]
            (VStr "wf1") (VStr "Demo")
            (Normal (Fulfilled (VObj [])))))
  = [("openinference.span.kind", VStr "CHAIN")].
Proof.
  destruct (capture_off_writes_no_payload (mkConfig true false true false (Int 12000))
              (fun _ => Normal (VStr "{}")) eq_refl) as [_ [H _]].
  exact (H (VStr "n8n.workflow.execute")
           [("openinference.span.kind", VStr "CHAIN"); ("n8n.workflow.settings", VObj [])]
           (VStr "wf1") (VStr "Demo") (Fulfilled (VObj []))).
Defined.

(* ================================================================== *)
(** ** Further properties of the initialization guard *)
(* ================================================================== *)

Lemma load_module_counts (p : process) :
  let q := snd (load_module p) in
  (processRun_wrappers q = processRun_wrappers p
   \/ processRun_wrappers q = S (processRun_wrappers p))
  /\ runNode_wrappers q + processRun_wrappers p
     = runNode_wrappers p + processRun_wrappers q
  /\ (sdk_starts q = sdk_starts p \/ sdk_starts q = S (sdk_starts p)).
Proof.
  cbv zeta. unfold load_module.
  destruct (truthy (ALREADY_INITIALIZED p)); [cbn; lia |].
  destruct (initializeTracing_effect (mark_initialized p))
    as [_ [_ [_ [_ [-> [-> [-> _]]]]]]].
  cbn [mark_initialized processRun_wrappers runNode_wrappers sdk_starts].
  repeat match goal with
         | |- context [if ?b then _ else _] => destruct b
         end; lia.
Qed.

(** X17.  However often the module is loaded, and whatever state the
    process is in, each of the two methods gains at most one wrapper, both
    gain the same number, and the SDK is started at most once. *)
Theorem load_times_at_most_once (n : nat) (p : process) :
  processRun_wrappers p <= processRun_wrappers (load_times n p)
    <= S (processRun_wrappers p)
  /\ runNode_wrappers (load_times n p) + processRun_wrappers p
     = runNode_wrappers p + processRun_wrappers (load_times n p)
  /\ sdk_starts p <= sdk_starts (load_times n p) <= S (sdk_starts p).
Proof.
  destruct n as [| n]; [cbn; lia |].
  cbn [load_times]. rewrite load_times_marked by apply load_module_marks.
  pose proof (load_module_counts p) as H. cbv zeta in H. lia.
Qed.

(** A credential the metadata of the gRPC library refuses makes the
    exporter throw, when the protocol is not http. *)
Lemma traceExporter_refused (e : env) :
  truthy (VStr (optional e "ARIZE_SPACE_ID" "")) = true ->
  truthy (VStr (optional e "ARIZE_API_KEY" "")) = true ->
  optional e "ARIZE_PROTOCOL" "grpc" <> "http" ->
  legal_metadata_value (optional e "ARIZE_SPACE_ID" "")
  && legal_metadata_value (optional e "ARIZE_API_KEY" "") = false ->
  exists err, traceExporter e = Throw err.
Proof.
  intros Hid Hkey Hproto Hlegal. unfold traceExporter, buildTraceExporter.
  rewrite Hid, Hkey. cbn [andb].
  apply String.eqb_neq in Hproto. rewrite Hproto.
  unfold buildGrpcMetadata, Metadata_add. cbn [fold_left fst snd bind].
  destruct (legal_metadata_value (optional e "ARIZE_SPACE_ID" ""));
    cbn [bind]; [| eauto].
  destruct (legal_metadata_value (optional e "ARIZE_API_KEY" ""));
    cbn [bind]; [discriminate | eauto].
Qed.

(** X18.  The marks are set before the initialization runs, so a first load
    that fails is never tried again.  With [TRACING_LOG_LEVEL] set to the
    empty string the first load of a fresh process throws, and no later
    load installs a wrapper or starts the SDK.  When the log level can be
    read and the exporter cannot be built, as with gRPC and a credential
    the metadata refuses, the first load throws after it has installed the
    wrappers and before it starts the SDK, and no later load starts it.
    When both succeed the SDK is started once, with or without n8n-core;
    without it no load installs a wrapper. *)
Theorem failed_initialization_not_retried (p : process) :
  fresh p ->
  (env_get "TRACING_LOG_LEVEL" (process_env p) = Some "" ->
     (exists e, fst (load_module p) = Throw e)
     /\ forall n,
          processRun_wrappers (load_times n p) = processRun_wrappers p
          /\ runNode_wrappers (load_times n p) = runNode_wrappers p
          /\ sdk_starts (load_times n p) = sdk_starts p)
  /\ (env_get "TRACING_LOG_LEVEL" (process_env p) <> Some "" ->
      (forall err, traceExporter (process_env p) = Throw err ->
         fst (load_module p) = Throw err
         /\ forall n,
              sdk_starts (load_times n p) = sdk_starts p
              /\ processRun_wrappers (load_times (S n) p)
                 = (if n8n_core_loadable p then S (processRun_wrappers p)
                    else processRun_wrappers p)
              /\ runNode_wrappers (load_times (S n) p)
                 = (if n8n_core_loadable p then S (runNode_wrappers p)
                    else runNode_wrappers p))
      /\ (forall x, traceExporter (process_env p) = Normal x ->
            fst (load_module p) = Normal tt
            /\ forall n, sdk_starts (load_times (S n) p) = S (sdk_starts p))
      /\ (n8n_core_loadable p = false ->
          forall n,
            processRun_wrappers (load_times n p) = processRun_wrappers p
            /\ runNode_wrappers (load_times n p) = runNode_wrappers p))
  /\ (truthy (VStr (optional (process_env p) "ARIZE_SPACE_ID" "")) = true ->
      truthy (VStr (optional (process_env p) "ARIZE_API_KEY" "")) = true ->
      optional (process_env p) "ARIZE_PROTOCOL" "grpc" <> "http" ->
      legal_metadata_value (optional (process_env p) "ARIZE_SPACE_ID" "")
      && legal_metadata_value (optional (process_env p) "ARIZE_API_KEY" "") = false ->
      exists err, traceExporter (process_env p) = Throw err).
Proof.
  unfold fresh. intros Hfresh.
  assert (Hload : load_module p = initializeTracing (mark_initialized p))
    by (unfold load_module; now rewrite Hfresh).
  destruct (initializeTracing_effect (mark_initialized p))
    as [_ [_ [_ [_ [Hp [Hr [Hs [Hthrow Hfst]]]]]]]].
  rewrite mark_initialized_level in Hp, Hr, Hs, Hthrow, Hfst.
  assert (Hexp : traceExporter (process_env (mark_initialized p))
                 = traceExporter (process_env p)).
  { unfold traceExporter, optional, getEnv. cbn [mark_initialized process_env].
    now rewrite !env_get_set_other by discriminate. }
  rewrite Hexp in Hs, Hfst.
  cbn [mark_initialized n8n_core_loadable processRun_wrappers runNode_wrappers
       sdk_starts] in Hp, Hr, Hs.
  rewrite <- Hload in Hp, Hr, Hs, Hthrow, Hfst.
  split; [| split].
  - intros Hlevel. rewrite Hlevel in *. cbn in Hp, Hr, Hs, Hthrow.
    split; [now apply Hthrow |].
    intros [| n]; [auto |]. rewrite load_times_first. auto.
  - intros Hlevel.
    assert (Hread : negb (match env_get "TRACING_LOG_LEVEL" (process_env p) with
                          | Some s => s =? ""
                          | None => false
                          end) = true).
    { destruct (env_get "TRACING_LOG_LEVEL" (process_env p)) as [[| c level] |];
        [congruence | reflexivity | reflexivity]. }
    rewrite Hread in *. cbn [andb] in Hp, Hr, Hs. specialize (Hfst eq_refl).
    split; [| split].
    + intros err Herr. rewrite Herr in *. split; [exact Hfst |].
      intros n. rewrite load_times_first.
      split; [| split; assumption].
      destruct n as [| n]; [reflexivity |]. now rewrite load_times_first.
    + intros x Hx. rewrite Hx in *. split; [exact Hfst |].
      intros n. now rewrite load_times_first.
    + intros Hcore. rewrite Hcore in *.
      intros [| n]; [auto |]. rewrite load_times_first. auto.
  - apply traceExporter_refused.
Qed.

Lemma failed_initialization_not_retried_witness :
  processRun_wrappers
    (load_times 5 (mkProcess VUndefined [("TRACING_LOG_LEVEL", "")] VUndefined
                             true 0 0 0)) = 0
  /\ sdk_starts
       (load_times 5 (mkProcess VUndefined
                                [("ARIZE_SPACE_ID", "space");
                                 ("ARIZE_API_KEY", String (ascii_of_nat 13) "key")]
                                VUndefined true 0 0 0)) = 0
  /\ runNode_wrappers
       (load_times 5 (mkProcess VUndefined
                                [("ARIZE_SPACE_ID", "space");
                                 ("ARIZE_API_KEY", String (ascii_of_nat 13) "key")]
                                VUndefined true 0 0 0)) = 1.
Proof.
  split; [| split].
  - destruct (failed_initialization_not_retried
                (mkProcess VUndefined [("TRACING_LOG_LEVEL", "")] VUndefined
                           true 0 0 0) eq_refl) as [H _].
    destruct (H eq_refl) as [_ Hn]. apply (Hn 5).
  - destruct (failed_initialization_not_retried
                (mkProcess VUndefined
                           [("ARIZE_SPACE_ID", "space");
                            ("ARIZE_API_KEY", String (ascii_of_nat 13) "key")]
                           VUndefined true 0 0 0) eq_refl) as [_ [H _]].
    assert (Hlevel : @None string <> Some "") by discriminate.
    destruct (H Hlevel) as [Hrefused _].
    destruct (Hrefused _ eq_refl) as [_ Hn]. apply (Hn 5).
  - destruct (failed_initialization_not_retried
                (mkProcess VUndefined
                           [("ARIZE_SPACE_ID", "space");
                            ("ARIZE_API_KEY", String (ascii_of_nat 13) "key")]
                           VUndefined true 0 0 0) eq_refl) as [_ [H _]].
    assert (Hlevel : @None string <> Some "") by discriminate.
    destruct (H Hlevel) as [Hrefused _].
    destruct (Hrefused _ eq_refl) as [_ Hn]. apply (Hn 4).
Defined.

(* ================================================================== *)
(** ** Properties of the configuration helpers *)
(* ================================================================== *)

Lemma drop_last_quote_snoc (s : string) (q : ascii) :
  is_quote q = true -> drop_last_quote (s ++ String q "") = s.
Proof.
  intros Hq. induction s as [| c s IH]; simpl; [now rewrite Hq |].
  rewrite IH. destruct (s ++ String q "") eqn:Hs; [| reflexivity].
  destruct s; discriminate.
Qed.

(** X19.  [getEnv] never throws for a variable that is not required, and
    throws for a required one exactly when the variable, or the default in
    its absence, is empty, as the log level read by the guard does.  It
    removes one layer of quotes, matching or not, and no more. *)
Theorem getEnv_quotes (e : env) (key defaultValue : string) :
  (exists v, getEnv e key defaultValue false = Normal v)
  /\ ((exists err, getEnv e key defaultValue true = Throw err)
      <-> match env_get key e with Some v => v | None => defaultValue end = "")
  /\ ((exists err, getEnv e key defaultValue true = Throw err)
      <-> exists err,
            InitGuard.getEnv_required key (env_get key e) defaultValue = Throw err)
  /\ (forall q1 q2 inner required,
        is_quote q1 = true -> is_quote q2 = true ->
        env_get key e = Some (String q1 (inner ++ String q2 "")) ->
        getEnv e key defaultValue required = Normal inner).
Proof.
  unfold getEnv, InitGuard.getEnv_required.
  set (value := match env_get key e with Some v => v | None => defaultValue end).
  rewrite truthy_VStr.
  split; [rewrite andb_false_r; eauto |].
  split; [| split].
  - rewrite andb_true_r. destruct (value =? "") eqn:Hv; cbn [negb].
    + apply String.eqb_eq in Hv. split; [trivial | eauto].
    + apply String.eqb_neq in Hv. split; [intros [err [=]] | contradiction].
  - rewrite andb_true_r. destruct (value =? ""); cbn [negb].
    + split; eauto.
    + split; intros [err [=]].
  - intros q1 q2 inner required Hq1 Hq2 Hget. subst value. rewrite Hget.
    cbn [String.eqb negb andb]. unfold strip_quotes. rewrite Hq1.
    now rewrite drop_last_quote_snoc.
Qed.

Lemma getEnv_quotes_witness :
  getEnv [("ARIZE_API_KEY", "'k-1'")] "ARIZE_API_KEY" "" false = Normal "k-1".
Proof.
  apply (getEnv_quotes [("ARIZE_API_KEY", "'k-1'")] "ARIZE_API_KEY" "")
    with (q1 := "'"%char) (q2 := "'"%char); reflexivity.
Defined.

(* ------------------------------------------------------------------ *)

Lemma all_space_tail (c : ascii) (s : string) :
  all_space (String c s) -> is_space c = true /\ all_space s.
Proof.
  intros H. split; [apply H; now left |]. intros x Hx. apply H. now right.
Qed.

Lemma trimStart_all_space (s : string) : all_space s -> trimStart s = "".
Proof.
  induction s as [| c s IH]; [reflexivity |].
  intros H. apply all_space_tail in H. destruct H as [Hc Hs].
  simpl. rewrite Hc. now apply IH.
Qed.

Lemma trimEnd_all_space (s : string) : all_space s -> trimEnd s = "".
Proof.
  induction s as [| c s IH]; [reflexivity |].
  intros H. apply all_space_tail in H. destruct H as [Hc Hs].
  simpl. rewrite (IH Hs), Hc. reflexivity.
Qed.

Lemma trimStart_app_space (l s : string) :
  all_space l -> trimStart (l ++ s) = trimStart s.
Proof.
  induction l as [| c l IH]; [reflexivity |].
  intros H. apply all_space_tail in H. destruct H as [Hc Hl].
  simpl. rewrite Hc. now apply IH.
Qed.

Lemma trimEnd_app_space (s r : string) :
  all_space r -> trimEnd (s ++ r) = trimEnd s.
Proof.
  intros Hr. induction s as [| c s IH]; simpl.
  - now apply trimEnd_all_space.
  - now rewrite IH.
Qed.

Lemma trimStart_app (s r : string) :
  trimStart (s ++ r) = if trimStart s =? "" then trimStart r else trimStart s ++ r.
Proof.
  induction s as [| c s IH]; [reflexivity |].
  simpl. destruct (is_space c); [exact IH | reflexivity].
Qed.

(** Padding with white space is trimmed away. *)
Lemma trim_padding (l s r : string) :
  all_space l -> all_space r -> trim (l ++ s ++ r) = trim s.
Proof.
  intros Hl Hr. unfold trim.
  rewrite (trimStart_app_space l _ Hl), trimStart_app.
  destruct (trimStart s =? "") eqn:Hs.
  - apply String.eqb_eq in Hs. rewrite Hs, (trimStart_all_space r Hr). reflexivity.
  - now apply trimEnd_app_space.
Qed.

Lemma lower_char_facts (c : ascii) :
  is_space (lower_char c) = is_space c /\ lower_char (lower_char c) = lower_char c.
Proof.
  assert (H : forallb (fun x => Bool.eqb (is_space (lower_char x)) (is_space x)
                                && Ascii.eqb (lower_char (lower_char x)) (lower_char x))
                      (map ascii_of_nat (seq 0 256)) = true)
    by (vm_compute; reflexivity).
  rewrite forallb_forall in H. specialize (H c (all_codes c)).
  apply andb_true_iff in H. destruct H as [H1 H2].
  split; [now apply Bool.eqb_prop | now apply Ascii.eqb_eq].
Qed.

Lemma toLowerCase_idempotent (s : string) :
  toLowerCase (toLowerCase s) = toLowerCase s.
Proof.
  induction s as [| c s IH]; simpl; [reflexivity |].
  now rewrite (proj2 (lower_char_facts c)), IH.
Qed.

Lemma trimStart_toLowerCase (s : string) :
  trimStart (toLowerCase s) = toLowerCase (trimStart s).
Proof.
  induction s as [| c s IH]; simpl; [reflexivity |].
  rewrite (proj1 (lower_char_facts c)). now destruct (is_space c).
Qed.

Lemma toLowerCase_empty (s : string) : (toLowerCase s =? "") = (s =? "").
Proof. now destruct s. Qed.

Lemma trimEnd_toLowerCase (s : string) :
  trimEnd (toLowerCase s) = toLowerCase (trimEnd s).
Proof.
  induction s as [| c s IH]; simpl; [reflexivity |].
  rewrite IH, (proj1 (lower_char_facts c)), toLowerCase_empty.
  now destruct (is_space c && (trimEnd s =? "")).
Qed.

Lemma trim_toLowerCase (s : string) : trim (toLowerCase s) = toLowerCase (trim s).
Proof. unfold trim. now rewrite trimStart_toLowerCase, trimEnd_toLowerCase. Qed.

(** X20.  A boolean switch is read without regard to surrounding white
    space or to case: a value padded with white space counts as its
    lower-cased core.  A value that is none of the eight words leaves the
    default, as an unset variable does. *)
Theorem envBool_padding_and_case (e : env) (name : string) (def : bool)
        (l s r : string) :
  all_space l -> all_space r -> env_get name e = Some (l ++ s ++ r) ->
  envBool e name def = envBool [(name, toLowerCase s)] name def
  /\ (~ In (toLowerCase (trim s))
            ["true"; "1"; "yes"; "on"; "false"; "0"; "no"; "off"] ->
      envBool e name def = def).
Proof.
  intros Hl Hr Hget. unfold envBool. rewrite Hget.
  cbn [env_get]. rewrite String.eqb_refl.
  rewrite (trim_padding l s r Hl Hr), trim_toLowerCase, toLowerCase_idempotent.
  split; [reflexivity |].
  intros Hnot.
  destruct (Mapper.has ["true"; "1"; "yes"; "on"] (toLowerCase (trim s))) eqn:H1.
  { apply has_In in H1. exfalso. apply Hnot. simpl in *. tauto. }
  destruct (Mapper.has ["false"; "0"; "no"; "off"] (toLowerCase (trim s))) eqn:H2.
  { apply has_In in H2. exfalso. apply Hnot. simpl in *. tauto. }
  reflexivity.
Qed.

Lemma envBool_padding_and_case_witness :
  envBool [("TRACING_CAPTURE_INPUT_OUTPUT", "  OFF ")]
          "TRACING_CAPTURE_INPUT_OUTPUT" true
  = envBool [("TRACING_CAPTURE_INPUT_OUTPUT", "off")]
            "TRACING_CAPTURE_INPUT_OUTPUT" true.
Proof.
  assert (Hsp : forall s, forallb is_space (list_ascii_of_string s) = true ->
                          all_space s).
  { intros s H c Hin. rewrite forallb_forall in H. now apply H. }
  apply (envBool_padding_and_case
           [("TRACING_CAPTURE_INPUT_OUTPUT", "  OFF ")]
           "TRACING_CAPTURE_INPUT_OUTPUT" true "  " "OFF" " ");
    [apply Hsp; reflexivity | apply Hsp; reflexivity | reflexivity].
Defined.

(* ------------------------------------------------------------------ *)

(** X21.  [processOtelEnvironmentVariables] rewrites only variables whose
    name starts with OTEL_: every other variable, the mark of the
    initialization guard among them, keeps its value.  Afterwards the batch
    export timeout is set, and so is one of the two exporter timeouts. *)
Theorem processOtel_touches_only_OTEL (e : env) :
  let e' := processOtelEnvironmentVariables e in
  (forall key, String.prefix "OTEL_" key = false ->
               env_get key e' = env_get key e)
  /\ env_get "__N8N_TRACING_INITIALIZED" e' = env_get "__N8N_TRACING_INITIALIZED" e
  /\ env_falsy (env_get "OTEL_BSP_EXPORT_TIMEOUT" e') = false
  /\ (env_falsy (env_get "OTEL_EXPORTER_OTLP_TIMEOUT" e') = false
      \/ env_falsy (env_get "OTEL_EXPORTER_OTLP_TRACES_TIMEOUT" e') = false).
Proof.
  cbv zeta.
  assert (Hframe : forall key, String.prefix "OTEL_" key = false ->
            env_get key (processOtelEnvironmentVariables e) = env_get key e).
  { intros key Hkey. unfold processOtelEnvironmentVariables.
    set (e1 := fold_left clean_otel_variable (map fst e) e).
    set (e2 := if _ && _ then _ else e1).
    assert (H2 : env_get key e2 = env_get key e).
    { subst e2. destruct (_ && _).
      - rewrite env_get_set_other by (intros ->; discriminate).
        now apply clean_all_other.
      - now apply clean_all_other. }
    destruct (env_falsy (env_get "OTEL_BSP_EXPORT_TIMEOUT" e2)); [| exact H2].
    rewrite env_get_set_other by (intros ->; discriminate). exact H2. }
  split; [exact Hframe |]. split; [now apply Hframe |].
  unfold processOtelEnvironmentVariables.
  set (e1 := fold_left clean_otel_variable (map fst e) e).
  set (e2 := if _ && _ then _ else e1).
  assert (H2 : env_falsy (env_get "OTEL_EXPORTER_OTLP_TIMEOUT" e2) = false
               \/ env_falsy (env_get "OTEL_EXPORTER_OTLP_TRACES_TIMEOUT" e2) = false).
  { subst e2.
    destruct (env_falsy (env_get "OTEL_EXPORTER_OTLP_TIMEOUT" e1)) eqn:Ha;
      [| now left].
    destruct (env_falsy (env_get "OTEL_EXPORTER_OTLP_TRACES_TIMEOUT" e1)) eqn:Hb;
      [| now right].
    cbn [andb]. left. now rewrite env_get_set_same. }
  destruct (env_falsy (env_get "OTEL_BSP_EXPORT_TIMEOUT" e2)) eqn:Hbsp.
  - split; [now rewrite env_get_set_same |].
    rewrite !env_get_set_other by discriminate. exact H2.
  - split; [exact Hbsp | exact H2].
Qed.

Lemma processOtel_touches_only_OTEL_witness :
  env_get "PATH" (processOtelEnvironmentVariables
                    [("OTEL_SERVICE_NAME", "'n8n'"); ("PATH", "'/bin'")])
  = Some "'/bin'".
Proof.
  apply (processOtel_touches_only_OTEL
           [("OTEL_SERVICE_NAME", "'n8n'"); ("PATH", "'/bin'")]).
  reflexivity.
Defined.

(* ------------------------------------------------------------------ *)

Lemma drop_last_slash_snoc (s : string) : drop_last_slash (s ++ "/") = s.
Proof.
  induction s as [| c s IH]; [reflexivity |].
  simpl. rewrite IH. destruct (s ++ "/") eqn:Hs; [| reflexivity].
  destruct s; discriminate.
Qed.

Lemma drop_last_slash_other (s : string) (c : ascii) :
  c <> "/"%char -> drop_last_slash (s ++ String c "") = s ++ String c "".
Proof.
  intros Hc. induction s as [| x s IH]; simpl.
  - apply Ascii.eqb_neq in Hc. now rewrite Hc.
  - rewrite IH. destruct (s ++ String c "") eqn:Hs; [| reflexivity].
    destruct s; discriminate.
Qed.

Lemma string_app_assoc (s t u : string) : (s ++ t) ++ u = s ++ t ++ u.
Proof. induction s as [| c s IH]; simpl; [reflexivity | now rewrite IH]. Qed.

Lemma buildGrpcMetadata_two (k1 v1 k2 v2 : string) :
  buildGrpcMetadata [(k1, v1); (k2, v2)]
  = if legal_metadata_value v1
    then if legal_metadata_value v2
         then Normal [(k1, v1); (k2, v2)]
         else Metadata_add k2 v2 [(k1, v1)]
    else Metadata_add k1 v1 [].
Proof.
  unfold buildGrpcMetadata, Metadata_add. cbn [fold_left fst snd bind].
  destruct (legal_metadata_value v1); cbn [bind app]; [| reflexivity].
  destruct (legal_metadata_value v2); reflexivity.
Qed.

(** X22.  The exporter goes to Arize exactly when both credentials are
    non-empty.  Then the exact word http selects the HTTP exporter whose
    URL is the endpoint, less one trailing slash, followed by /v1/traces:
    an endpoint and the same endpoint with a slash appended give one URL.
    Any other protocol selects gRPC with the endpoint as given, and the
    credentials as metadata, when both are made of printable ASCII
    characters; a credential with any other character, a trailing carriage
    return for one, makes [buildTraceExporter] throw.  Only in that case
    does it throw. *)
Theorem buildTraceExporter_choice (id key protocol endpoint : string) :
  (buildTraceExporter id key protocol endpoint = Normal (OTLPTraceExporterHTTP None [])
   <-> id = "" \/ key = "")
  /\ (id <> "" -> key <> "" -> protocol <> "http" ->
      legal_metadata_value id = true -> legal_metadata_value key = true ->
      buildTraceExporter id key protocol endpoint
      = Normal (OTLPTraceExporterGRPC endpoint [("space_id", id); ("api_key", key)]))
  /\ ((exists err, buildTraceExporter id key protocol endpoint = Throw err)
      <-> id <> "" /\ key <> "" /\ protocol <> "http"
          /\ legal_metadata_value id && legal_metadata_value key = false)
  /\ (forall value,
        legal_metadata_value value = true
        <-> forall c, In c (list_ascii_of_string value) -> 32 <= code c <= 126)
  /\ (id <> "" -> key <> "" ->
      buildTraceExporter id key "http" (endpoint ++ "/")
      = Normal (OTLPTraceExporterHTTP (Some (endpoint ++ "/v1/traces"))
                                      [("space_id", id); ("api_key", key)])
      /\ forall c, c <> "/"%char ->
           buildTraceExporter id key "http" (endpoint ++ String c "")
           = Normal (OTLPTraceExporterHTTP
                       (Some (endpoint ++ String c "" ++ "/v1/traces"))
                       [("space_id", id); ("api_key", key)])).
Proof.
  unfold buildTraceExporter. rewrite !truthy_VStr, buildGrpcMetadata_two.
  unfold Metadata_add.
  split; [| split; [| split; [| split]]].
  - destruct (id =? "") eqn:Hi; cbn [negb andb].
    { apply String.eqb_eq in Hi. split; auto. }
    destruct (key =? "") eqn:Hk; cbn [negb andb].
    { apply String.eqb_eq in Hk. split; auto. }
    apply String.eqb_neq in Hi, Hk.
    split; [| intros [H | H]; contradiction].
    destruct (protocol =? "http"); [discriminate |].
    destruct (legal_metadata_value id); cbn [bind]; [| discriminate].
    destruct (legal_metadata_value key); cbn [bind]; discriminate.
  - intros Hi Hk Hp Hlid Hlkey.
    apply String.eqb_neq in Hi, Hk, Hp. now rewrite Hi, Hk, Hp, Hlid, Hlkey.
  - destruct (id =? "") eqn:Hi; cbn [negb andb].
    { apply String.eqb_eq in Hi.
      split; [intros [err [=]] | intros [H _]; contradiction]. }
    destruct (key =? "") eqn:Hk; cbn [negb andb].
    { apply String.eqb_eq in Hk.
      split; [intros [err [=]] | intros [_ [H _]]; contradiction]. }
    destruct (protocol =? "http") eqn:Hp.
    { apply String.eqb_eq in Hp.
      split; [intros [err [=]] | intros [_ [_ [H _]]]; contradiction]. }
    apply String.eqb_neq in Hi, Hk, Hp.
    destruct (legal_metadata_value id); cbn [bind andb].
    + destruct (legal_metadata_value key); cbn [bind].
      * split; [intros [err [=]] | intros [_ [_ [_ [=]]]]].
      * split; [auto | eauto].
    + split; [auto | eauto].
  - intros value. unfold legal_metadata_value. rewrite forallb_forall.
    split; intros H c Hc; specialize (H c Hc); unfold in_range in *.
    + apply andb_true_iff in H. destruct H as [H1 H2].
      apply Nat.leb_le in H1, H2. lia.
    + apply andb_true_iff. split; apply Nat.leb_le; lia.
  - intros Hi Hk. apply String.eqb_neq in Hi, Hk. rewrite Hi, Hk.
    cbn [negb andb]. change ("http" =? "http") with true. cbv iota.
    split.
    + now rewrite drop_last_slash_snoc.
    + intros c Hc. rewrite (drop_last_slash_other endpoint c Hc).
      now rewrite string_app_assoc.
Qed.

Lemma buildTraceExporter_choice_witness :
  buildTraceExporter "space" "key" "http" "https://otlp.arize.com/"
  = Normal (OTLPTraceExporterHTTP (Some "https://otlp.arize.com/v1/traces")
                                  [("space_id", "space"); ("api_key", "key")])
  /\ buildTraceExporter "space" "key" "HTTP" "https://otlp.arize.com"
     = Normal (OTLPTraceExporterGRPC "https://otlp.arize.com"
                                     [("space_id", "space"); ("api_key", "key")])
  /\ exists err,
       buildTraceExporter "space" (String (ascii_of_nat 13) "key") "grpc"
                          "https://otlp.arize.com" = Throw err.
Proof.
  split; [| split].
  - destruct (buildTraceExporter_choice "space" "key" "http" "https://otlp.arize.com")
      as [_ [_ [_ [_ H]]]].
    apply H; discriminate.
  - destruct (buildTraceExporter_choice "space" "key" "HTTP" "https://otlp.arize.com")
      as [_ [H _]].
    apply H; (discriminate || reflexivity).
  - destruct (buildTraceExporter_choice "space" (String (ascii_of_nat 13) "key")
                "grpc" "https://otlp.arize.com") as [_ [_ [H _]]].
    apply H. repeat split; discriminate || reflexivity.
Defined.

(* ================================================================== *)
(** ** Properties of the renaming of the parent span *)
(* ================================================================== *)

Import ParentSpan.

Lemma set_prop_grows (k : string) (v : value) (props : list (string * value)) :
  List.length props <= List.length (set_prop k v props).
Proof.
  induction props as [| [x y] rest IH]; simpl; [lia |].
  destruct (x =? k); simpl; lia.
Qed.

Lemma setAttribute_grows (k : string) (v : value) (s : span) :
  List.length (span_attributes s)
  <= List.length (span_attributes (span_setAttribute k v s)).
Proof.
  destruct (setAttribute_attributes k v s) as [[-> _] | [-> _]];
    [lia | apply set_prop_grows].
Qed.

Lemma copy_missing_keeps (workflowAttributes : list (string * value)) (s : span) :
  span_name (copy_missing workflowAttributes s) = span_name s
  /\ span_status (copy_missing workflowAttributes s) = span_status s
  /\ span_exceptions (copy_missing workflowAttributes s) = span_exceptions s
  /\ span_end_calls (copy_missing workflowAttributes s) = span_end_calls s
  /\ forall k, lookup k (span_attributes s) <> VUndefined ->
       lookup k (span_attributes (copy_missing workflowAttributes s))
       = lookup k (span_attributes s).
Proof.
  unfold copy_missing. revert s.
  induction workflowAttributes as [| [k' v] rest IH]; intros s; [repeat split |].
  cbn [fold_left fst snd].
  set (s' := match lookup k' (span_attributes s) with
             | VUndefined => span_setAttribute k' v s
             | _ => s
             end).
  assert (Hs' : span_name s' = span_name s /\ span_status s' = span_status s
                /\ span_exceptions s' = span_exceptions s
                /\ span_end_calls s' = span_end_calls s
                /\ forall k, lookup k (span_attributes s) <> VUndefined ->
                     lookup k (span_attributes s') = lookup k (span_attributes s)).
  { subst s'. destruct (lookup k' (span_attributes s)) eqn:Hk'; try (repeat split).
    all: try apply (setAttribute_effect k' v s).
    intros k Hk. apply setAttribute_lookup_other.
    intros ->. now rewrite Hk' in Hk. }
  destruct Hs' as [A1 [A2 [A3 [A4 A5]]]].
  destruct (IH s') as [B1 [B2 [B3 [B4 B5]]]].
  repeat split; try congruence.
  intros k Hk. rewrite B5; [now apply A5 |]. now rewrite A5.
Qed.

(** X23.  Renaming the parent span of an HTTP request never touches its
    status, its recorded exceptions or its end, and never overwrites an
    attribute the span already defines, the two bookkeeping keys apart.  A
    parent that has no HTTP method attribute and no HTTP verb as its name,
    or any parent when only workflow spans are wanted, is left as it is;
    a parent that is renamed has the new name, and keeps its old name under
    [n8n.http.original_name] unless the span is full or the old name is no
    attribute value. *)
Theorem renameHttpParent_keeps_parent (only : bool) (cfg : naming)
        (workflowAttributes : list (string * value))
        (workflowId workflowName executionId : value) (parent : span) :
  let looks_http :=
    truthy (or_else (lookup "http.method" (span_attributes parent))
                    (lookup "http.request.method" (span_attributes parent)))
    || nameLooksHttpVerb (to_string (or_else (span_name parent) (VStr ""))) in
  exists p',
    renameHttpParent only cfg workflowAttributes workflowId workflowName
                     executionId (Some parent) = Some p'
    /\ span_status p' = span_status parent
    /\ span_exceptions p' = span_exceptions parent
    /\ span_end_calls p' = span_end_calls parent
    /\ (forall k, lookup k (span_attributes parent) <> VUndefined ->
                  k <> "n8n.http.original_name" -> k <> "n8n.trace.naming" ->
                  lookup k (span_attributes p') = lookup k (span_attributes parent))
    /\ (only = true \/ looks_http = false -> p' = parent)
    /\ (only = false -> looks_http = true -> ended parent = false ->
        span_name p'
        = VStr (if DYNAMIC_WORKFLOW_TRACE_NAME cfg
                then sanitizeSegment workflowId "wf" ++ "-"
                     ++ sanitizeSegment workflowName "workflow" ++ "-"
                     ++ sanitizeSegment executionId "exec"
                else "n8n.workflow.request")
        /\ (lookup "n8n.http.original_name" (span_attributes p') = span_name parent
            \/ attributeCountLimit <= List.length (span_attributes p')
            \/ attribute_entry ("n8n.http.original_name", span_name parent) = false)).
Proof.
  cbv zeta. unfold renameHttpParent.
  destruct only; cbn [negb].
  { exists parent. repeat split; auto; congruence. }
  set (looks := truthy _ || _).
  destruct looks.
  2: { exists parent. repeat split; auto; congruence. }
  set (naming_ := VStr (if DYNAMIC_WORKFLOW_TRACE_NAME cfg
                        then "dynamic" else "constant")).
  set (newName := VStr (if DYNAMIC_WORKFLOW_TRACE_NAME cfg then _ else _)).
  set (renamed := span_updateName newName parent).
  set (copied := copy_missing workflowAttributes renamed).
  eexists. split; [reflexivity |].
  destruct (copy_missing_keeps workflowAttributes renamed)
    as [C1 [C2 [C3 [C4 C5]]]]. fold copied in C1, C2, C3, C4, C5.
  assert (Hren : span_status renamed = span_status parent
                 /\ span_exceptions renamed = span_exceptions parent
                 /\ span_end_calls renamed = span_end_calls parent
                 /\ span_attributes renamed = span_attributes parent
                 /\ (ended parent = false -> span_name renamed = newName)).
  { subst renamed. unfold span_updateName.
    destruct (ended parent); repeat split; discriminate || auto. }
  destruct Hren as [R1 [R2 [R3 [R4 R5]]]].
  set (s3 := span_setAttribute "n8n.http.original_name" (span_name parent) copied).
  destruct (setAttribute_effect "n8n.http.original_name" (span_name parent) copied)
    as [D1 [D2 [D3 D4]]]. fold s3 in D1, D2, D3, D4.
  destruct (setAttribute_effect "n8n.trace.naming" naming_ s3)
    as [E1 [E2 [E3 E4]]].
  split; [congruence |]. split; [congruence |]. split; [congruence |].
  split.
  { intros k Hk H1 H2.
    rewrite setAttribute_lookup_other by assumption.
    unfold s3. rewrite setAttribute_lookup_other by assumption.
    rewrite C5, R4; [reflexivity | now rewrite R4]. }
  split; [intros [H | H]; discriminate |].
  intros _ _ Hopen. split; [rewrite E1, D1, C1; now apply R5 |].
  assert (Hcopied : ended copied = false).
  { unfold ended in *. now rewrite C4, R3. }
  destruct (setAttribute_attributes "n8n.http.original_name" (span_name parent) copied)
    as [[Hs [H | [H | [H1 H2]]]] | [Hs _]]; fold s3 in Hs.
  - congruence.
  - right. right. exact H.
  - right. left.
    pose proof (setAttribute_grows "n8n.trace.naming" naming_ s3) as Hg.
    rewrite Hs in Hg. lia.
  - left. rewrite setAttribute_lookup_other by discriminate.
    rewrite Hs. apply lookup_set_prop_same.
Qed.

Lemma renameHttpParent_keeps_parent_witness :
  exists p',
    renameHttpParent false (mkNaming None false)
                     [("session.id", VStr "e1"); ("http.method", VStr "x")]
                     (VStr "wf1") (VStr "Demo") (VStr "e1")
                     (Some (startSpan (VStr "POST") [("http.method", VStr "POST")]))
    = Some p'
    /\ lookup "http.method" (span_attributes p') = VStr "POST"
    /\ span_name p' = VStr "n8n.workflow.request"
    /\ (lookup "n8n.http.original_name" (span_attributes p') = VStr "POST"
        \/ attributeCountLimit <= List.length (span_attributes p')
        \/ attribute_entry ("n8n.http.original_name", VStr "POST") = false).
Proof.
  destruct (renameHttpParent_keeps_parent false (mkNaming None false)
              [("session.id", VStr "e1"); ("http.method", VStr "x")]
              (VStr "wf1") (VStr "Demo") (VStr "e1")
              (startSpan (VStr "POST") [("http.method", VStr "POST")]))
    as [p' [Hp [_ [_ [_ [Hkeep [_ Hname]]]]]]].
  exists p'. split; [exact Hp |].
  split; [apply Hkeep; discriminate |].
  destruct (Hname eq_refl eq_refl eq_refl) as [Hn Hold]. split; assumption.
Defined.

(* ================================================================== *)
(** ** Properties of the execution and session identifiers *)
(* ================================================================== *)

(** X24.  The session id either wrapper attaches is never falsy.  In the
    workflow wrapper the execution id is never falsy either and the session
    id is the execution id.  In the step wrapper only an absent execution
    id becomes unknown, so an execution id that is present but falsy, such
    as the empty string, is kept while the session id is unknown. *)
Theorem session_id_truthy (this additionalData : value) :
  truthy (workflowExecutionId this) = true
  /\ deriveSessionId (workflowExecutionId this) = workflowExecutionId this
  /\ truthy (deriveSessionId (nodeExecutionId additionalData)) = true
  /\ (truthy (nodeExecutionId additionalData) = true ->
      deriveSessionId (nodeExecutionId additionalData)
      = nodeExecutionId additionalData)
  /\ (truthy (nodeExecutionId additionalData) = false ->
      deriveSessionId (nodeExecutionId additionalData) = VStr "unknown"
      /\ nodeExecutionId additionalData = get_opt additionalData "executionId").
Proof.
  assert (Hw : truthy (workflowExecutionId this) = true).
  { unfold workflowExecutionId. rewrite truthy_or_else. apply orb_true_r. }
  split; [exact Hw |].
  split; [unfold deriveSessionId, or_else; now rewrite Hw |].
  split; [unfold deriveSessionId; rewrite truthy_or_else; apply orb_true_r |].
  split.
  - intros Ht. unfold deriveSessionId, or_else. now rewrite Ht.
  - intros Hf. unfold deriveSessionId, or_else. rewrite Hf.
    split; [reflexivity |].
    unfold nodeExecutionId, nullish_or in *.
    destruct (get_opt additionalData "executionId"); try reflexivity;
      discriminate Hf.
Qed.

Lemma session_id_truthy_witness :
  deriveSessionId (nodeExecutionId (VObj [("executionId", VStr "")])) = VStr "unknown"
  /\ nodeExecutionId (VObj [("executionId", VStr "")])
     = get_opt (VObj [("executionId", VStr "")]) "executionId".
Proof.
  apply (session_id_truthy VUndefined (VObj [("executionId", VStr "")])).
  reflexivity.
Defined.
